(** * GhostInput: the per-tab timer scheduling and execution-recovery engine

    A shallow embedding of the background service worker
    ([background.js]: [calculateInterval], [scheduleActionOnTab],
    [executeAndRescheduleOnTab], [initializeTimers], [startActionOnTab],
    [stopActionOnTab], [toggleGlobal], ...) and of the storage module it
    calls ([storage.js]: [getActions], [saveActions], [addActionInstance],
    [removeActionInstance], [updateActionInstance], [addLog], ...).

    Conventions of the embedding.
    - JavaScript numbers that the popup creates with [parseInt] (interval,
      randomize bounds, limits), tab ids, timestamps and counters are [Z].
      The one fractional quantity, the value of [Math.random()], is a
      rational [Q] handed to the code by the environment; the product
      and the sum [calculateInterval] forms with it are rounded to IEEE
      754 doubles ([roundDouble]).
    - Module-level mutable state ([activeTimers], [errorRecoveryAttempts],
      [isInitialized]), [chrome.storage.local], the pending [setTimeout]
      timers of the JavaScript runtime, the badge and the notifications
      shown are fields of one record [World]; the code runs in a state and
      exception monad [M] over it.
    - Each asynchronous function runs to completion: interleaving at
      [await] points is not modelled, and [chrome.storage.local] itself
      never fails. The operations whose result depends on the
      interleaving, because they start several [stopActionOnTab] promises
      at once and the storage writes of these overlap
      ([stopActionOnAllTabs], the [tabs.onRemoved] listener), are not
      embedded. *)

From Stdlib Require Import ZArith QArith Qround Qabs String Ascii List Lia.
From stdpp Require Import gmap strings list fin_maps pretty.

Local Open Scope string_scope.
Local Open Scope Z_scope.

(** ** Data model (types.ts) *)

Inductive TimeUnit : Type :=
| Milliseconds
| Seconds
| Minutes
| Hours.

Module Instance.
Record t : Type := mk {
  enabled : bool;
  executionCount : Z;
  startedAt : Z;
  tabTitle : string;
  nextExecution : option Z;
  lastExecuted : option Z
}.
End Instance.

Module Action.
Record t : Type := mk {
  id : string;
  name : string;
  type : string;
  key : option string;
  interval : Z;
  timeUnit : TimeUnit;
  randomize : bool;
  randomizeMin : Z;
  randomizeMax : Z;
  urlFilter : option string;
  repeatLimit : option Z;
  timeLimit : option Z;
  instances : option (gmap Z Instance.t)
}.
End Action.

Module Settings.
Record t : Type := mk {
  globalEnabled : bool;
  notifications : bool;
  maxLogs : nat
}.
End Settings.

Module LogEntry.
Record t : Type := mk {
  actionId : string;
  actionName : string;
  type : string;
  key : option string;
  success : bool;
  error : option string;
  tabId : option Z;
  timestamp : Z
}.
End LogEntry.

Module TimerInfo.
Record t : Type := mk {
  timerId : Z;
  nextExecution : Z;
  intervalMs : Z;
  actionId : string;
  tabId : Z
}.
End TimerInfo.

(** What [chrome.tabs.get] exposes of a tab. *)
Module Tab.
Record t : Type := mk {
  id : Z;
  url : option string;
  title : option string
}.
End Tab.

(** A notification handed to [chrome.notifications.create]. *)
Module Notification.
Record t : Type := mk {
  title : string;
  message : string
}.
End Notification.

(** ** Constants *)

Definition MAX_RECOVERY_ATTEMPTS : Z := 3.
Definition MAX_INTERVAL_MS : Z := 24 * 60 * 60 * 1000.
Definition MIN_INTERVAL_MS : Z := 100.
Definition MAX_INSTANCES_PER_ACTION : nat := 5.
Definition MAX_RETRY_ATTEMPTS : nat := 3.

(** ** Interval Calculator *)

(** The [switch (action.timeUnit)] that normalises a quantity to
    milliseconds; ['milliseconds'] falls through unchanged. *)
Definition toMs (u : TimeUnit) (x : Z) : Z :=
  match u with
  | Seconds => x * 1000
  | Minutes => x * 60000
  | Hours => x * 3600000
  | Milliseconds => x
  end.

(** JavaScript truthiness of a number. *)
Definition truthy (x : Z) : bool := negb (x =? 0).

(** *** IEEE 754 double arithmetic

    The randomized branch computes with a fraction, so its product and
    its sum are rounded to the nearest double, ties to even. *)

(** [2^e <= p / q], for positive [p] and [q]. *)
Definition pow2_le (e p q : Z) : bool :=
  if 0 <=? e then 2 ^ e * q <=? p else q <=? p * 2 ^ (- e).

(** The exponent [e] with [2^e <= x < 2^(e+1)], for positive [x]. *)
Definition binade (x : Q) : Z :=
  let p := Qnum x in
  let q := Zpos (Qden x) in
  let d := Z.log2 p - Z.log2 q in
  if pow2_le d p q then d else d - 1.

(** The nearest integer, ties to even. *)
Definition roundHalfEven (x : Q) : Z :=
  let f := Qfloor x in
  match (x - inject_Z f ?= 1 # 2)%Q with
  | Lt => f
  | Gt => f + 1
  | Eq => if Z.even f then f else f + 1
  end.

(** [x * 2^k]. *)
Definition scale2 (x : Q) (k : Z) : Q :=
  if 0 <=? k then (x * inject_Z (2 ^ k))%Q else (x / inject_Z (2 ^ (- k)))%Q.

(** The double nearest to [x], for [x] below the overflow threshold: the
    nearest multiple of [2^(e - 52)], where [e] is the exponent of [x],
    at least [-1022] (subnormal numbers share the spacing [2^-1074]). *)
Definition roundDouble (x : Q) : Q :=
  if Qeq_bool x 0 then 0%Q
  else
    let e := Z.max (binade (Qabs x)) (-1022) in
    scale2 (inject_Z (roundHalfEven (scale2 x (52 - e)))) (e - 52).

(** [calculateInterval random action]: [random] is the value that
    [Math.random()] yields if the randomized branch asks for it. The
    integers are exact as doubles (below [2^53]); the product with
    [random] and the sum that follows are rounded. *)
Definition calculateInterval (random : Q) (action : Action.t) : Z :=
  let baseMs := toMs (Action.timeUnit action) (Action.interval action) in
  let baseMs := Z.max MIN_INTERVAL_MS (Z.min MAX_INTERVAL_MS baseMs) in
  if Action.randomize action
     && (truthy (Action.randomizeMin action) || truthy (Action.randomizeMax action))
  then
    let min := Action.randomizeMin action in
    let max := Action.randomizeMax action in
    let max := if max <? min then min else max in
    let min := toMs (Action.timeUnit action) min in
    let max := toMs (Action.timeUnit action) max in
    if 0 <? max
    then Qfloor (roundDouble
                   (roundDouble (random * inject_Z (max - min + 1)) + inject_Z min))
    else baseMs
  else baseMs.

(** The millisecond range [(min, max)] the randomized branch samples
    from, when that branch is the one that returns. *)
Definition randomRange (action : Action.t) : option (Z * Z) :=
  if Action.randomize action
     && (truthy (Action.randomizeMin action) || truthy (Action.randomizeMax action))
  then
    let lo := Action.randomizeMin action in
    let hi := Z.max lo (Action.randomizeMax action) in
    if 0 <? toMs (Action.timeUnit action) hi
    then Some (toMs (Action.timeUnit action) lo, toMs (Action.timeUnit action) hi)
    else None
  else None.

(** Whether [calculateInterval] calls [Math.random()]. *)
Definition drawsRandom (action : Action.t) : bool :=
  match randomRange action with
  | Some _ => true
  | None => false
  end.

Definition clampedBase (action : Action.t) : Z :=
  Z.max MIN_INTERVAL_MS
    (Z.min MAX_INTERVAL_MS (toMs (Action.timeUnit action) (Action.interval action))).

(** A sample of [Math.random()] lies in [[0, 1)]. *)
Definition unitSample (r : Q) : Prop := (0 <= r)%Q /\ (r < 1)%Q.

(** The largest double below 1. *)
Definition lastSample : Q := (1 - (1 # Z.to_pos (2 ^ 53)))%Q.

(** Example actions. *)
Definition plainAction (aid : string) : Action.t :=
  Action.mk aid "Press A" "key" (Some "A") 5 Seconds false 0 0 None None None None.

Definition tinyRandomAction (aid : string) : Action.t :=
  Action.mk aid "Press A" "key" (Some "A") 5 Seconds true 1 1 None None None None.

Definition tinyRandomMs : Action.t :=
  Action.mk "a1" "Press A" "key" (Some "A") 5000 Milliseconds true 1 1 None None None None.

Definition hugeRandomHours : Action.t :=
  Action.mk "a1" "Press A" "key" (Some "A") 1 Hours true 100 100 None None None None.

(** ** The world the service worker runs in *)

Record World : Type := mkWorld {
  (** [chrome.storage.local]: the ['actions'], ['settings'] and
      ['actionLogs'] keys. *)
  storedActions : list Action.t;
  storedSettings : Settings.t;
  storedLogs : list LogEntry.t;
  (** Module-level state of background.js. *)
  activeTimers : gmap string TimerInfo.t;
  errorRecoveryAttempts : gmap string Z;
  isInitialized : bool;
  (** Timers of the runtime that were set and neither fired nor cleared:
      timer id to the [(action.id, tabId)] its callback closes over. *)
  pendingTimeouts : gmap Z (string * Z);
  nextTimerId : Z;
  (** Count last passed to [updateBadge]. *)
  badge : Z;
  (** Notifications created so far, newest first. *)
  shown : list Notification.t;
  (** [Date.now()]. *)
  clock : Z;
  (** Tabs [chrome.tabs.get] resolves. *)
  openTabs : gmap Z Tab.t;
  (** Values [Math.random()] is going to return. *)
  randomSource : list Q
}.

Definition setStoredActions (v : list Action.t) (w : World) : World :=
  mkWorld v (storedSettings w) (storedLogs w) (activeTimers w)
    (errorRecoveryAttempts w) (isInitialized w) (pendingTimeouts w)
    (nextTimerId w) (badge w) (shown w) (clock w) (openTabs w) (randomSource w).

Definition setStoredSettings (v : Settings.t) (w : World) : World :=
  mkWorld (storedActions w) v (storedLogs w) (activeTimers w)
    (errorRecoveryAttempts w) (isInitialized w) (pendingTimeouts w)
    (nextTimerId w) (badge w) (shown w) (clock w) (openTabs w) (randomSource w).

Definition setStoredLogs (v : list LogEntry.t) (w : World) : World :=
  mkWorld (storedActions w) (storedSettings w) v (activeTimers w)
    (errorRecoveryAttempts w) (isInitialized w) (pendingTimeouts w)
    (nextTimerId w) (badge w) (shown w) (clock w) (openTabs w) (randomSource w).

Definition setActiveTimers (v : gmap string TimerInfo.t) (w : World) : World :=
  mkWorld (storedActions w) (storedSettings w) (storedLogs w) v
    (errorRecoveryAttempts w) (isInitialized w) (pendingTimeouts w)
    (nextTimerId w) (badge w) (shown w) (clock w) (openTabs w) (randomSource w).

Definition setErrorRecoveryAttempts (v : gmap string Z) (w : World) : World :=
  mkWorld (storedActions w) (storedSettings w) (storedLogs w) (activeTimers w)
    v (isInitialized w) (pendingTimeouts w)
    (nextTimerId w) (badge w) (shown w) (clock w) (openTabs w) (randomSource w).

Definition setIsInitialized (v : bool) (w : World) : World :=
  mkWorld (storedActions w) (storedSettings w) (storedLogs w) (activeTimers w)
    (errorRecoveryAttempts w) v (pendingTimeouts w)
    (nextTimerId w) (badge w) (shown w) (clock w) (openTabs w) (randomSource w).

Definition setPendingTimeouts (v : gmap Z (string * Z)) (w : World) : World :=
  mkWorld (storedActions w) (storedSettings w) (storedLogs w) (activeTimers w)
    (errorRecoveryAttempts w) (isInitialized w) v
    (nextTimerId w) (badge w) (shown w) (clock w) (openTabs w) (randomSource w).

Definition setNextTimerId (v : Z) (w : World) : World :=
  mkWorld (storedActions w) (storedSettings w) (storedLogs w) (activeTimers w)
    (errorRecoveryAttempts w) (isInitialized w) (pendingTimeouts w)
    v (badge w) (shown w) (clock w) (openTabs w) (randomSource w).

Definition setBadge (v : Z) (w : World) : World :=
  mkWorld (storedActions w) (storedSettings w) (storedLogs w) (activeTimers w)
    (errorRecoveryAttempts w) (isInitialized w) (pendingTimeouts w)
    (nextTimerId w) v (shown w) (clock w) (openTabs w) (randomSource w).

Definition setShown (v : list Notification.t) (w : World) : World :=
  mkWorld (storedActions w) (storedSettings w) (storedLogs w) (activeTimers w)
    (errorRecoveryAttempts w) (isInitialized w) (pendingTimeouts w)
    (nextTimerId w) (badge w) v (clock w) (openTabs w) (randomSource w).

Definition setRandomSource (v : list Q) (w : World) : World :=
  mkWorld (storedActions w) (storedSettings w) (storedLogs w) (activeTimers w)
    (errorRecoveryAttempts w) (isInitialized w) (pendingTimeouts w)
    (nextTimerId w) (badge w) (shown w) (clock w) (openTabs w) v.

(** ** State and exception monad *)

Inductive Res (A : Type) : Type :=
| Ok (value : A)
| Throw (message : string).

Arguments Ok {A} value.
Arguments Throw {A} message.

Definition M (A : Type) : Type := World -> Res A * World.

Definition ret {A : Type} (a : A) : M A := fun w => (Ok a, w).

Definition bind {A B : Type} (m : M A) (k : A -> M B) : M B :=
  fun w =>
    match m w with
    | (Ok a, w') => k a w'
    | (Throw e, w') => (Throw e, w')
    end.

Definition throw {A : Type} (message : string) : M A := fun w => (Throw message, w).

(** [try { m } catch (error) { handler error.message }]: the state reached
    when the exception was thrown is the one the handler starts from. *)
Definition tryCatch {A : Type} (m : M A) (handler : string -> M A) : M A :=
  fun w =>
    match m w with
    | (Ok a, w') => (Ok a, w')
    | (Throw e, w') => handler e w'
    end.

Definition gets {A : Type} (f : World -> A) : M A := fun w => (Ok (f w), w).

Definition modify (f : World -> World) : M unit := fun w => (Ok tt, f w).

Declare Scope js_scope.
Delimit Scope js_scope with js.

Notation "x <- c1 ;; c2" := (bind c1 (fun x => c2))
  (at level 100, c1 at next level, c2 at level 200, right associativity) : js_scope.
Notation "c1 ;; c2" := (bind c1 (fun _ => c2))
  (at level 100, c2 at level 200, right associativity) : js_scope.

Local Open Scope js_scope.

Fixpoint foldM {A B : Type} (f : A -> B -> M A) (acc : A) (l : list B) : M A :=
  match l with
  | [] => ret acc
  | x :: l' => acc' <- f acc x ;; foldM f acc' l'
  end.

Definition Date_now : M Z := gets clock.

(** [Math.random()] takes the next value of the random source. *)
Definition Math_random : M Q :=
  fun w => (Ok (hd 0%Q (randomSource w)), setRandomSource (tail (randomSource w)) w).

(** [setTimeout(() => executeAndRescheduleOnTab(actionId, tabId), ms)]. *)
Definition setTimeout (actionId : string) (tabId : Z) : M Z :=
  fun w =>
    let timerId := nextTimerId w in
    (Ok timerId,
     setNextTimerId (timerId + 1)
       (setPendingTimeouts (<[timerId := (actionId, tabId)]> (pendingTimeouts w)) w)).

Definition clearTimeout (timerId : Z) : M unit :=
  modify (fun w => setPendingTimeouts (delete timerId (pendingTimeouts w)) w).

(** [chrome.tabs.get(tabId)]; [None] stands for the rejection. *)
Definition chrome_tabs_get (tabId : Z) : M (option Tab.t) :=
  gets (fun w => openTabs w !! tabId).

(** ** storage.js *)

(** [validateAction]: [None] when the action passes, otherwise the
    message of the [ValidationError] thrown. *)
Definition validateAction (action : Action.t) : option string :=
  if String.eqb (Action.id action) "" then
    Some "Action must have a valid id"
  else if String.eqb (Action.name action) "" then
    Some "Action must have a valid name"
  else if negb (String.eqb (Action.type action) "key"
                || String.eqb (Action.type action) "mouse") then
    Some "Action must have a valid type (key or mouse)"
  else if Action.interval action <? 1 then
    Some "Action must have a valid interval >= 1"
  else
    match Action.instances action with
    | Some instances =>
        if (MAX_INSTANCES_PER_ACTION <? size instances)%nat
        then Some ("Action " +:+ Action.id action +:+ " exceeds maximum instances limit")
        else None
    | None => None
    end.

Definition isValid (action : Action.t) : bool :=
  match validateAction action with
  | None => true
  | Some _ => false
  end.

(** [actions.forEach(validateAction)]: the first error, if any. *)
Fixpoint firstInvalid (actions : list Action.t) : option string :=
  match actions with
  | [] => None
  | a :: rest =>
      match validateAction a with
      | Some e => Some e
      | None => firstInvalid rest
      end
  end.

(** The loop of [executeWithRetry]: up to [MAX_RETRY_ATTEMPTS] attempts,
    then a [StorageError]. *)
Fixpoint retryLoop {A : Type} (operationId : string) (operation : M A)
    (attemptsLeft : nat) : M A :=
  match attemptsLeft with
  | O => throw ("Operation " +:+ operationId +:+ " failed after "
                +:+ pretty MAX_RETRY_ATTEMPTS +:+ " attempts")
  | S n => tryCatch operation (fun _ => retryLoop operationId operation n)
  end.

Definition executeWithRetry {A : Type} (operationId : string) (operation : M A) : M A :=
  retryLoop operationId operation MAX_RETRY_ATTEMPTS.

Definition getActions : M (list Action.t) :=
  executeWithRetry "getActions"
    (gets (fun w => List.filter isValid (storedActions w))).

Definition saveActions (actions : list Action.t) : M unit :=
  match firstInvalid actions with
  | Some e => throw e
  | None => executeWithRetry "saveActions" (modify (setStoredActions actions))
  end.

(** [actions.find(a => a.id === actionId)]. *)
Definition findAction (actionId : string) (actions : list Action.t) : option Action.t :=
  List.find (fun a => String.eqb (Action.id a) actionId) actions.

(** The array after the object [find] returned was mutated by [f]. *)
Fixpoint updateFound (actionId : string) (f : Action.t -> Action.t)
    (actions : list Action.t) : list Action.t :=
  match actions with
  | [] => []
  | a :: rest =>
      if String.eqb (Action.id a) actionId
      then f a :: rest
      else a :: updateFound actionId f rest
  end.

Definition setInstances (instances : option (gmap Z Instance.t)) (a : Action.t) : Action.t :=
  Action.mk (Action.id a) (Action.name a) (Action.type a) (Action.key a)
    (Action.interval a) (Action.timeUnit a) (Action.randomize a)
    (Action.randomizeMin a) (Action.randomizeMax a) (Action.urlFilter a)
    (Action.repeatLimit a) (Action.timeLimit a) instances.

(** [action.instances?.[tabId]]. *)
Definition lookupInstance (action : Action.t) (tabId : Z) : option Instance.t :=
  match Action.instances action with
  | Some instances => instances !! tabId
  | None => None
  end.

(** [`Tab ${tabId}`]. *)
Definition defaultTitle (tabId : Z) : string := "Tab " +:+ pretty tabId.

Definition addActionInstance (actionId : string) (tabId : Z) (tabTitle : string)
    : M Action.t :=
  if String.eqb actionId "" then throw "actionId must be a non-empty string"
  else if tabId <=? 0 then throw "tabId must be a positive number"
  else
    executeWithRetry "addActionInstance" (
      actions <- getActions ;;
      match findAction actionId actions with
      | None => throw ("Action " +:+ actionId +:+ " not found")
      | Some action =>
          let instances := default ∅ (Action.instances action) in
          let currentCount := size instances in
          if (MAX_INSTANCES_PER_ACTION <=? currentCount)%nat
             && negb (bool_decide (is_Some (instances !! tabId)))
          then throw ("Max " +:+ pretty MAX_INSTANCES_PER_ACTION +:+ " tabs per action")
          else
            now <- Date_now ;;
            let created :=
              Instance.mk true 0 now
                (if String.eqb tabTitle "" then defaultTitle tabId else tabTitle)
                None None in
            let update := setInstances (Some (<[tabId := created]> instances)) in
            saveActions (updateFound actionId update actions) ;;
            ret (update action)
      end).

Definition removeActionInstance (actionId : string) (tabId : Z) : M (option Action.t) :=
  executeWithRetry "removeActionInstance" (
    actions <- getActions ;;
    match findAction actionId actions with
    | None => ret None
    | Some action =>
        match Action.instances action with
        | None => ret None
        | Some instances =>
            let update := setInstances (Some (delete tabId instances)) in
            saveActions (updateFound actionId update actions) ;;
            ret (Some (update action))
        end
    end).

(** The [updates] object of [updateActionInstance]; a field that is
    [None] is absent from the object. *)
Module InstancePatch.
Record t : Type := make {
  enabled : option bool;
  executionCount : option Z;
  startedAt : option Z;
  tabTitle : option string;
  nextExecution : option Z;
  lastExecuted : option Z
}.

(** The objects the service worker passes, [{ nextExecution }] and
    [{ executionCount, lastExecuted }], name these three fields at most. *)
Definition mk (executionCount lastExecuted nextExecution : option Z) : t :=
  make None executionCount None None nextExecution lastExecuted.
End InstancePatch.

(** [{ ...instance, ...updates }]. *)
Definition applyPatch (updates : InstancePatch.t) (i : Instance.t) : Instance.t :=
  Instance.mk
    (default (Instance.enabled i) (InstancePatch.enabled updates))
    (default (Instance.executionCount i) (InstancePatch.executionCount updates))
    (default (Instance.startedAt i) (InstancePatch.startedAt updates))
    (default (Instance.tabTitle i) (InstancePatch.tabTitle updates))
    (match InstancePatch.nextExecution updates with
     | Some v => Some v
     | None => Instance.nextExecution i
     end)
    (match InstancePatch.lastExecuted updates with
     | Some v => Some v
     | None => Instance.lastExecuted i
     end).

Definition updateActionInstance (actionId : string) (tabId : Z)
    (updates : InstancePatch.t) : M (option Action.t) :=
  executeWithRetry "updateActionInstance" (
    actions <- getActions ;;
    match findAction actionId actions with
    | None => ret None
    | Some action =>
        match Action.instances action with
        | None => ret None
        | Some instances =>
            match instances !! tabId with
            | None => ret None
            | Some instance =>
                let update :=
                  setInstances (Some (<[tabId := applyPatch updates instance]> instances)) in
                saveActions (updateFound actionId update actions) ;;
                ret (Some (update action))
            end
        end
    end).

Definition getSettings : M Settings.t :=
  executeWithRetry "getSettings" (gets storedSettings).

(** The partial settings objects [saveSettings] receives. *)
Module SettingsPatch.
Record t : Type := mk {
  globalEnabled : option bool;
  notifications : option bool;
  maxLogs : option nat
}.
End SettingsPatch.

Definition validateSettings (settings : SettingsPatch.t) : option string :=
  match SettingsPatch.maxLogs settings with
  | Some maxLogs =>
      if (Z.of_nat maxLogs <? 10) || (10000 <? Z.of_nat maxLogs)
      then Some "maxLogs must be between 10 and 10000"
      else None
  | None => None
  end.

Definition mergeSettings (current : Settings.t) (settings : SettingsPatch.t) : Settings.t :=
  Settings.mk
    (default (Settings.globalEnabled current) (SettingsPatch.globalEnabled settings))
    (default (Settings.notifications current) (SettingsPatch.notifications settings))
    (default (Settings.maxLogs current) (SettingsPatch.maxLogs settings)).

Definition saveSettings (settings : SettingsPatch.t) : M Settings.t :=
  match validateSettings settings with
  | Some e => throw e
  | None =>
      executeWithRetry "saveSettings" (
        current <- getSettings ;;
        let updated := mergeSettings current settings in
        modify (setStoredSettings updated) ;;
        ret updated)
  end.

Definition getLogs : M (list LogEntry.t) :=
  executeWithRetry "getLogs" (gets storedLogs).

(** [addLog(logEntry)]: [logEntry] is the entry without its timestamp. *)
Definition addLog (logEntry : Z -> LogEntry.t) : M (list LogEntry.t) :=
  executeWithRetry "addLog" (
    settings <- getSettings ;;
    logs <- getLogs ;;
    now <- Date_now ;;
    let logs := logEntry now :: logs in
    let logs :=
      if (Settings.maxLogs settings <? length logs)%nat
      then firstn (Settings.maxLogs settings) logs
      else logs in
    modify (setStoredLogs logs) ;;
    ret logs).

(** ** background.js *)

(** [`${actionId}-${tabId}`]. *)
Definition timerKey (actionId : string) (tabId : Z) : string :=
  actionId +:+ "-" +:+ pretty tabId.

Definition updateBadge (count : Z) : M unit := modify (setBadge count).

(** [Object.values(action.instances).filter(i => i.enabled).length]. *)
Definition countEnabled (action : Action.t) : Z :=
  match Action.instances action with
  | Some instances =>
      Z.of_nat (length (List.filter Instance.enabled (snd <$> map_to_list instances)))
  | None => 0
  end.

Definition refreshBadge : M unit :=
  tryCatch (
    actions <- getActions ;;
    settings <- getSettings ;;
    if negb (Settings.globalEnabled settings) then updateBadge 0
    else updateBadge (fold_left (fun n a => n + countEnabled a) actions 0))
  (fun _ => ret tt).

Definition quote : string := String (ascii_of_nat 34) EmptyString.

Definition completionNotice (name reason : string) : Notification.t :=
  Notification.mk "Task Completed"
    ("Action " +:+ quote +:+ name +:+ quote +:+ " finished after " +:+ reason).

Definition notifyCompletion (name reason : string) : M unit :=
  modify (fun w => setShown (completionNotice name reason :: shown w) w).

Definition clearAllTimers : M unit :=
  modify (fun w =>
    setActiveTimers ∅
      (setPendingTimeouts
         (map_fold
            (fun _ timerInfo pending =>
               if truthy (TimerInfo.timerId timerInfo)
               then delete (TimerInfo.timerId timerInfo) pending
               else pending)
            (pendingTimeouts w) (activeTimers w))
         w)).

Definition scheduleActionOnTab (action : Action.t) (tabId : Z) : M unit :=
  random <- (if drawsRandom action then Math_random else ret 0%Q) ;;
  let intervalMs := calculateInterval random action in
  if (intervalMs <? MIN_INTERVAL_MS) || (MAX_INTERVAL_MS <? intervalMs) then
    throw ("Invalid interval: " +:+ pretty intervalMs +:+ "ms")
  else
    now <- Date_now ;;
    let nextExecution := now + intervalMs in
    let timerKey := timerKey (Action.id action) tabId in
    existingTimer <- gets (fun w => activeTimers w !! timerKey) ;;
    match existingTimer with
    | Some timerInfo =>
        if truthy (TimerInfo.timerId timerInfo)
        then clearTimeout (TimerInfo.timerId timerInfo)
        else ret tt
    | None => ret tt
    end ;;
    timerId <- setTimeout (Action.id action) tabId ;;
    modify (fun w =>
      setActiveTimers
        (<[timerKey := TimerInfo.mk timerId nextExecution intervalMs (Action.id action) tabId]>
           (activeTimers w)) w) ;;
    updateActionInstance (Action.id action) tabId
      (InstancePatch.mk None None (Some nextExecution)) ;;
    ret tt.

Definition stopActionOnTab (actionId : string) (tabId : Z) : M unit :=
  let timerKey := timerKey actionId tabId in
  timerInfo <- gets (fun w => activeTimers w !! timerKey) ;;
  match timerInfo with
  | Some timerInfo =>
      if truthy (TimerInfo.timerId timerInfo)
      then clearTimeout (TimerInfo.timerId timerInfo)
      else ret tt
  | None => ret tt
  end ;;
  modify (fun w => setActiveTimers (delete timerKey (activeTimers w)) w) ;;
  modify (fun w => setErrorRecoveryAttempts (delete timerKey (errorRecoveryAttempts w)) w) ;;
  removeActionInstance actionId tabId ;;
  refreshBadge.

(** *** URL filter *)

Definition isUpper (c : ascii) : bool :=
  (65 <=? nat_of_ascii c)%nat && (nat_of_ascii c <=? 90)%nat.

Definition lowerChar (c : ascii) : ascii :=
  if isUpper c then ascii_of_nat (nat_of_ascii c + 32) else c.

Fixpoint toLowerCase (s : string) : string :=
  match s with
  | EmptyString => EmptyString
  | String c s' => String (lowerChar c) (toLowerCase s')
  end.

Definition isSpace (c : ascii) : bool :=
  let n := nat_of_ascii c in
  (n =? 32)%nat || ((9 <=? n)%nat && (n <=? 13)%nat).

Fixpoint trimStart (s : string) : string :=
  match s with
  | EmptyString => EmptyString
  | String c s' => if isSpace c then trimStart s' else s
  end.

Definition trim (s : string) : string :=
  String.rev (trimStart (String.rev (trimStart s))).

(** [s.split(',')], written with the piece being read as accumulator. *)
Fixpoint splitComma (piece : string) (s : string) : list string :=
  match s with
  | EmptyString => [String.rev piece]
  | String c s' =>
      if Ascii.eqb c ","%char
      then String.rev piece :: splitComma EmptyString s'
      else splitComma (String c piece) s'
  end.

Fixpoint includes (s sub : string) : bool :=
  String.prefix sub s
  || match s with
     | EmptyString => false
     | String _ s' => includes s' sub
     end.

(** [matchesUrlFilter(url, filter)] on ASCII text; an absent [url] or
    [filter] is the empty string. *)
Definition matchesUrlFilter (url filter : string) : bool :=
  if String.eqb filter "" || String.eqb url "" then true
  else
    let filters := List.map (fun f => toLowerCase (trim f)) (splitComma EmptyString filter) in
    let urlLower := toLowerCase url in
    existsb
      (fun f =>
         if String.prefix "*." f
         then includes urlLower (String.substring 2 (String.length f - 2) f)
         else includes urlLower f)
      filters.

(** *** Execution Dispatcher *)

Definition isRestrictedUrl (url : string) : bool :=
  String.prefix "chrome://" url
  || String.prefix "edge://" url
  || String.prefix "chrome-extension://" url
  || String.prefix "about:" url
  || String.prefix "file://" url.

(** [executeAction(action, tab)]; [injection] is what
    [chrome.scripting.executeScript] does when it is reached: [None] when
    it resolves, [Some message] when it rejects with that message. *)
Definition executeAction (injection : option string) (action : Action.t) (tab : Tab.t)
    : M unit :=
  if negb (truthy (Tab.id tab)) then throw "Invalid tab"
  else
    let url := default "" (Tab.url tab) in
    if isRestrictedUrl url then ret tt
    else
      match injection with
      | None => ret tt
      | Some message => throw ("Script injection failed: " +:+ message)
      end.

(** *** Execution-and-reschedule cycle *)

(** How the inner [try]/[catch] around [executeAction] ends. *)
Inductive Dispatch : Type :=
| Succeeded
| Retry
| Aborted.

Definition deleteTimer (timerKey : string) : M unit :=
  modify (fun w => setActiveTimers (delete timerKey (activeTimers w)) w).

Definition abortLog (action : Action.t) (tabId : Z) (message : string) (timestamp : Z)
    : LogEntry.t :=
  LogEntry.mk (Action.id action) (Action.name action) (Action.type action)
    (Action.key action) false
    (Some ("Max recovery attempts reached: " +:+ message)) (Some tabId) timestamp.

(** [(Date.now() - instance.startedAt) / 60000]. *)
Definition elapsedMinutes (now startedAt : Z) : Q := Qmake (now - startedAt) 60000.

(** [Math.round]. *)
Definition Math_round (x : Q) : Z := Qfloor (x + (1 # 2))%Q.

Definition isSomeTruthy (limit : option Z) : bool :=
  match limit with
  | Some n => truthy n
  | None => false
  end.

(** Truthiness of a [string | null]. *)
Definition nonEmpty (s : option string) : bool :=
  match s with
  | Some s => negb (String.eqb s "")
  | None => false
  end.

(** The progress notification; [substring(0, 20)] is taken on ASCII
    titles. *)
Definition progressNotification (action : Action.t) (newCount : Z) (tab : Tab.t)
    : Notification.t :=
  let shortTitle :=
    match Tab.title tab with
    | Some title => String.substring 0 20 title
    | None => ""
    end in
  Notification.mk "GhostInput"
    (Action.name action +:+ ": " +:+ pretty newCount +:+ "x on "
     +:+ (if String.eqb shortTitle "" then "tab" else shortTitle)).

(** [action.repeatLimit && newCount >= action.repeatLimit]. *)
Definition repeatLimitReached (action : Action.t) (newCount : Z) : bool :=
  isSomeTruthy (Action.repeatLimit action)
  && (default 0 (Action.repeatLimit action) <=? newCount).

(** [action.timeLimit && instance.startedAt && elapsedMinutes >= action.timeLimit]. *)
Definition timeLimitReached (action : Action.t) (instance : Instance.t) (now : Z) : bool :=
  isSomeTruthy (Action.timeLimit action)
  && truthy (Instance.startedAt instance)
  && Qle_bool (inject_Z (default 0 (Action.timeLimit action)))
       (elapsedMinutes now (Instance.startedAt instance)).

(** The limit checks of [executeAndRescheduleOnTab], entered once the new
    execution count is stored: repeat limit, time limit, occasional
    notification, reschedule. *)
Definition checkLimits (actionId : string) (tabId : Z) (action : Action.t)
    (instance : Instance.t) (settings : Settings.t) (tab : Tab.t) (newCount : Z)
    : M unit :=
  if repeatLimitReached action newCount then
    stopActionOnTab actionId tabId ;;
    notifyCompletion (Action.name action) (pretty newCount +:+ " executions on tab")
  else
    now <- Date_now ;;
    if timeLimitReached action instance now then
      stopActionOnTab actionId tabId ;;
      notifyCompletion (Action.name action)
        (pretty (Math_round (elapsedMinutes now (Instance.startedAt instance)))
         +:+ " minutes on tab")
    else
      (if Settings.notifications settings
          && ((newCount =? 1) || (Z.rem newCount 50 =? 0))
       then modify (fun w =>
              setShown (progressNotification action newCount tab :: shown w) w)
       else ret tt) ;;
      scheduleActionOnTab action tabId.

(** The [try] block of [executeAndRescheduleOnTab]. *)
Definition executeAndRescheduleOnTab_try (injection : option string)
    (actionId : string) (tabId : Z) : M unit :=
  let timerKey := timerKey actionId tabId in
  actions <- getActions ;;
  match findAction actionId actions with
  | None => deleteTimer timerKey ;; refreshBadge
  | Some action =>
  match lookupInstance action tabId with
  | None => deleteTimer timerKey ;; refreshBadge
  | Some instance =>
  if negb (Instance.enabled instance) then deleteTimer timerKey ;; refreshBadge
  else
    settings <- getSettings ;;
    if negb (Settings.globalEnabled settings) then deleteTimer timerKey
    else
      found <- chrome_tabs_get tabId ;;
      match found with
      | None => stopActionOnTab actionId tabId
      | Some tab =>
      if nonEmpty (Action.urlFilter action)
         && negb (matchesUrlFilter (default "" (Tab.url tab))
                    (default "" (Action.urlFilter action)))
      then scheduleActionOnTab action tabId
      else
        attempts <- gets (fun w => default 0 (errorRecoveryAttempts w !! timerKey)) ;;
        outcome <-
          tryCatch (executeAction injection action tab ;; ret Succeeded)
            (fun message =>
               let attempts := attempts + 1 in
               if MAX_RECOVERY_ATTEMPTS <=? attempts then
                 stopActionOnTab actionId tabId ;;
                 addLog (abortLog action tabId message) ;;
                 ret Aborted
               else
                 modify (fun w =>
                   setErrorRecoveryAttempts
                     (<[timerKey := attempts]> (errorRecoveryAttempts w)) w) ;;
                 ret Retry) ;;
        match outcome with
        | Aborted => ret tt
        | Retry => scheduleActionOnTab action tabId
        | Succeeded =>
            let newCount := Instance.executionCount instance + 1 in
            now <- Date_now ;;
            updateActionInstance actionId tabId
              (InstancePatch.mk (Some newCount) (Some now) None) ;;
            checkLimits actionId tabId action instance settings tab newCount
        end
      end
  end
  end.

(** The [catch] block of [executeAndRescheduleOnTab]. *)
Definition executeAndRescheduleOnTab_catch (actionId : string) (tabId : Z)
    (error : string) : M unit :=
  let timerKey := timerKey actionId tabId in
  attempts <- gets (fun w => default 0 (errorRecoveryAttempts w !! timerKey) + 1) ;;
  modify (fun w =>
    setErrorRecoveryAttempts (<[timerKey := attempts]> (errorRecoveryAttempts w)) w) ;;
  rescheduled <-
    (if attempts <? MAX_RECOVERY_ATTEMPTS then
       tryCatch (
         actions <- getActions ;;
         match findAction actionId actions with
         | Some action => scheduleActionOnTab action tabId ;; ret true
         | None => ret false
         end)
       (fun _ => ret false)
     else ret false) ;;
  if (rescheduled : bool) then ret tt
  else deleteTimer timerKey ;; stopActionOnTab actionId tabId.

Definition executeAndRescheduleOnTab (injection : option string)
    (actionId : string) (tabId : Z) : M unit :=
  tryCatch (executeAndRescheduleOnTab_try injection actionId tabId)
    (executeAndRescheduleOnTab_catch actionId tabId).

(** A pending timer fires: the runtime forgets it and runs its callback,
    whose [.catch] swallows what the cycle throws. *)
Definition fireTimer (injection : option string) (timerId : Z) : M unit :=
  callback <- gets (fun w => pendingTimeouts w !! timerId) ;;
  match callback with
  | None => ret tt
  | Some (actionId, tabId) =>
      clearTimeout timerId ;;
      tryCatch (executeAndRescheduleOnTab injection actionId tabId) (fun _ => ret tt)
  end.

(** *** Scheduling Orchestrator *)

(** One iteration of the inner loop of [initializeTimers]: the promise
    [scheduleActionOnTab(action, tabId).then(..).catch(..)] run to its
    end. The code starts the promises of all enabled instances before it
    awaits them; run one after the other they arm the same keys, leave
    the same callbacks pending and give the same count, while the order
    of the timer ids and the [nextExecution] values that reach the
    storage can differ. *)
Definition scheduleIfEnabled (action : Action.t) (activeCount : Z)
    (entry : Z * Instance.t) : M Z :=
  if Instance.enabled (snd entry) then
    tryCatch (scheduleActionOnTab action (fst entry) ;; ret (activeCount + 1))
      (fun _ => ret activeCount)
  else ret activeCount.

Definition scheduleInstancesOf (activeCount : Z) (action : Action.t) : M Z :=
  match Action.instances action with
  | Some instances => foldM (scheduleIfEnabled action) activeCount (map_to_list instances)
  | None => ret activeCount
  end.

Definition initializeTimers : M unit :=
  initialized <- gets isInitialized ;;
  if (initialized : bool) then ret tt
  else
    modify (setIsInitialized true) ;;
    tryCatch (
      actions <- getActions ;;
      settings <- getSettings ;;
      if negb (Settings.globalEnabled settings) then updateBadge 0
      else
        clearAllTimers ;;
        activeCount <- foldM scheduleInstancesOf 0 actions ;;
        updateBadge activeCount)
    (fun error => modify (setIsInitialized false) ;; throw error).

(** The ['REFRESH_TIMERS'] message. *)
Definition refreshTimers : M unit :=
  modify (setIsInitialized false) ;; initializeTimers.

Inductive StartResult : Type :=
| Started
| StartError (error code : string).

Definition startActionOnTab (actionId : string) (tabId : Z) (tabTitle : option string)
    : M StartResult :=
  tryCatch (
    actions <- getActions ;;
    match findAction actionId actions with
    | None => ret (StartError "Action not found" "ACTION_NOT_FOUND")
    | Some action =>
        settings <- getSettings ;;
        (if negb (Settings.globalEnabled settings) then
           saveSettings (SettingsPatch.mk (Some true) None None) ;;
           modify (setIsInitialized false)
         else ret tt) ;;
        tabTitle <-
          (if nonEmpty tabTitle then ret (default "" tabTitle)
           else
             found <- chrome_tabs_get tabId ;;
             ret (match found with
                  | Some tab =>
                      if nonEmpty (Tab.title tab) then default "" (Tab.title tab)
                      else defaultTitle tabId
                  | None => defaultTitle tabId
                  end)) ;;
        addActionInstance actionId tabId tabTitle ;;
        scheduleActionOnTab action tabId ;;
        refreshBadge ;;
        ret Started
    end)
  (fun message => ret (StartError message "START_ERROR")).

Definition toggleGlobal : M bool :=
  settings <- getSettings ;;
  let newEnabled := negb (Settings.globalEnabled settings) in
  saveSettings (SettingsPatch.mk (Some newEnabled) None None) ;;
  (if newEnabled then
     modify (setIsInitialized false) ;; initializeTimers
   else
     clearAllTimers ;; updateBadge 0) ;;
  ret newEnabled.

(** ** What the operations do to the world, in closed form

    The functions below say what a call leaves behind; the lemmas of the
    second part prove that the code above computes them. *)

(** What [getActions] returns. *)
Definition validActions (stored : list Action.t) : list Action.t :=
  List.filter isValid stored.

(** The stored actions after [removeActionInstance]. *)
Definition removedInstance (actionId : string) (tabId : Z) (stored : list Action.t)
    : list Action.t :=
  match findAction actionId (validActions stored) with
  | Some action =>
      match Action.instances action with
      | Some instances =>
          updateFound actionId (setInstances (Some (delete tabId instances)))
            (validActions stored)
      | None => stored
      end
  | None => stored
  end.

(** The stored actions after [updateActionInstance]. *)
Definition patchedInstance (actionId : string) (tabId : Z) (updates : InstancePatch.t)
    (stored : list Action.t) : list Action.t :=
  match findAction actionId (validActions stored) with
  | Some action =>
      match Action.instances action with
      | Some instances =>
          match instances !! tabId with
          | Some instance =>
              updateFound actionId
                (setInstances (Some (<[tabId := applyPatch updates instance]> instances)))
                (validActions stored)
          | None => stored
          end
      | None => stored
      end
  | None => stored
  end.

(** The instance [addActionInstance] writes. *)
Definition createdInstance (tabId : Z) (tabTitle : string) (now : Z) : Instance.t :=
  Instance.mk true 0 now
    (if String.eqb tabTitle "" then defaultTitle tabId else tabTitle) None None.

(** Whether [addActionInstance] refuses the tab for this action. *)
Definition atInstanceLimit (action : Action.t) (tabId : Z) : bool :=
  (MAX_INSTANCES_PER_ACTION <=? size (default ∅ (Action.instances action)))%nat
  && negb (bool_decide (is_Some (default ∅ (Action.instances action) !! tabId))).

(** The stored actions after a successful [addActionInstance]. *)
Definition addedInstance (actionId : string) (tabId : Z) (tabTitle : string) (now : Z)
    (stored : list Action.t) : list Action.t :=
  match findAction actionId (validActions stored) with
  | Some action =>
      updateFound actionId
        (setInstances
           (Some (<[tabId := createdInstance tabId tabTitle now]>
                    (default ∅ (Action.instances action)))))
        (validActions stored)
  | None => stored
  end.

(** The count [refreshBadge] passes to [updateBadge]. *)
Definition badgeCount (settings : Settings.t) (stored : list Action.t) : Z :=
  if negb (Settings.globalEnabled settings) then 0
  else fold_left (fun n a => n + countEnabled a) (validActions stored) 0.

(** The pending timers after the registered timer of [timerKey], if any,
    is cleared. *)
Definition clearedPending (timerKey : string) (timers : gmap string TimerInfo.t)
    (pending : gmap Z (string * Z)) : gmap Z (string * Z) :=
  match timers !! timerKey with
  | Some timerInfo =>
      if truthy (TimerInfo.timerId timerInfo)
      then delete (TimerInfo.timerId timerInfo) pending
      else pending
  | None => pending
  end.

(** The world after [stopActionOnTab]. *)
Definition stopped (actionId : string) (tabId : Z) (w : World) : World :=
  let timerKey := timerKey actionId tabId in
  let stored := removedInstance actionId tabId (storedActions w) in
  mkWorld stored (storedSettings w) (storedLogs w)
    (delete timerKey (activeTimers w))
    (delete timerKey (errorRecoveryAttempts w))
    (isInitialized w)
    (clearedPending timerKey (activeTimers w) (pendingTimeouts w))
    (nextTimerId w)
    (badgeCount (storedSettings w) stored)
    (shown w) (clock w) (openTabs w) (randomSource w).

(** The value [Math.random()] returns next, and the random source once
    [calculateInterval] has run for [action]. *)
Definition nextRandom (w : World) : Q := hd 0%Q (randomSource w).

Definition remainingRandom (action : Action.t) (w : World) : list Q :=
  if drawsRandom action then tail (randomSource w) else randomSource w.

(** The interval [scheduleActionOnTab] computes in [w], and its check. *)
Definition intervalIn (w : World) (action : Action.t) : Z :=
  calculateInterval (nextRandom w) action.

Definition validInterval (intervalMs : Z) : bool :=
  negb ((intervalMs <? MIN_INTERVAL_MS) || (MAX_INTERVAL_MS <? intervalMs)).

(** The world after a [scheduleActionOnTab] that armed its timer. *)
Definition scheduled (action : Action.t) (tabId : Z) (w : World) : World :=
  let intervalMs := intervalIn w action in
  let nextExecution := clock w + intervalMs in
  let timerKey := timerKey (Action.id action) tabId in
  let timerId := nextTimerId w in
  mkWorld
    (patchedInstance (Action.id action) tabId
       (InstancePatch.mk None None (Some nextExecution)) (storedActions w))
    (storedSettings w) (storedLogs w)
    (<[timerKey := TimerInfo.mk timerId nextExecution intervalMs (Action.id action) tabId]>
       (activeTimers w))
    (errorRecoveryAttempts w)
    (isInitialized w)
    (<[timerId := (Action.id action, tabId)]>
       (clearedPending timerKey (activeTimers w) (pendingTimeouts w)))
    (timerId + 1)
    (badge w) (shown w) (clock w) (openTabs w) (remainingRandom action w).

(** The world after a [scheduleActionOnTab] that threw on its interval. *)
Definition unscheduled (action : Action.t) (w : World) : World :=
  setRandomSource (remainingRandom action w) w.

(** The logs after [addLog]. *)
Definition addedLog (entry : LogEntry.t) (settings : Settings.t) (logs : list LogEntry.t)
    : list LogEntry.t :=
  if (Settings.maxLogs settings <? length (entry :: logs))%nat
  then firstn (Settings.maxLogs settings) (entry :: logs)
  else entry :: logs.

(** The cycle of [(actionId, tabId)] gets as far as the dispatch in [w]. *)
Definition dispatchReady (actionId : string) (tabId : Z) (w : World)
    (action : Action.t) (instance : Instance.t) (tab : Tab.t) : Prop :=
  findAction actionId (validActions (storedActions w)) = Some action
  /\ lookupInstance action tabId = Some instance
  /\ Instance.enabled instance = true
  /\ Settings.globalEnabled (storedSettings w) = true
  /\ openTabs w !! tabId = Some tab
  /\ nonEmpty (Action.urlFilter action)
     && negb (matchesUrlFilter (default "" (Tab.url tab))
                (default "" (Action.urlFilter action))) = false.

(** The patch the cycle stores after a success. *)
Definition successPatch (instance : Instance.t) (now : Z) : InstancePatch.t :=
  InstancePatch.mk (Some (Instance.executionCount instance + 1)) (Some now) None.

(** The world after [updateActionInstance]. *)
Definition patched (actionId : string) (tabId : Z) (updates : InstancePatch.t) (w : World)
    : World :=
  setStoredActions (patchedInstance actionId tabId updates (storedActions w)) w.

(** ** Example worlds *)

Definition defaultSettings : Settings.t := Settings.mk true true 100.

Definition instanceAt (startedAt : Z) (count : Z) : Instance.t :=
  Instance.mk true count startedAt "Tab" None None.

Definition withInstance (tabId : Z) (i : Instance.t) (a : Action.t) : Action.t :=
  setInstances (Some (<[tabId := i]> (default ∅ (Action.instances a)))) a.

Definition emptyWorld : World :=
  mkWorld [] defaultSettings [] ∅ ∅ false ∅ 1 0 [] 1000000 ∅ [].

Definition setOpenTabs (v : gmap Z Tab.t) (w : World) : World :=
  mkWorld (storedActions w) (storedSettings w) (storedLogs w) (activeTimers w)
    (errorRecoveryAttempts w) (isInitialized w) (pendingTimeouts w)
    (nextTimerId w) (badge w) (shown w) (clock w) v (randomSource w).

Definition webTab (tabId : Z) : Tab.t :=
  Tab.mk tabId (Some "https://example.com/") (Some "Example").

(** One action ["a1"], every 5 seconds, with a fresh instance on tab 42
    that shows a web page. *)
Definition oneActionWorld : World :=
  setOpenTabs {[ 42 := webTab 42 ]}
    (setStoredActions [withInstance 42 (instanceAt 1000000 0) (plainAction "a1")] emptyWorld).

Definition run {A : Type} (m : M A) (w : World) : World := snd (m w).

(** [actions.find(a => a.id === actionId)?.instances?.[tabId]] on what
    [getActions] returns. *)
Definition storedInstance (actionId : string) (tabId : Z) (w : World) : option Instance.t :=
  match findAction actionId (validActions (storedActions w)) with
  | Some action => lookupInstance action tabId
  | None => None
  end.

(** ** Timer registry invariants *)

(** Every pending timer is the one the registry holds for its key. *)
Definition callbacksRegistered (w : World) : Prop :=
  map_Forall
    (fun timerId callback =>
       TimerInfo.timerId <$> (activeTimers w !! timerKey (fst callback) (snd callback))
       = Some timerId)
    (pendingTimeouts w).

(** Timer ids are positive and below the next id to be allocated. *)
Definition timerIdsAllocated (w : World) : Prop :=
  0 < nextTimerId w
  /\ map_Forall (fun timerId _ => 0 < timerId < nextTimerId w) (pendingTimeouts w)
  /\ map_Forall (fun _ timerInfo => 0 < TimerInfo.timerId timerInfo < nextTimerId w)
       (activeTimers w).

(** [oneActionWorld] with the timer of [(a1, 42)] armed. *)
Definition armedWorld : World :=
  run (scheduleActionOnTab (plainAction "a1") 42) oneActionWorld.

Definition armedEntry : TimerInfo.t := TimerInfo.mk 1 1005000 5000 "a1" 42.

(** Decide a closed proposition by evaluation. *)
Ltac decide_closed :=
  match goal with
  | |- ?P =>
      let d := constr:(_ : Decision P) in
      apply (@bool_decide_unpack P d); vm_compute; exact I
  end.

(** The instance of [(actionId, tabId)] was stopped between [w] and [w']
    with the completion [notice], and no timer was armed. *)
Definition completedWith (notice : Notification.t) (actionId : string) (tabId : Z)
    (w w' : World) : Prop :=
  storedInstance actionId tabId w' = None
  /\ shown w' = notice :: shown w
  /\ activeTimers w' !! timerKey actionId tabId = None
  /\ nextTimerId w' = nextTimerId w
  /\ pendingTimeouts w'
     = clearedPending (timerKey actionId tabId) (activeTimers w) (pendingTimeouts w).

(** A fresh timer was armed for [(actionId, tabId)] between [w] and [w'],
    and the instance is still enabled with [newCount] executions. *)
Definition rearmed (actionId : string) (tabId : Z) (newCount : Z) (w w' : World) : Prop :=
  (exists entry,
     activeTimers w' !! timerKey actionId tabId = Some entry
     /\ TimerInfo.timerId entry = nextTimerId w
     /\ pendingTimeouts w' !! nextTimerId w = Some (actionId, tabId))
  /\ exists i,
       storedInstance actionId tabId w' = Some i
       /\ Instance.enabled i = true
       /\ Instance.executionCount i = newCount.

(** ** Armed timers and enabled instances *)

Definition setClock (v : Z) (w : World) : World :=
  mkWorld (storedActions w) (storedSettings w) (storedLogs w) (activeTimers w)
    (errorRecoveryAttempts w) (isInitialized w) (pendingTimeouts w)
    (nextTimerId w) (badge w) (shown w) v (openTabs w) (randomSource w).

(** The keys with an entry in the timer registry. *)
Definition armedKeys (w : World) : gset string := dom (activeTimers w).

(** The tabs on which [action] has an instance with [enabled = true]. *)
Definition enabledTabs (action : Action.t) : list Z :=
  match Action.instances action with
  | Some instances =>
      fst <$> List.filter (fun entry => Instance.enabled (snd entry)) (map_to_list instances)
  | None => []
  end.

(** The keys of the enabled instances of the actions [getActions] returns. *)
Definition enabledKeys (w : World) : gset string :=
  list_to_set
    (flat_map (fun a => timerKey (Action.id a) <$> enabledTabs a)
       (validActions (storedActions w))).

(** [timerKey] names an enabled instance of a stored, valid action. *)
Definition enabledIn (stored : list Action.t) (timerKey' : string) : Prop :=
  exists action tabId instance,
    In action (validActions stored)
    /\ lookupInstance action tabId = Some instance
    /\ Instance.enabled instance = true
    /\ timerKey' = timerKey (Action.id action) tabId.

(** Every registry entry belongs to an enabled instance. *)
Definition armedAreEnabled (w : World) : Prop :=
  forall timerKey timerInfo,
    activeTimers w !! timerKey = Some timerInfo -> enabledIn (storedActions w) timerKey.

(** The invariant together with the fact that [timerKey'] names an
    enabled instance. *)
Definition readyFor (timerKey' : string) (w : World) : Prop :=
  armedAreEnabled w /\ enabledIn (storedActions w) timerKey'.

(** The invariant, with every key of [S] still naming an enabled instance. *)
Definition keeping (S : string -> Prop) (w : World) : Prop :=
  armedAreEnabled w /\ forall k : string, S k -> enabledIn (storedActions w) k.

(** One operation of the orchestrator run to completion on its own, a
    timer firing, or the environment moving on (clock, tabs, random
    source). The popup's own storage writes (import, loading a profile),
    an operation that overlaps another one, and the two operations that
    start several [stopActionOnTab] promises at once
    ([stopActionOnAllTabs], the [tabs.onRemoved] listener) are not
    steps. *)
Inductive step : World -> World -> Prop :=
| step_initializeTimers w :
    step w (run initializeTimers w)
| step_refreshTimers w :
    step w (run refreshTimers w)
| step_startActionOnTab w actionId tabId tabTitle :
    step w (run (startActionOnTab actionId tabId tabTitle) w)
| step_stopActionOnTab w actionId tabId :
    step w (run (stopActionOnTab actionId tabId) w)
| step_toggleGlobal w :
    step w (run toggleGlobal w)
| step_fireTimer w injection timerId :
    step w (run (fireTimer injection timerId) w)
| step_environment w now tabs randoms :
    step w (setRandomSource randoms (setOpenTabs tabs (setClock now w))).

(** The worlds these steps lead to from a start with an empty timer
    registry. *)
Inductive reachable : World -> Prop :=
| reachable_start w : activeTimers w = ∅ -> reachable w
| reachable_step w w' : reachable w -> step w w' -> reachable w'.

(** Hoare triples over [M]: the postcondition sees the outcome. *)
Definition hoare {A : Type} (P : World -> Prop) (m : M A) (Q : Res A -> World -> Prop)
    : Prop :=
  forall w, P w -> Q (fst (m w)) (snd (m w)).

(** One action ["a1"] without instances, tab 42 open. *)
Definition idleWorld : World :=
  setOpenTabs {[ 42 := webTab 42 ]} (setStoredActions [plainAction "a1"] emptyWorld).

(** Started on tab 42, then paused with the global toggle. *)
Definition pausedWorld : World :=
  run toggleGlobal (run (startActionOnTab "a1" 42 None) idleWorld).

(** Tab 42 shows a browser-internal page. *)
Definition restrictedWorld : World :=
  setOpenTabs {[ 42 := Tab.mk 42 (Some "chrome://settings/") (Some "Settings") ]} armedWorld.

Definition onceAction : Action.t :=
  Action.mk "a1" "Press A" "key" (Some "A") 5 Seconds false 0 0 None (Some 1) None None.

(** The same, for an action that is to run once. *)
Definition restrictedOnceWorld : World :=
  setOpenTabs {[ 42 := Tab.mk 42 (Some "chrome://settings/") (Some "Settings") ]}
    (setStoredActions [withInstance 42 (instanceAt 1000000 0) onceAction] emptyWorld).

(** An action whose randomized delay is drawn from 50..150 ms. *)
Definition jitterAction : Action.t :=
  Action.mk "a1" "Press A" "key" (Some "A") 100 Milliseconds true 50 150 None None None None.

(** Its timer on tab 42 was armed with a delay of 100 ms; the next two
    values of [Math.random()] are 0.01. *)
Definition jitterWorld : World :=
  setRandomSource [(1 # 100)%Q; (1 # 100)%Q]
    (run (scheduleActionOnTab jitterAction 42)
       (setRandomSource [(1 # 2)%Q]
          (setOpenTabs {[ 42 := webTab 42 ]}
             (setStoredActions [withInstance 42 (instanceAt 1000000 0) jitterAction]
                emptyWorld)))).

(** [armedWorld] after settings with [globalEnabled = false] were stored. *)
Definition pausedArmedWorld : World :=
  setStoredSettings (Settings.mk false true 100) armedWorld.

(** [armedWorld] after the popup imported a file that holds the action
    without instances and [globalEnabled = false]: [importData] writes
    the actions and settings of the file to [chrome.storage.local] from
    outside the service worker. *)
Definition importedWorld : World :=
  setStoredSettings (Settings.mk false true 100)
    (setStoredActions [plainAction "a1"] armedWorld).

(** An action that holds the maximum of five instances, the one on tab 3
    having run seven times. *)
Definition fullAction : Action.t :=
  withInstance 1 (instanceAt 1000 2)
    (withInstance 2 (instanceAt 1000 2)
       (withInstance 3 (instanceAt 1000 7)
          (withInstance 4 (instanceAt 1000 2)
             (withInstance 5 (instanceAt 1000 2) (plainAction "a1"))))).

Definition fullWorld : World := setStoredActions [fullAction] emptyWorld.

(** [armedWorld] after two firings whose injection failed. *)
Definition twiceFailedWorld : World :=
  run (fireTimer (Some "boom") 2) (run (fireTimer (Some "boom") 1) armedWorld).

(** What [getActions] and the cycle find for [(a1, 42)] in a world. *)
Definition actionIn (w : World) : Action.t :=
  default (plainAction "a1") (findAction "a1" (validActions (storedActions w))).

Definition instanceIn (w : World) : Instance.t :=
  default (instanceAt 0 0) (storedInstance "a1" 42 w).

(** Split a conjunction of closed equations and evaluate each. *)
Ltac conj_compute :=
  unfold dispatchReady;
  repeat match goal with |- _ /\ _ => split end;
  vm_compute; reflexivity.

(** ** storage.js: actions *)

(** The message of the [StorageError] that [executeWithRetry] throws once
    its attempts are used up. *)
Definition retryError (operationId : string) : string :=
  "Operation " +:+ operationId +:+ " failed after "
  +:+ pretty MAX_RETRY_ATTEMPTS +:+ " attempts".

(** [actions.some(a => a.id === id)]. *)
Definition hasId (actionId : string) (actions : list Action.t) : bool :=
  existsb (fun a => String.eqb (Action.id a) actionId) actions.

Definition addAction (action : Action.t) : M (list Action.t) :=
  match validateAction action with
  | Some e => throw e
  | None =>
      executeWithRetry "addAction" (
        actions <- getActions ;;
        if hasId (Action.id action) actions
        then throw ("Action with id " +:+ Action.id action +:+ " already exists")
        else
          let actions := (actions ++ [action])%list in
          saveActions actions ;;
          ret actions)
  end.

Definition deleteAction (actionId : string) : M (list Action.t) :=
  if String.eqb actionId "" then throw "actionId must be a non-empty string"
  else
    executeWithRetry "deleteAction" (
      actions <- getActions ;;
      let filtered :=
        List.filter (fun a => negb (String.eqb (Action.id a) actionId)) actions in
      saveActions filtered ;;
      ret filtered).

(** No two of the actions share an id. *)
Definition uniqueIds (actions : list Action.t) : Prop :=
  NoDup (Action.id <$> actions).

(** [maxLogs] is within the bounds [validateSettings] enforces. *)
Definition maxLogsInRange (settings : Settings.t) : Prop :=
  10 <= Z.of_nat (Settings.maxLogs settings) <= 10000.

(** An action that only runs on GitHub, armed on tab 42, which shows
    another site. *)
Definition filteredAction : Action.t :=
  Action.mk "a1" "Press A" "key" (Some "A") 5 Seconds false 0 0
    (Some "github.com, *.gitlab.com") None None None.

Definition filteredWorld : World :=
  run (scheduleActionOnTab filteredAction 42)
    (setOpenTabs {[ 42 := webTab 42 ]}
       (setStoredActions [withInstance 42 (instanceAt 1000000 3) filteredAction] emptyWorld)).

(** The pending timers after [clearAllTimers] walked through the registry. *)
Definition clearedAll (timers : gmap string TimerInfo.t) (pending : gmap Z (string * Z))
    : gmap Z (string * Z) :=
  map_fold
    (fun _ timerInfo pending =>
       if truthy (TimerInfo.timerId timerInfo)
       then delete (TimerInfo.timerId timerInfo) pending
       else pending)
    pending timers.

(** The enabled instances [initializeTimers] walks through, in its order. *)
Definition enabledPairs (actions : list Action.t) : list (Action.t * Z) :=
  flat_map (fun a => (fun tabId => (a, tabId)) <$> enabledTabs a) actions.

(** The world after the timers of [pairs] were armed one after the other. *)
Definition armedAll (pairs : list (Action.t * Z)) (w : World) : World :=
  fold_left (fun w p => scheduled (fst p) (snd p) w) pairs w.

(** Every registry entry has its timer pending, under its own key. *)
Definition timersPending (w : World) : Prop :=
  0 < nextTimerId w
  /\ forall k ti,
       activeTimers w !! k = Some ti ->
       0 < TimerInfo.timerId ti < nextTimerId w
       /\ k = timerKey (TimerInfo.actionId ti) (TimerInfo.tabId ti)
       /\ pendingTimeouts w !! TimerInfo.timerId ti
          = Some (TimerInfo.actionId ti, TimerInfo.tabId ti).

Definition pausedInstance : Instance.t := Instance.mk false 0 1000000 "Tab" None None.

(** Two actions before the first initialization: ["a1"] enabled on tab 42
    and paused on tab 43, ["a2"] enabled on tab 7. *)
Definition mixedWorld : World :=
  setStoredActions
    [withInstance 43 pausedInstance
       (withInstance 42 (instanceAt 1000000 0) (plainAction "a1"));
     withInstance 7 (instanceAt 1000000 0) (plainAction "a2")]
    emptyWorld.

(** * Theorems *)

Section IntervalCalculator.

Lemma pow2_le_binade (x : Q) : (0 < x)%Q -> pow2_le (binade x) (Qnum x) (Zpos (Qden x)) = true.
Proof.
  intros Hx. unfold binade.
  destruct (pow2_le (Z.log2 (Qnum x) - Z.log2 (Zpos (Qden x))) (Qnum x) (Zpos (Qden x)))
    eqn:E; [exact E |].
  assert (Hp : 0 < Qnum x) by (unfold Qlt in Hx; simpl in Hx; lia).
  destruct (Z.log2_spec (Qnum x) Hp) as [Hp1 Hp2].
  destruct (Z.log2_spec (Zpos (Qden x)) eq_refl) as [Hq1 Hq2].
  pose proof (Z.log2_nonneg (Qnum x)) as Hlp.
  pose proof (Z.log2_nonneg (Zpos (Qden x))) as Hlq.
  set (lp := Z.log2 (Qnum x)) in *. set (lq := Z.log2 (Zpos (Qden x))) in *.
  unfold pow2_le. destruct (Z.leb_spec 0 (lp - lq - 1)) as [Hd | Hd].
  - apply Z.leb_le.
    assert (H2 : 2 ^ lp = 2 ^ (lp - lq - 1) * 2 ^ (lq + 1)).
    { rewrite <- Z.pow_add_r by lia. f_equal. lia. }
    assert (0 < 2 ^ (lp - lq - 1)) by (apply Z.pow_pos_nonneg; lia).
    nia.
  - apply Z.leb_le.
    assert (H2 : 2 ^ (lq + 1) = 2 ^ lp * 2 ^ (- (lp - lq - 1))).
    { rewrite <- Z.pow_add_r by lia. f_equal. lia. }
    assert (0 < 2 ^ (- (lp - lq - 1))) by (apply Z.pow_pos_nonneg; lia).
    nia.
Qed.

Lemma binade_small (x : Q) (n : Z) :
  (0 < x)%Q -> 0 <= n -> (x < inject_Z (2 ^ n))%Q -> binade x < n.
Proof.
  intros Hx Hn Hlt. pose proof (pow2_le_binade x Hx) as H.
  destruct (Z.lt_ge_cases (binade x) n) as [Hb | Hb]; [exact Hb | exfalso].
  unfold pow2_le in H. destruct (Z.leb_spec 0 (binade x)); [| lia].
  apply Z.leb_le in H. unfold Qlt in Hlt. simpl in Hlt.
  assert (2 ^ n <= 2 ^ binade x) by (apply Z.pow_le_mono_r; lia).
  assert (0 < 2 ^ n) by (apply Z.pow_pos_nonneg; lia).
  nia.
Qed.

Lemma roundHalfEven_le (x : Q) (n : Z) : (x <= inject_Z n)%Q -> roundHalfEven x <= n.
Proof.
  intros Hx. unfold roundHalfEven.
  pose proof (Qfloor_le x) as Hf.
  assert (Hfn : Qfloor x <= n).
  { rewrite <- (Qfloor_Z n). apply Qfloor_resp_le, Hx. }
  destruct (Z.eq_dec (Qfloor x) n) as [Heq | Hne].
  - assert (Hz : (x - inject_Z (Qfloor x) == 0)%Q).
    { rewrite Heq in *. apply Qle_antisym.
      - apply (Qplus_le_l _ _ (inject_Z n)). ring_simplify. exact Hx.
      - apply (Qplus_le_l _ _ (inject_Z n)). ring_simplify. exact Hf. }
    assert (Hc : (x - inject_Z (Qfloor x) ?= 1 # 2)%Q = Lt).
    { rewrite Hz. reflexivity. }
    rewrite Hc. lia.
  - destruct (x - inject_Z (Qfloor x) ?= 1 # 2)%Q; [destruct (Z.even _) | |]; lia.
Qed.

Lemma roundHalfEven_ge (x : Q) (n : Z) : (inject_Z n <= x)%Q -> n <= roundHalfEven x.
Proof.
  intros Hx. unfold roundHalfEven.
  assert (Hfn : n <= Qfloor x).
  { rewrite <- (Qfloor_Z n). apply Qfloor_resp_le, Hx. }
  destruct (x - inject_Z (Qfloor x) ?= 1 # 2)%Q; [destruct (Z.even _) | |]; lia.
Qed.


Lemma Qabs_pos_nonzero (x : Q) : ~ (x == 0)%Q -> (0 < Qabs x)%Q.
Proof.
  intros Hx. destruct (Qlt_le_dec 0 (Qabs x)) as [H | H]; [exact H | exfalso].
  apply Hx. apply Qabs_Qle_condition in H. destruct H as [H1 H2].
  apply Qle_antisym; assumption.
Qed.

(** Below [2^53] in magnitude, rounding to a double does not cross an
    integer. *)
Lemma roundDouble_between (x : Q) (lo hi : Z) :
  (Qabs x < inject_Z (2 ^ 53))%Q ->
  (inject_Z lo <= x)%Q -> (x <= inject_Z hi)%Q ->
  (inject_Z lo <= roundDouble x)%Q /\ (roundDouble x <= inject_Z hi)%Q.
Proof.
  intros Habs Hlo Hhi. unfold roundDouble.
  destruct (Qeq_bool x 0) eqn:E0.
  { apply Qeq_bool_iff in E0. rewrite E0 in Hlo, Hhi. split; assumption. }
  apply Qeq_bool_neq in E0.
  pose proof (binade_small (Qabs x) 53 (Qabs_pos_nonzero x E0) ltac:(lia) Habs) as Hb.
  set (e := Z.max (binade (Qabs x)) (-1022)).
  assert (He : e <= 52) by (unfold e; lia).
  clearbody e. clear Hb.
  assert (Hs : 0 < 2 ^ (52 - e)) by (apply Z.pow_pos_nonneg; lia).
  assert (Hin : scale2 x (52 - e) = (x * inject_Z (2 ^ (52 - e)))%Q).
  { unfold scale2. destruct (Z.leb_spec 0 (52 - e)); [reflexivity | lia]. }
  rewrite Hin.
  set (s := 2 ^ (52 - e)) in *.
  assert (HsQ : (0 < inject_Z s)%Q) by (unfold Qlt; simpl; lia).
  assert (Hm1 : lo * s <= roundHalfEven (x * inject_Z s)).
  { apply roundHalfEven_ge. rewrite inject_Z_mult.
    apply Qmult_le_compat_r; [exact Hlo | apply Qlt_le_weak, HsQ]. }
  assert (Hm2 : roundHalfEven (x * inject_Z s) <= hi * s).
  { apply roundHalfEven_le. rewrite inject_Z_mult.
    apply Qmult_le_compat_r; [exact Hhi | apply Qlt_le_weak, HsQ]. }
  set (m := roundHalfEven (x * inject_Z s)) in *. clearbody m.
  unfold scale2. destruct (Z.leb_spec 0 (e - 52)) as [Hk | Hk].
  - assert (e = 52) by lia. subst e. unfold s in *. simpl in *.
    split; unfold Qle; simpl; lia.
  - replace (- (e - 52)) with (52 - e) by lia. fold s.
    split.
    + apply Qle_shift_div_l; [exact HsQ |]. rewrite <- inject_Z_mult.
      rewrite <- Zle_Qle. exact Hm1.
    + apply Qle_shift_div_r; [exact HsQ |]. rewrite <- inject_Z_mult.
      rewrite <- Zle_Qle. exact Hm2.
Qed.

Lemma double_sample_range (r : Q) (n lo : Z) :
  unitSample r -> 0 < n -> 0 <= lo -> lo + n < 2 ^ 53 ->
  lo <= Qfloor (roundDouble (roundDouble (r * inject_Z n) + inject_Z lo)) <= lo + n.
Proof.
  intros [H0 H1] Hn Hlo Hhi.
  assert (HnQ : (0 < inject_Z n)%Q)
    by (change 0%Q with (inject_Z 0); rewrite <- Zlt_Qlt; lia).
  assert (Hp0 : (inject_Z 0 <= r * inject_Z n)%Q).
  { apply Qmult_le_0_compat; [exact H0 | apply Qlt_le_weak, HnQ]. }
  assert (Hp1 : (r * inject_Z n <= inject_Z n)%Q).
  { rewrite <- (Qmult_1_l (inject_Z n)) at 2.
    apply Qmult_le_compat_r; [apply Qlt_le_weak, H1 | apply Qlt_le_weak, HnQ]. }
  assert (Hpa : (Qabs (r * inject_Z n) < inject_Z (2 ^ 53))%Q).
  { rewrite Qabs_pos by exact Hp0. eapply Qle_lt_trans; [exact Hp1 |].
    rewrite <- Zlt_Qlt. lia. }
  destruct (roundDouble_between _ 0 n Hpa Hp0 Hp1) as [Hr0 Hr1].
  set (p := roundDouble (r * inject_Z n)) in *. clearbody p.
  assert (Hs0 : (inject_Z lo <= p + inject_Z lo)%Q).
  { rewrite <- (Qplus_0_l (inject_Z lo)) at 1.
    apply Qplus_le_compat; [exact Hr0 | apply Qle_refl]. }
  assert (Hs1 : (p + inject_Z lo <= inject_Z (lo + n))%Q).
  { rewrite inject_Z_plus, (Qplus_comm (inject_Z lo) (inject_Z n)).
    apply Qplus_le_compat; [exact Hr1 | apply Qle_refl]. }
  assert (Hsa : (Qabs (p + inject_Z lo) < inject_Z (2 ^ 53))%Q).
  { rewrite Qabs_pos.
    - eapply Qle_lt_trans; [exact Hs1 |]. rewrite <- Zlt_Qlt. exact Hhi.
    - eapply Qle_trans; [| exact Hs0].
      change 0%Q with (inject_Z 0). rewrite <- Zle_Qle. exact Hlo. }
  destruct (roundDouble_between _ lo (lo + n) Hsa Hs0 Hs1) as [Hd0 Hd1].
  split.
  - apply Qfloor_resp_le in Hd0. rewrite Qfloor_Z in Hd0. exact Hd0.
  - apply Qfloor_resp_le in Hd1. rewrite Qfloor_Z in Hd1. exact Hd1.
Qed.

Lemma clampedBase_bounds (action : Action.t) :
  MIN_INTERVAL_MS <= clampedBase action <= MAX_INTERVAL_MS.
Proof. unfold clampedBase, MIN_INTERVAL_MS, MAX_INTERVAL_MS. lia. Qed.

(** C1 (amended): for every action and every value of [Math.random()] in
    [[0, 1)], [calculateInterval] returns the base interval clamped to
    [[100, 86 400 000]] ms unless the randomized branch returns, which it
    does when [randomize] is set, one of [randomizeMin] / [randomizeMax]
    is non-zero and the converted maximum is positive. The result of that
    branch is not clamped: for a converted minimum [lo >= 0] and a
    converted maximum [hi] with [hi + 1 < 2^53] it is an integer between
    [lo] and [hi + 1], the last one being returned when the sum rounds up
    to the next double. *)
Theorem calculateInterval_range (random : Q) (action : Action.t) :
  unitSample random ->
  match randomRange action with
  | Some (lo, hi) =>
      0 <= lo -> hi + 1 < 2 ^ 53 ->
      lo <= calculateInterval random action <= hi + 1
  | None =>
      calculateInterval random action = clampedBase action
      /\ MIN_INTERVAL_MS <= calculateInterval random action <= MAX_INTERVAL_MS
  end.
Proof.
  intros Hr. unfold randomRange, calculateInterval.
  fold (clampedBase action).
  destruct (Action.randomize action
            && (truthy (Action.randomizeMin action) || truthy (Action.randomizeMax action)));
    [| split; [reflexivity | apply clampedBase_bounds]].
  set (lo := Action.randomizeMin action).
  set (hi := Action.randomizeMax action).
  assert (Hmax : (if hi <? lo then lo else hi) = Z.max lo hi).
  { destruct (Z.ltb_spec hi lo); lia. }
  rewrite Hmax.
  destruct (Z.ltb_spec 0 (toMs (Action.timeUnit action) (Z.max lo hi))) as [Hpos | Hpos];
    [| split; [reflexivity | apply clampedBase_bounds]].
  intros Hlo Hhi.
  assert (Hn : 0 < toMs (Action.timeUnit action) (Z.max lo hi)
                   - toMs (Action.timeUnit action) lo + 1).
  { unfold toMs. destruct (Action.timeUnit action); lia. }
  pose proof (double_sample_range random _ (toMs (Action.timeUnit action) lo) Hr Hn Hlo)
    as H.
  replace (toMs (Action.timeUnit action) lo
           + (toMs (Action.timeUnit action) (Z.max lo hi)
              - toMs (Action.timeUnit action) lo + 1))
    with (toMs (Action.timeUnit action) (Z.max lo hi) + 1) in H by lia.
  exact (H Hhi).
Qed.

(** C1, witness: an action randomized between 1 s and 1 s, and the
    largest sample below 1: the sum [0.999... + 1000] rounds to the double
    [1001]. *)
Lemma calculateInterval_range_witness :
  unitSample lastSample
  /\ randomRange (tinyRandomAction "a1") = Some (1000, 1000)
  /\ 1000 <= calculateInterval lastSample (tinyRandomAction "a1") <= 1000 + 1
  /\ calculateInterval lastSample (tinyRandomAction "a1") = 1001.
Proof.
  assert (H : unitSample lastSample) by (split; vm_compute; congruence).
  assert (H1 : 0 <= 1000) by lia.
  assert (H2 : 1000 + 1 < 2 ^ 53) by (vm_compute; reflexivity).
  split; [exact H |]. split; [reflexivity |].
  split; [| vm_compute; reflexivity].
  exact ((calculateInterval_range lastSample (tinyRandomAction "a1") H
          : 0 <= 1000 -> 1000 + 1 < 2 ^ 53 ->
            1000 <= calculateInterval lastSample (tinyRandomAction "a1") <= 1000 + 1)
           H1 H2).
Defined.

(** C1, counterexample: with [randomize] set and both bounds 1 ms the
    result is 1, below the floor; with both bounds 100 hours it is
    360 000 000, above the ceiling. *)
Lemma calculateInterval_unclamped :
  unitSample (1 # 2)
  /\ calculateInterval (1 # 2) tinyRandomMs = 1
  /\ calculateInterval (1 # 2) hugeRandomHours = 360000000
  /\ ~ (MIN_INTERVAL_MS <= calculateInterval (1 # 2) tinyRandomMs <= MAX_INTERVAL_MS)
  /\ ~ (MIN_INTERVAL_MS <= calculateInterval (1 # 2) hugeRandomHours <= MAX_INTERVAL_MS).
Proof.
  split; [split; unfold Qle, Qlt; simpl; lia |].
  split; [vm_compute; reflexivity |]. split; [vm_compute; reflexivity |].
  split; vm_compute; intros [H1 H2]; [apply H1 | apply H2]; reflexivity.
Qed.

End IntervalCalculator.


Section MonadLemmas.
Context {A B : Type}.

Lemma bind_ok (m : M A) (k : A -> M B) w a w' :
  m w = (Ok a, w') -> bind m k w = k a w'.
Proof. intros H. unfold bind. rewrite H. reflexivity. Qed.

Lemma bind_throw (m : M A) (k : A -> M B) w e w' :
  m w = (Throw e, w') -> bind m k w = (Throw e, w').
Proof. intros H. unfold bind. rewrite H. reflexivity. Qed.

Lemma retry_ok (operationId : string) (operation : M A) w a w' :
  operation w = (Ok a, w') -> executeWithRetry operationId operation w = (Ok a, w').
Proof.
  intros H. unfold executeWithRetry, MAX_RETRY_ATTEMPTS. simpl.
  unfold tryCatch. rewrite H. reflexivity.
Qed.

Lemma retry_throw (operationId : string) (operation : M A) w e :
  operation w = (Throw e, w) ->
  exists e', executeWithRetry operationId operation w = (Throw e', w).
Proof.
  intros H. unfold executeWithRetry, MAX_RETRY_ATTEMPTS. simpl.
  unfold tryCatch, throw. rewrite !H. eexists. reflexivity.
Qed.

End MonadLemmas.

Section Validity.

Lemma isValid_setInstances (a : Action.t) (m : gmap Z Instance.t) :
  isValid a = true -> (size m <= MAX_INSTANCES_PER_ACTION)%nat ->
  isValid (setInstances (Some m) a) = true.
Proof.
  unfold isValid, validateAction. simpl. intros H Hm.
  destruct (String.eqb (Action.id a) ""); [discriminate |].
  destruct (String.eqb (Action.name a) ""); [discriminate |].
  destruct (negb _); [discriminate |].
  destruct (Action.interval a <? 1); [discriminate |].
  destruct (Nat.ltb_spec MAX_INSTANCES_PER_ACTION (size m)); [lia | reflexivity].
Qed.

Lemma isValid_instances_size (a : Action.t) (m : gmap Z Instance.t) :
  isValid a = true -> Action.instances a = Some m ->
  (size m <= MAX_INSTANCES_PER_ACTION)%nat.
Proof.
  unfold isValid, validateAction. intros H Hm. rewrite Hm in H.
  destruct (String.eqb (Action.id a) ""); [discriminate |].
  destruct (String.eqb (Action.name a) ""); [discriminate |].
  destruct (negb _); [discriminate |].
  destruct (Action.interval a <? 1); [discriminate |].
  destruct (Nat.ltb_spec MAX_INSTANCES_PER_ACTION (size m)); [discriminate | lia].
Qed.

Lemma isValid_id (a : Action.t) : isValid a = true -> Action.id a <> "".
Proof.
  unfold isValid, validateAction. intros H Hid. rewrite Hid in H. discriminate.
Qed.

Lemma firstInvalid_valid (l : list Action.t) :
  Forall (fun a => isValid a = true) l -> firstInvalid l = None.
Proof.
  induction 1 as [| a l Ha _ IH]; [reflexivity |].
  simpl. unfold isValid in Ha. destruct (validateAction a); [discriminate | exact IH].
Qed.

Lemma filter_isValid_Forall (l : list Action.t) :
  Forall (fun a => isValid a = true) (List.filter isValid l).
Proof.
  apply List.Forall_forall. intros a Ha. apply List.filter_In in Ha. tauto.
Qed.

Lemma filter_isValid_id (l : list Action.t) :
  Forall (fun a => isValid a = true) l -> List.filter isValid l = l.
Proof.
  induction 1 as [| a l Ha _ IH]; [reflexivity |].
  simpl. rewrite Ha, IH. reflexivity.
Qed.

Lemma updateFound_Forall (P : Action.t -> Prop) actionId f (l : list Action.t) :
  Forall P l ->
  (forall a, findAction actionId l = Some a -> P (f a)) ->
  Forall P (updateFound actionId f l).
Proof.
  unfold findAction. induction 1 as [| a l Ha Hl IH]; intros Hf; simpl; [constructor |].
  simpl in Hf. destruct (String.eqb (Action.id a) actionId).
  - constructor; [apply Hf; reflexivity | exact Hl].
  - constructor; [exact Ha | apply IH, Hf].
Qed.

Lemma findAction_Some actionId (l : list Action.t) a :
  findAction actionId l = Some a -> In a l /\ Action.id a = actionId.
Proof.
  unfold findAction. intros H. apply List.find_some in H.
  destruct H as [Hin Heq]. apply String.eqb_eq in Heq. auto.
Qed.

Lemma findAction_updateFound_same actionId f (l : list Action.t) :
  (forall a, Action.id (f a) = Action.id a) ->
  findAction actionId (updateFound actionId f l) = f <$> findAction actionId l.
Proof.
  intros Hid. unfold findAction. induction l as [| a l IH]; [reflexivity |].
  simpl. destruct (String.eqb (Action.id a) actionId) eqn:E; simpl.
  - rewrite Hid, E. reflexivity.
  - rewrite E. exact IH.
Qed.

Lemma findAction_updateFound_other actionId actionId' f (l : list Action.t) :
  (forall a, Action.id (f a) = Action.id a) -> actionId' <> actionId ->
  findAction actionId' (updateFound actionId f l) = findAction actionId' l.
Proof.
  intros Hid Hne. unfold findAction. induction l as [| a l IH]; [reflexivity |].
  simpl. destruct (String.eqb (Action.id a) actionId) eqn:E; simpl.
  - rewrite Hid. apply String.eqb_eq in E.
    destruct (String.eqb (Action.id a) actionId') eqn:E'; [| reflexivity].
    apply String.eqb_eq in E'. congruence.
  - destruct (String.eqb (Action.id a) actionId'); [reflexivity | exact IH].
Qed.

End Validity.

Section Storage.

Lemma getActions_eq w : getActions w = (Ok (validActions (storedActions w)), w).
Proof. reflexivity. Qed.

Lemma getSettings_eq w : getSettings w = (Ok (storedSettings w), w).
Proof. reflexivity. Qed.

Lemma getLogs_eq w : getLogs w = (Ok (storedLogs w), w).
Proof. reflexivity. Qed.

Lemma saveActions_eq (l : list Action.t) w :
  Forall (fun a => isValid a = true) l ->
  saveActions l w = (Ok tt, setStoredActions l w).
Proof.
  intros H. unfold saveActions. rewrite (firstInvalid_valid l H). reflexivity.
Qed.

End Storage.

Section StorageClosedForms.

Lemma setStoredActions_same w : setStoredActions (storedActions w) w = w.
Proof. destruct w. reflexivity. Qed.

Lemma validActions_Forall stored : Forall (fun a => isValid a = true) (validActions stored).
Proof. apply filter_isValid_Forall. Qed.

Lemma found_valid actionId stored a :
  findAction actionId (validActions stored) = Some a -> isValid a = true.
Proof.
  intros H. apply findAction_Some in H. destruct H as [Hin _].
  apply List.filter_In in Hin. tauto.
Qed.

Lemma setInstances_id m a : Action.id (setInstances m a) = Action.id a.
Proof. reflexivity. Qed.

Lemma removedInstance_valid actionId tabId stored action instances :
  findAction actionId (validActions stored) = Some action ->
  Action.instances action = Some instances ->
  Forall (fun a => isValid a = true)
    (updateFound actionId (setInstances (Some (delete tabId instances))) (validActions stored)).
Proof.
  intros Hf Hi. apply updateFound_Forall; [apply validActions_Forall |].
  intros a Ha. rewrite Hf in Ha. injection Ha as <-.
  apply isValid_setInstances; [eapply found_valid; eauto |].
  pose proof (isValid_instances_size _ _ (found_valid _ _ _ Hf) Hi).
  rewrite map_size_delete. destruct (instances !! tabId); simpl; unfold id; lia.
Qed.

Lemma removeActionInstance_eq actionId tabId w :
  exists r, removeActionInstance actionId tabId w
            = (Ok r, setStoredActions (removedInstance actionId tabId (storedActions w)) w).
Proof.
  unfold removeActionInstance, removedInstance.
  destruct (findAction actionId (validActions (storedActions w))) as [action |] eqn:Hf.
  - destruct (Action.instances action) as [instances |] eqn:Hi.
    + eexists. apply retry_ok. rewrite (bind_ok _ _ _ _ _ (getActions_eq w)).
      rewrite Hf, Hi.
      rewrite (bind_ok _ _ _ _ _ (saveActions_eq _ w (removedInstance_valid _ tabId _ _ _ Hf Hi))).
      reflexivity.
    + eexists. apply retry_ok. rewrite (bind_ok _ _ _ _ _ (getActions_eq w)).
      rewrite Hf, Hi, setStoredActions_same. reflexivity.
  - eexists. apply retry_ok. rewrite (bind_ok _ _ _ _ _ (getActions_eq w)).
    rewrite Hf, setStoredActions_same. reflexivity.
Qed.

End StorageClosedForms.

Section BackgroundClosedForms.

Lemma bind_ignore {A B : Type} (m : M A) (k : M B) w w' :
  (exists r, m w = (Ok r, w')) -> bind m (fun _ => k) w = k w'.
Proof. intros [r H]. unfold bind. rewrite H. reflexivity. Qed.

Lemma patchedInstance_valid actionId tabId stored action instances i :
  findAction actionId (validActions stored) = Some action ->
  Action.instances action = Some instances ->
  is_Some (instances !! tabId) ->
  Forall (fun a => isValid a = true)
    (updateFound actionId (setInstances (Some (<[tabId := i]> instances))) (validActions stored)).
Proof.
  intros Hf Hi Hsome. apply updateFound_Forall; [apply validActions_Forall |].
  intros a Ha. rewrite Hf in Ha. injection Ha as <-.
  apply isValid_setInstances; [eapply found_valid; eauto |].
  rewrite map_size_insert_Some by exact Hsome.
  exact (isValid_instances_size _ _ (found_valid _ _ _ Hf) Hi).
Qed.

Lemma updateActionInstance_eq actionId tabId updates w :
  exists r, updateActionInstance actionId tabId updates w
            = (Ok r, setStoredActions (patchedInstance actionId tabId updates (storedActions w)) w).
Proof.
  unfold updateActionInstance, patchedInstance.
  destruct (findAction actionId (validActions (storedActions w))) as [action |] eqn:Hf.
  - destruct (Action.instances action) as [instances |] eqn:Hi.
    + destruct (instances !! tabId) as [instance |] eqn:Hl.
      * eexists. apply retry_ok. rewrite (bind_ok _ _ _ _ _ (getActions_eq w)).
        rewrite Hf, Hi, Hl.
        rewrite (bind_ok _ _ _ _ _
                   (saveActions_eq _ w
                      (patchedInstance_valid _ tabId _ _ _ _ Hf Hi (mk_is_Some _ _ Hl)))).
        reflexivity.
      * eexists. apply retry_ok. rewrite (bind_ok _ _ _ _ _ (getActions_eq w)).
        rewrite Hf, Hi, Hl, setStoredActions_same. reflexivity.
    + eexists. apply retry_ok. rewrite (bind_ok _ _ _ _ _ (getActions_eq w)).
      rewrite Hf, Hi, setStoredActions_same. reflexivity.
  - eexists. apply retry_ok. rewrite (bind_ok _ _ _ _ _ (getActions_eq w)).
    rewrite Hf, setStoredActions_same. reflexivity.
Qed.

Lemma refreshBadge_eq w :
  refreshBadge w = (Ok tt, setBadge (badgeCount (storedSettings w) (storedActions w)) w).
Proof.
  unfold refreshBadge, badgeCount, tryCatch.
  rewrite (bind_ok _ _ _ _ _ (getActions_eq w)).
  rewrite (bind_ok _ _ _ _ _ (getSettings_eq w)).
  destruct (negb (Settings.globalEnabled (storedSettings w))); reflexivity.
Qed.

Lemma stopActionOnTab_eq actionId tabId w :
  stopActionOnTab actionId tabId w = (Ok tt, stopped actionId tabId w).
Proof.
  unfold stopActionOnTab.
  match goal with |- bind ?m ?k w = _ =>
    rewrite (bind_ok m k w (activeTimers w !! timerKey actionId tabId) w eq_refl) end.
  set (w1 := setPendingTimeouts
               (clearedPending (timerKey actionId tabId) (activeTimers w) (pendingTimeouts w)) w).
  match goal with |- bind ?m ?k w = _ =>
    assert (H1 : m w = (Ok tt, w1)) end.
  { unfold w1, clearedPending.
    destruct (activeTimers w !! timerKey actionId tabId) as [ti |].
    - destruct (truthy (TimerInfo.timerId ti)); [reflexivity |].
      destruct w; reflexivity.
    - destruct w; reflexivity. }
  rewrite (bind_ok _ _ _ _ _ H1).
  unfold modify at 1 2. unfold bind at 1 2.
  erewrite bind_ignore by apply removeActionInstance_eq.
  rewrite refreshBadge_eq. reflexivity.
Qed.

Lemma addLog_eq logEntry w :
  addLog logEntry w
  = (Ok (addedLog (logEntry (clock w)) (storedSettings w) (storedLogs w)),
     setStoredLogs (addedLog (logEntry (clock w)) (storedSettings w) (storedLogs w)) w).
Proof. reflexivity. Qed.

Lemma calculateInterval_no_draw (random random' : Q) (action : Action.t) :
  drawsRandom action = false ->
  calculateInterval random action = calculateInterval random' action.
Proof.
  unfold drawsRandom, randomRange, calculateInterval.
  destruct (Action.randomize action
            && (truthy (Action.randomizeMin action) || truthy (Action.randomizeMax action)));
    [| reflexivity].
  assert (Hmax : (if Action.randomizeMax action <? Action.randomizeMin action
                  then Action.randomizeMin action else Action.randomizeMax action)
                 = Z.max (Action.randomizeMin action) (Action.randomizeMax action)).
  { destruct (Z.ltb_spec (Action.randomizeMax action) (Action.randomizeMin action)); lia. }
  rewrite Hmax.
  destruct (0 <? toMs (Action.timeUnit action)
                   (Z.max (Action.randomizeMin action) (Action.randomizeMax action)));
    [discriminate | reflexivity].
Qed.

Lemma setRandomSource_same w : setRandomSource (randomSource w) w = w.
Proof. destruct w. reflexivity. Qed.

(** The draw of [scheduleActionOnTab]. *)
Lemma bind_draw {B : Type} (action : Action.t) (k : Q -> M B) w :
  bind (if drawsRandom action then Math_random else ret 0%Q) k w
  = k (if drawsRandom action then nextRandom w else 0%Q) (unscheduled action w).
Proof.
  unfold unscheduled, remainingRandom.
  destruct (drawsRandom action); [reflexivity |].
  rewrite setRandomSource_same. reflexivity.
Qed.

Lemma intervalIn_draw action w :
  calculateInterval (if drawsRandom action then nextRandom w else 0%Q) action
  = intervalIn w action.
Proof.
  unfold intervalIn. destruct (drawsRandom action) eqn:E; [reflexivity |].
  apply calculateInterval_no_draw, E.
Qed.

Lemma scheduleActionOnTab_ok action tabId w :
  validInterval (intervalIn w action) = true ->
  scheduleActionOnTab action tabId w = (Ok tt, scheduled action tabId w).
Proof.
  intros Hv. unfold scheduleActionOnTab.
  rewrite bind_draw, intervalIn_draw.
  unfold validInterval in Hv. apply negb_true_iff in Hv. rewrite Hv.
  unfold Date_now, gets. unfold bind at 1. unfold bind at 1.
  set (w0 := unscheduled action w).
  change (activeTimers w0) with (activeTimers w). change (clock w0) with (clock w).
  set (key := timerKey (Action.id action) tabId).
  set (w1 := setPendingTimeouts (clearedPending key (activeTimers w) (pendingTimeouts w)) w0).
  match goal with |- bind ?m ?k w0 = _ =>
    assert (H1 : m w0 = (Ok tt, w1)) end.
  { unfold w1, clearedPending.
    destruct (activeTimers w !! key) as [ti |].
    - destruct (truthy (TimerInfo.timerId ti)); [reflexivity |]. reflexivity.
    - reflexivity. }
  rewrite (bind_ok _ _ _ _ _ H1).
  unfold setTimeout, modify. unfold bind at 1. unfold bind at 1.
  erewrite bind_ignore by apply updateActionInstance_eq.
  reflexivity.
Qed.

Lemma scheduleActionOnTab_throw action tabId w :
  validInterval (intervalIn w action) = false ->
  scheduleActionOnTab action tabId w
  = (Throw ("Invalid interval: " +:+ pretty (intervalIn w action) +:+ "ms"),
     unscheduled action w).
Proof.
  intros Hv. unfold scheduleActionOnTab.
  rewrite bind_draw, intervalIn_draw.
  unfold validInterval in Hv. apply negb_false_iff in Hv. rewrite Hv. reflexivity.
Qed.

End BackgroundClosedForms.

Section StopIdempotent.

Lemma updateFound_twice actionId f (l : list Action.t) :
  (forall a, Action.id (f a) = Action.id a) ->
  (forall a, findAction actionId l = Some a -> f (f a) = f a) ->
  updateFound actionId f (updateFound actionId f l) = updateFound actionId f l.
Proof.
  intros Hid. unfold findAction. induction l as [| a l IH]; intros Hf; [reflexivity |].
  simpl in *. destruct (String.eqb (Action.id a) actionId) eqn:E; simpl.
  - rewrite Hid, E, Hf; reflexivity.
  - rewrite E, IH; [reflexivity | exact Hf].
Qed.

Lemma validActions_fixed (l : list Action.t) :
  Forall (fun a => isValid a = true) l -> validActions l = l.
Proof. apply filter_isValid_id. Qed.

Lemma removedInstance_idempotent actionId tabId stored :
  removedInstance actionId tabId (removedInstance actionId tabId stored)
  = removedInstance actionId tabId stored.
Proof.
  unfold removedInstance at 2.
  destruct (findAction actionId (validActions stored)) as [action |] eqn:Hf.
  - destruct (Action.instances action) as [instances |] eqn:Hi.
    + pose proof (removedInstance_valid _ tabId _ _ _ Hf Hi) as Hvalid.
      unfold removedInstance. rewrite (validActions_fixed _ Hvalid).
      rewrite findAction_updateFound_same by reflexivity.
      rewrite Hf. simpl. rewrite Hi, delete_delete_eq.
      apply updateFound_twice; [reflexivity |].
      intros a _. reflexivity.
    + unfold removedInstance. rewrite Hf, Hi. reflexivity.
  - unfold removedInstance. rewrite Hf. reflexivity.
Qed.

Lemma stopped_idempotent actionId tabId w :
  stopped actionId tabId (stopped actionId tabId w) = stopped actionId tabId w.
Proof.
  unfold stopped. cbn [storedActions storedSettings storedLogs activeTimers
    errorRecoveryAttempts isInitialized pendingTimeouts nextTimerId badge shown
    clock openTabs randomSource].
  rewrite removedInstance_idempotent, !delete_delete_eq.
  f_equal. unfold clearedPending at 1. rewrite lookup_delete_eq. reflexivity.
Qed.

(** C9: [stopActionOnTab] called a second time for the same
    [(actionId, tabId)] returns normally and leaves the whole world as the
    first call left it: timer registry, recovery counters, stored
    instances, logs and everything else. *)
Theorem stopActionOnTab_idempotent (actionId : string) (tabId : Z) (w : World) :
  stopActionOnTab actionId tabId (run (stopActionOnTab actionId tabId) w)
  = (Ok tt, run (stopActionOnTab actionId tabId) w).
Proof.
  unfold run. rewrite (stopActionOnTab_eq actionId tabId w). simpl.
  rewrite stopActionOnTab_eq, stopped_idempotent. reflexivity.
Qed.

End StopIdempotent.

Section TimerRegistry.

Lemma scheduleActionOnTab_armed action tabId w :
  fst (scheduleActionOnTab action tabId w) = Ok tt ->
  validInterval (intervalIn w action) = true.
Proof.
  intros H. destruct (validInterval (intervalIn w action)) eqn:E; [reflexivity |].
  rewrite (scheduleActionOnTab_throw _ _ _ E) in H. discriminate.
Qed.

Lemma fireTimer_absent injection timerId w :
  pendingTimeouts w !! timerId = None -> fireTimer injection timerId w = (Ok tt, w).
Proof.
  intros H. unfold fireTimer, bind, gets. rewrite H. reflexivity.
Qed.

(** C8: the registry is a map, so a key has at most one entry. When
    [scheduleActionOnTab] arms a key that already has an entry, the old
    timer is cleared before the new one is set: afterwards the old timer
    is not pending and firing it does nothing, the entry of the key is the
    new timer, which is the only pending timer of the pair, and the other
    keys keep their entries. *)
Theorem scheduleActionOnTab_replaces (action : Action.t) (tabId : Z) (w : World)
    (old : TimerInfo.t) :
  timerIdsAllocated w ->
  callbacksRegistered w ->
  activeTimers w !! timerKey (Action.id action) tabId = Some old ->
  fst (scheduleActionOnTab action tabId w) = Ok tt ->
  let w' := run (scheduleActionOnTab action tabId) w in
  (exists new,
     activeTimers w' !! timerKey (Action.id action) tabId = Some new
     /\ TimerInfo.timerId new = nextTimerId w
     /\ TimerInfo.timerId new <> TimerInfo.timerId old
     /\ pendingTimeouts w' !! TimerInfo.timerId new = Some (Action.id action, tabId)
     /\ forall timerId,
          pendingTimeouts w' !! timerId = Some (Action.id action, tabId) ->
          timerId = TimerInfo.timerId new)
  /\ pendingTimeouts w' !! TimerInfo.timerId old = None
  /\ (forall injection, fireTimer injection (TimerInfo.timerId old) w' = (Ok tt, w'))
  /\ (forall otherKey,
        otherKey <> timerKey (Action.id action) tabId ->
        activeTimers w' !! otherKey = activeTimers w !! otherKey)
  /\ callbacksRegistered w'
  /\ timerIdsAllocated w'.
Proof.
  intros (Hnext & Hpend & Hreg) Hcb Hold Hok w'.
  apply scheduleActionOnTab_armed in Hok.
  unfold w', run. rewrite (scheduleActionOnTab_ok _ _ _ Hok).
  cbn [snd]. clear w'.
  set (key := timerKey (Action.id action) tabId) in *.
  destruct (Hreg _ _ Hold) as [Hold0 Holdn].
  assert (Htruthy : truthy (TimerInfo.timerId old) = true).
  { unfold truthy. destruct (Z.eqb_spec (TimerInfo.timerId old) 0); [lia | reflexivity]. }
  set (new := TimerInfo.mk (nextTimerId w) (clock w + intervalIn w action)
                (intervalIn w action) (Action.id action) tabId).
  assert (Hsp : pendingTimeouts (scheduled action tabId w)
                = <[nextTimerId w := (Action.id action, tabId)]>
                    (delete (TimerInfo.timerId old) (pendingTimeouts w))).
  { unfold scheduled, clearedPending. cbn [pendingTimeouts]. fold key.
    rewrite Hold, Htruthy. reflexivity. }
  assert (Hst : activeTimers (scheduled action tabId w) = <[key := new]> (activeTimers w))
    by reflexivity.
  assert (Hsn : nextTimerId (scheduled action tabId w) = nextTimerId w + 1) by reflexivity.
  assert (Hregd : callbacksRegistered (scheduled action tabId w)).
  { intros id [a t]. rewrite Hsp, Hst. cbn [fst snd].
    destruct (decide (id = nextTimerId w)) as [-> | Hne].
    - rewrite lookup_insert_eq. intros [= <- <-]. fold key.
      rewrite lookup_insert_eq. reflexivity.
    - rewrite lookup_insert_ne by congruence.
      destruct (decide (id = TimerInfo.timerId old)) as [-> | Hne'].
      + rewrite lookup_delete_eq. discriminate.
      + rewrite lookup_delete_ne by congruence. intros Hp.
        pose proof (Hcb _ _ Hp) as Hti. cbn [fst snd] in Hti.
        destruct (decide (timerKey a t = key)) as [Hk | Hk].
        * rewrite Hk, Hold in Hti. injection Hti as Hti. congruence.
        * rewrite lookup_insert_ne by congruence. exact Hti. }
  rewrite Hsp, Hst.
  split; [| split; [| split; [| split; [| split]]]].
  - exists new. rewrite lookup_insert_eq. split; [reflexivity |].
    split; [reflexivity |]. split; [simpl; lia |]. split; [apply lookup_insert_eq |].
    intros id Hp. rewrite <- Hsp in Hp.
    pose proof (Hregd id _ Hp) as Hti. cbn [fst snd] in Hti.
    rewrite Hst in Hti. fold key in Hti.
    rewrite lookup_insert_eq in Hti. injection Hti as Hti. symmetry. exact Hti.
  - rewrite lookup_insert_ne by lia. apply lookup_delete_eq.
  - intros injection. apply fireTimer_absent. rewrite Hsp.
    rewrite lookup_insert_ne by lia. apply lookup_delete_eq.
  - intros k Hk. rewrite lookup_insert_ne by congruence. reflexivity.
  - exact Hregd.
  - unfold timerIdsAllocated. rewrite Hsp, Hst, Hsn.
    split; [lia |]. split.
    + intros id cb. destruct (decide (id = nextTimerId w)) as [-> | Hne].
      * intros _. lia.
      * rewrite lookup_insert_ne by congruence.
        destruct (decide (id = TimerInfo.timerId old)) as [-> | Hne'].
        -- rewrite lookup_delete_eq. discriminate.
        -- rewrite lookup_delete_ne by congruence. intros Hp.
           pose proof (Hpend _ _ Hp) as Hp'. simpl in Hp'. lia.
    + intros k ti. destruct (decide (k = key)) as [-> | Hne].
      * rewrite lookup_insert_eq. intros [= <-]. simpl. lia.
      * rewrite lookup_insert_ne by congruence. intros Hk.
        pose proof (Hreg _ _ Hk) as Hk'. simpl in Hk'. lia.
Qed.

(** C8, witness: re-arming [(a1, 42)] in [armedWorld]. *)
Lemma scheduleActionOnTab_replaces_witness :
  timerIdsAllocated armedWorld
  /\ callbacksRegistered armedWorld
  /\ activeTimers armedWorld !! timerKey (Action.id (plainAction "a1")) 42 = Some armedEntry
  /\ fst (scheduleActionOnTab (plainAction "a1") 42 armedWorld) = Ok tt
  /\ pendingTimeouts (run (scheduleActionOnTab (plainAction "a1") 42) armedWorld)
       !! TimerInfo.timerId armedEntry = None.
Proof.
  assert (H1 : timerIdsAllocated armedWorld).
  { split; [reflexivity |]. split; decide_closed. }
  assert (H2 : callbacksRegistered armedWorld).
  { decide_closed. }
  assert (H3 : activeTimers armedWorld !! timerKey (Action.id (plainAction "a1")) 42
               = Some armedEntry) by (vm_compute; reflexivity).
  assert (H4 : fst (scheduleActionOnTab (plainAction "a1") 42 armedWorld) = Ok tt)
    by (vm_compute; reflexivity).
  repeat (split; [assumption |]).
  exact (proj1 (proj2 (scheduleActionOnTab_replaces _ _ _ _ H1 H2 H3 H4))).
Defined.

End TimerRegistry.

Section MonadSteps.
Context {A B : Type}.

Lemma bind_gets (f : World -> A) (k : A -> M B) w : bind (gets f) k w = k (f w) w.
Proof. reflexivity. Qed.

Lemma bind_modify (f : World -> World) (k : unit -> M B) w :
  bind (modify f) k w = k tt (f w).
Proof. reflexivity. Qed.

Lemma bind_ret (a : A) (k : A -> M B) w : bind (ret a) k w = k a w.
Proof. reflexivity. Qed.

Lemma bind_getActions (k : list Action.t -> M B) w :
  bind getActions k w = k (validActions (storedActions w)) w.
Proof. reflexivity. Qed.

Lemma bind_getSettings (k : Settings.t -> M B) w :
  bind getSettings k w = k (storedSettings w) w.
Proof. reflexivity. Qed.

End MonadSteps.

Section StoredInstances.

Lemma storedInstance_updated actionId tabId f stored w :
  storedActions w = updateFound actionId f (validActions stored) ->
  Forall (fun a => isValid a = true) (updateFound actionId f (validActions stored)) ->
  (forall a, Action.id (f a) = Action.id a) ->
  storedInstance actionId tabId w
  = match findAction actionId (validActions stored) with
    | Some action => lookupInstance (f action) tabId
    | None => None
    end.
Proof.
  intros Hs Hv Hid. unfold storedInstance. rewrite Hs, (validActions_fixed _ Hv).
  rewrite findAction_updateFound_same by exact Hid.
  destruct (findAction actionId (validActions stored)); reflexivity.
Qed.

Lemma storedInstance_Some actionId tabId w i :
  storedInstance actionId tabId w = Some i ->
  exists action instances,
    findAction actionId (validActions (storedActions w)) = Some action
    /\ Action.instances action = Some instances
    /\ instances !! tabId = Some i.
Proof.
  unfold storedInstance, lookupInstance.
  destruct (findAction actionId (validActions (storedActions w))) as [action |];
    [| discriminate].
  destruct (Action.instances action) as [instances |] eqn:Hi; [| discriminate].
  intros H. exists action, instances. auto.
Qed.

Lemma addedInstance_valid actionId tabId stored action i :
  findAction actionId (validActions stored) = Some action ->
  atInstanceLimit action tabId = false ->
  Forall (fun a => isValid a = true)
    (updateFound actionId
       (setInstances (Some (<[tabId := i]> (default ∅ (Action.instances action)))))
       (validActions stored)).
Proof.
  intros Hf Hlim. apply updateFound_Forall; [apply validActions_Forall |].
  intros a Ha. rewrite Hf in Ha. injection Ha as <-.
  apply isValid_setInstances; [eapply found_valid; eauto |].
  unfold atInstanceLimit in Hlim. rewrite map_size_insert.
  assert (Hsize : (size (default ∅ (Action.instances action)) <= MAX_INSTANCES_PER_ACTION)%nat).
  { destruct (Action.instances action) as [m |] eqn:Hi; simpl.
    - exact (isValid_instances_size _ _ (found_valid _ _ _ Hf) Hi).
    - rewrite map_size_empty. unfold MAX_INSTANCES_PER_ACTION. lia. }
  destruct (default ∅ (Action.instances action) !! tabId) as [x |] eqn:Hl; simpl.
  - exact Hsize.
  - apply andb_false_iff in Hlim. destruct Hlim as [Hlim | Hlim].
    + apply Nat.leb_gt in Hlim. lia.
    + apply negb_false_iff, bool_decide_eq_true in Hlim.
      destruct Hlim as [x Hx]. discriminate.
Qed.

Lemma addActionInstance_ok actionId tabId tabTitle w action :
  actionId <> "" -> 0 < tabId ->
  findAction actionId (validActions (storedActions w)) = Some action ->
  atInstanceLimit action tabId = false ->
  exists r,
    addActionInstance actionId tabId tabTitle w
    = (Ok r, setStoredActions
               (addedInstance actionId tabId tabTitle (clock w) (storedActions w)) w).
Proof.
  intros Hne Hpos Hf Hlim. unfold addActionInstance.
  destruct (String.eqb_spec actionId ""); [contradiction |].
  destruct (Z.leb_spec tabId 0); [lia |].
  eexists. apply retry_ok. rewrite bind_getActions, Hf.
  fold (atInstanceLimit action tabId). rewrite Hlim.
  unfold Date_now. rewrite bind_gets.
  fold (createdInstance tabId tabTitle (clock w)).
  rewrite (bind_ok _ _ _ _ _
             (saveActions_eq _ w (addedInstance_valid _ _ _ _ _ Hf Hlim))).
  unfold addedInstance. rewrite Hf. reflexivity.
Qed.

End StoredInstances.

Section StartAction.

Lemma saveSettings_globalEnabled (b : bool) w :
  saveSettings (SettingsPatch.mk (Some b) None None) w
  = (Ok (mergeSettings (storedSettings w) (SettingsPatch.mk (Some b) None None)),
     setStoredSettings
       (mergeSettings (storedSettings w) (SettingsPatch.mk (Some b) None None)) w).
Proof. reflexivity. Qed.

(** C10: when the instance of [(actionId, tabId)] already exists,
    [startActionOnTab] overwrites it: the stored instance then has
    [enabled = true], [executionCount = 0] and [startedAt = now], whatever
    it held before and however many instances (up to the limit of five)
    the action has; the call answers [Started] when the computed interval
    is accepted. *)
Theorem startActionOnTab_recreates (actionId : string) (tabId : Z)
    (tabTitle : option string) (w : World) (action : Action.t) (old : Instance.t) :
  findAction actionId (validActions (storedActions w)) = Some action ->
  lookupInstance action tabId = Some old ->
  0 < tabId ->
  (exists i,
     storedInstance actionId tabId (run (startActionOnTab actionId tabId tabTitle) w) = Some i
     /\ Instance.enabled i = true
     /\ Instance.executionCount i = 0
     /\ Instance.startedAt i = clock w)
  /\ (validInterval (intervalIn w action) = true ->
      fst (startActionOnTab actionId tabId tabTitle w) = Ok Started).
Proof.
  intros Hf Hold Hpos.
  assert (Hi : exists instances,
            Action.instances action = Some instances /\ instances !! tabId = Some old).
  { unfold lookupInstance in Hold. destruct (Action.instances action); [eauto | discriminate]. }
  destruct Hi as (instances & Hi & Hl).
  pose proof (findAction_Some _ _ _ Hf) as [_ Hid].
  pose proof (isValid_id _ (found_valid _ _ _ Hf)) as Hne. rewrite Hid in Hne.
  assert (Hlim : atInstanceLimit action tabId = false).
  { unfold atInstanceLimit. rewrite Hi. simpl. rewrite Hl.
    rewrite bool_decide_eq_true_2 by eauto. apply andb_false_r. }
  unfold run, startActionOnTab, tryCatch.
  rewrite bind_getActions, Hf, bind_getSettings.
  set (w1 := if Settings.globalEnabled (storedSettings w) then w
             else setIsInitialized false
                    (setStoredSettings
                       (mergeSettings (storedSettings w) (SettingsPatch.mk (Some true) None None))
                       w)).
  match goal with |- context [bind ?m ?k w] =>
    assert (H1 : m w = (Ok tt, w1)) end.
  { unfold w1. destruct (Settings.globalEnabled (storedSettings w)); reflexivity. }
  rewrite (bind_ok _ _ _ _ _ H1).
  assert (Hs1 : storedActions w1 = storedActions w
                /\ clock w1 = clock w /\ randomSource w1 = randomSource w).
  { unfold w1. destruct (Settings.globalEnabled (storedSettings w)); repeat split. }
  destruct Hs1 as (Hs1 & Hc1 & Hr1).
  match goal with |- context [bind ?m ?k w1] =>
    assert (H2 : exists title, m w1 = (Ok title, w1)) end.
  { destruct (nonEmpty tabTitle); [eexists; reflexivity |].
    unfold chrome_tabs_get. rewrite bind_gets. eexists; reflexivity. }
  destruct H2 as [title H2]. rewrite (bind_ok _ _ _ _ _ H2).
  rewrite <- Hs1 in Hf.
  destruct (addActionInstance_ok actionId tabId title w1 action Hne Hpos Hf Hlim) as [r Hadd].
  rewrite (bind_ok _ _ _ _ _ Hadd).
  set (w2 := setStoredActions
               (addedInstance actionId tabId title (clock w1) (storedActions w1)) w1).
  assert (Hw2 : storedInstance actionId tabId w2
                = Some (createdInstance tabId title (clock w))).
  { rewrite (storedInstance_updated actionId tabId
               (setInstances
                  (Some (<[tabId := createdInstance tabId title (clock w1)]>
                           (default ∅ (Action.instances action)))))
               (storedActions w1)).
    - rewrite Hf. unfold lookupInstance, setInstances. cbn [Action.instances].
      rewrite lookup_insert_eq, Hc1. reflexivity.
    - unfold w2, addedInstance. rewrite Hf. reflexivity.
    - apply addedInstance_valid; assumption.
    - reflexivity. }
  assert (Hr2 : intervalIn w2 action = intervalIn w action).
  { unfold intervalIn, nextRandom, w2. cbn [randomSource setStoredActions].
    rewrite Hr1. reflexivity. }
  clearbody w2.
  destruct (validInterval (intervalIn w2 action)) eqn:Hv.
  - rewrite (bind_ok _ _ _ _ _ (scheduleActionOnTab_ok _ tabId _ Hv)).
    rewrite (bind_ok _ _ _ _ _ (refreshBadge_eq _)). cbn [ret fst snd].
    split; [| reflexivity].
    destruct (storedInstance_Some _ _ _ _ Hw2) as (action2 & instances2 & Hf2 & Hi2 & Hl2).
    exists (applyPatch (InstancePatch.mk None None (Some (clock w2 + intervalIn w2 action)))
              (createdInstance tabId title (clock w))).
    split; [| repeat split].
    rewrite (storedInstance_updated actionId tabId
               (setInstances
                  (Some (<[tabId := applyPatch
                                      (InstancePatch.mk None None
                                         (Some (clock w2 + intervalIn w2 action)))
                                      (createdInstance tabId title (clock w))]> instances2)))
               (storedActions w2)).
    + rewrite Hf2. unfold lookupInstance, setInstances. cbn [Action.instances].
      rewrite lookup_insert_eq. reflexivity.
    + unfold setBadge, scheduled, patchedInstance. cbn [storedActions].
      rewrite Hid, Hf2, Hi2, Hl2. reflexivity.
    + eapply patchedInstance_valid; eauto.
    + reflexivity.
  - rewrite (bind_throw _ _ _ _ _ (scheduleActionOnTab_throw _ tabId _ Hv)). cbn [fst snd].
    split; [| rewrite <- Hr2, Hv; discriminate].
    exists (createdInstance tabId title (clock w)).
    split; [| repeat split]. exact Hw2.
Qed.

End StartAction.

Section Cycle.

Lemma executeAction_restricted injection action tab w :
  truthy (Tab.id tab) = true ->
  isRestrictedUrl (default "" (Tab.url tab)) = true ->
  executeAction injection action tab w = (Ok tt, w).
Proof.
  intros Hid Hurl. unfold executeAction. rewrite Hid, Hurl. reflexivity.
Qed.

Lemma executeAction_injected action tab w :
  truthy (Tab.id tab) = true ->
  executeAction None action tab w = (Ok tt, w).
Proof.
  intros Hid. unfold executeAction. rewrite Hid. simpl.
  destruct (isRestrictedUrl _); reflexivity.
Qed.

Lemma executeAction_rejected message action tab w :
  truthy (Tab.id tab) = true ->
  isRestrictedUrl (default "" (Tab.url tab)) = false ->
  executeAction (Some message) action tab w
  = (Throw ("Script injection failed: " +:+ message), w).
Proof.
  intros Hid Hurl. unfold executeAction. rewrite Hid, Hurl. reflexivity.
Qed.

(** The [try] block from the dispatch on. *)
Lemma try_dispatch injection actionId tabId w action instance tab :
  dispatchReady actionId tabId w action instance tab ->
  executeAndRescheduleOnTab_try injection actionId tabId w
  = bind
      (tryCatch (bind (executeAction injection action tab) (fun _ => ret Succeeded))
         (fun message =>
            if MAX_RECOVERY_ATTEMPTS
               <=? default 0 (errorRecoveryAttempts w !! timerKey actionId tabId) + 1
            then
              bind (stopActionOnTab actionId tabId) (fun _ =>
              bind (addLog (abortLog action tabId message)) (fun _ => ret Aborted))
            else
              bind (modify (fun w' =>
                      setErrorRecoveryAttempts
                        (<[timerKey actionId tabId :=
                             default 0 (errorRecoveryAttempts w !! timerKey actionId tabId) + 1]>
                           (errorRecoveryAttempts w')) w'))
                (fun _ => ret Retry)))
      (fun outcome =>
         match outcome with
         | Aborted => ret tt
         | Retry => scheduleActionOnTab action tabId
         | Succeeded =>
             bind Date_now (fun now =>
             bind (updateActionInstance actionId tabId (successPatch instance now))
               (fun _ =>
                  checkLimits actionId tabId action instance (storedSettings w) tab
                    (Instance.executionCount instance + 1)))
         end) w.
Proof.
  intros (Hf & Hl & He & Hg & Ht & Hu).
  unfold executeAndRescheduleOnTab_try.
  rewrite bind_getActions, Hf, Hl, He. cbn [negb].
  rewrite bind_getSettings, Hg. cbn [negb].
  unfold chrome_tabs_get at 1. rewrite bind_gets, Ht, Hu.
  rewrite bind_gets. reflexivity.
Qed.

Lemma try_success injection actionId tabId w action instance tab :
  dispatchReady actionId tabId w action instance tab ->
  executeAction injection action tab w = (Ok tt, w) ->
  executeAndRescheduleOnTab_try injection actionId tabId w
  = checkLimits actionId tabId action instance (storedSettings w) tab
      (Instance.executionCount instance + 1)
      (patched actionId tabId (successPatch instance (clock w)) w).
Proof.
  intros Hready Hexec. rewrite (try_dispatch _ _ _ _ _ _ _ Hready).
  unfold bind at 1. unfold tryCatch. unfold bind at 1. rewrite Hexec.
  cbn [ret]. unfold Date_now. rewrite bind_gets.
  erewrite bind_ignore by apply updateActionInstance_eq. reflexivity.
Qed.

End Cycle.

Section CycleOutcomes.

Lemma dispatchReady_id actionId tabId w action instance tab :
  dispatchReady actionId tabId w action instance tab -> Action.id action = actionId.
Proof. intros (Hf & _). apply (findAction_Some _ _ _ Hf). Qed.

Lemma dispatchReady_stored actionId tabId w action instance tab :
  dispatchReady actionId tabId w action instance tab ->
  storedInstance actionId tabId w = Some instance.
Proof. intros (Hf & Hl & _). unfold storedInstance. rewrite Hf. exact Hl. Qed.

Lemma storedInstance_patched actionId tabId updates w i :
  storedInstance actionId tabId w = Some i ->
  storedInstance actionId tabId (patched actionId tabId updates w)
  = Some (applyPatch updates i).
Proof.
  intros H. destruct (storedInstance_Some _ _ _ _ H) as (action & instances & Hf & Hi & Hl).
  rewrite (storedInstance_updated actionId tabId
             (setInstances (Some (<[tabId := applyPatch updates i]> instances)))
             (storedActions w)).
  - rewrite Hf. unfold lookupInstance, setInstances. cbn [Action.instances].
    apply lookup_insert_eq.
  - unfold patched, patchedInstance. cbn [storedActions setStoredActions].
    rewrite Hf, Hi, Hl. reflexivity.
  - eapply patchedInstance_valid; eauto.
  - reflexivity.
Qed.

Lemma storedInstance_stopped actionId tabId w :
  storedInstance actionId tabId (stopped actionId tabId w) = None.
Proof.
  unfold stopped, removedInstance.
  destruct (findAction actionId (validActions (storedActions w))) as [action |] eqn:Hf.
  - destruct (Action.instances action) as [instances |] eqn:Hi.
    + rewrite (storedInstance_updated actionId tabId
                 (setInstances (Some (delete tabId instances))) (storedActions w)).
      * rewrite Hf. unfold lookupInstance, setInstances. cbn [Action.instances].
        apply lookup_delete_eq.
      * cbn [storedActions]. reflexivity.
      * eapply removedInstance_valid; eauto.
      * reflexivity.
    + unfold storedInstance. cbn [storedActions]. rewrite Hf.
      unfold lookupInstance. rewrite Hi. reflexivity.
  - unfold storedInstance. cbn [storedActions]. rewrite Hf. reflexivity.
Qed.

Lemma addedLog_head entry settings logs :
  (1 <= Settings.maxLogs settings)%nat ->
  addedLog entry settings logs = entry :: firstn (Settings.maxLogs settings - 1) logs.
Proof.
  intros H. unfold addedLog.
  destruct (Settings.maxLogs settings) as [| k]; [lia |].
  replace (S k - 1)%nat with k by lia.
  destruct (Nat.ltb_spec (S k) (length (entry :: logs))) as [Hlt | Hge].
  - reflexivity.
  - simpl in Hge. rewrite firstn_all2 by lia. reflexivity.
Qed.

(** C3 (amended): when the tab's URL has a restricted scheme,
    [executeAction] performs no injection and returns normally, and the
    cycle goes on as after a successful injection: the instance's
    [executionCount] is stored incremented by one, the limit checks run on
    the incremented count, and the dispatch leaves the stored recovery
    counters as they were. *)
Theorem restricted_tab_counts_as_success (injection : option string)
    (actionId : string) (tabId : Z) (w : World)
    (action : Action.t) (instance : Instance.t) (tab : Tab.t) :
  dispatchReady actionId tabId w action instance tab ->
  truthy (Tab.id tab) = true ->
  isRestrictedUrl (default "" (Tab.url tab)) = true ->
  let counted := applyPatch (successPatch instance (clock w)) instance in
  let w1 := patched actionId tabId (successPatch instance (clock w)) w in
  executeAction injection action tab w = (Ok tt, w)
  /\ executeAndRescheduleOnTab injection actionId tabId w
     = executeAndRescheduleOnTab None actionId tabId w
  /\ executeAndRescheduleOnTab_try injection actionId tabId w
     = checkLimits actionId tabId action instance (storedSettings w) tab
         (Instance.executionCount instance + 1) w1
  /\ storedInstance actionId tabId w1 = Some counted
  /\ Instance.executionCount counted = Instance.executionCount instance + 1
  /\ errorRecoveryAttempts w1 = errorRecoveryAttempts w.
Proof.
  intros Hready Hid Hurl counted w1.
  pose proof (executeAction_restricted injection action tab w Hid Hurl) as Hexec.
  pose proof (try_success _ _ _ _ _ _ _ Hready Hexec) as Htry.
  pose proof (try_success None _ _ _ _ _ _ Hready
                (executeAction_restricted None action tab w Hid Hurl)) as Htry0.
  split; [exact Hexec |]. split.
  - unfold executeAndRescheduleOnTab, tryCatch. rewrite Htry, Htry0. reflexivity.
  - split; [exact Htry |]. split.
    + apply storedInstance_patched, (dispatchReady_stored _ _ _ _ _ _ Hready).
    + split; reflexivity.
Qed.

(** C5: when the dispatch fails while the stored recovery counter of the
    pair is 2, the cycle returns normally with the instance removed, one
    log entry added whose error is the failure's message after
    ["Max recovery attempts reached: "], the recovery counter and the
    registry entry of the pair gone, and no timer set. *)
Theorem third_failure_aborts (injection : option string) (failure : string)
    (actionId : string) (tabId : Z) (w : World)
    (action : Action.t) (instance : Instance.t) (tab : Tab.t) :
  dispatchReady actionId tabId w action instance tab ->
  executeAction injection action tab w = (Throw failure, w) ->
  errorRecoveryAttempts w !! timerKey actionId tabId = Some 2 ->
  (1 <= Settings.maxLogs (storedSettings w))%nat ->
  let terminal := abortLog action tabId failure (clock w) in
  let w' := run (executeAndRescheduleOnTab injection actionId tabId) w in
  fst (executeAndRescheduleOnTab injection actionId tabId w) = Ok tt
  /\ storedInstance actionId tabId w' = None
  /\ storedLogs w'
     = terminal :: firstn (Settings.maxLogs (storedSettings w) - 1) (storedLogs w)
  /\ LogEntry.error terminal = Some ("Max recovery attempts reached: " +:+ failure)
  /\ errorRecoveryAttempts w' !! timerKey actionId tabId = None
  /\ activeTimers w' !! timerKey actionId tabId = None
  /\ nextTimerId w' = nextTimerId w
  /\ pendingTimeouts w'
     = clearedPending (timerKey actionId tabId) (activeTimers w) (pendingTimeouts w).
Proof.
  intros Hready Hexec Hcount Hlogs terminal w'.
  assert (Hrun : executeAndRescheduleOnTab injection actionId tabId w
                 = (Ok tt,
                    setStoredLogs
                      (addedLog terminal (storedSettings w) (storedLogs w))
                      (stopped actionId tabId w))).
  { unfold executeAndRescheduleOnTab, tryCatch.
    rewrite (try_dispatch _ _ _ _ _ _ _ Hready).
    unfold bind at 1. unfold tryCatch. unfold bind at 1.
    rewrite Hexec.
    assert (Hmax : (MAX_RECOVERY_ATTEMPTS
                    <=? default 0 (errorRecoveryAttempts w !! timerKey actionId tabId) + 1)
                   = true) by (rewrite Hcount; reflexivity).
    rewrite Hmax.
    rewrite (bind_ok _ _ _ _ _ (stopActionOnTab_eq actionId tabId w)).
    rewrite (bind_ok _ _ _ _ _ (addLog_eq _ _)). reflexivity. }
  unfold w', run. rewrite Hrun. cbn [fst snd].
  split; [reflexivity |]. split; [apply (storedInstance_stopped actionId tabId w) |].
  split; [apply addedLog_head, Hlogs |]. split; [reflexivity |].
  split; [apply lookup_delete_eq |]. split; [apply lookup_delete_eq |].
  split; reflexivity.
Qed.

End CycleOutcomes.

Section Limits.

Lemma storedInstance_ext actionId tabId w w' :
  storedActions w' = storedActions w ->
  storedInstance actionId tabId w' = storedInstance actionId tabId w.
Proof. intros H. unfold storedInstance. rewrite H. reflexivity. Qed.

Lemma checkLimits_stop notice actionId tabId w :
  completedWith notice actionId tabId w
    (setShown (notice :: shown (stopped actionId tabId w)) (stopped actionId tabId w)).
Proof.
  unfold completedWith.
  split; [rewrite <- (storedInstance_stopped actionId tabId w);
          apply storedInstance_ext; reflexivity |].
  split; [reflexivity |]. split; [apply lookup_delete_eq |]. split; reflexivity.
Qed.

Lemma completedWith_patched notice actionId tabId updates w w' :
  completedWith notice actionId tabId (patched actionId tabId updates w) w' ->
  completedWith notice actionId tabId w w'.
Proof. exact (fun H => H). Qed.

(** C6 (amended): after a successful dispatch the repeat limit is
    checked first and the time limit second. When the repeat limit is
    reached the instance is stopped with one completion notification that
    names the count, whatever the time limit says; when only the time
    limit is reached it is stopped with one completion notification that
    names the minutes; in both cases no timer is set. When neither is
    reached and the freshly computed interval lies within
    [[100, 86 400 000]] ms, a new timer is armed for the pair. *)
Theorem limits_after_success (injection : option string) (actionId : string) (tabId : Z)
    (w : World) (action : Action.t) (instance : Instance.t) (tab : Tab.t) :
  dispatchReady actionId tabId w action instance tab ->
  executeAction injection action tab w = (Ok tt, w) ->
  let newCount := Instance.executionCount instance + 1 in
  let minutes := Math_round (elapsedMinutes (clock w) (Instance.startedAt instance)) in
  let w' := run (executeAndRescheduleOnTab injection actionId tabId) w in
  (repeatLimitReached action newCount = true ->
   completedWith
     (completionNotice (Action.name action) (pretty newCount +:+ " executions on tab"))
     actionId tabId w w')
  /\ (repeatLimitReached action newCount = false ->
      timeLimitReached action instance (clock w) = true ->
      completedWith
        (completionNotice (Action.name action) (pretty minutes +:+ " minutes on tab"))
        actionId tabId w w')
  /\ (repeatLimitReached action newCount = false ->
      timeLimitReached action instance (clock w) = false ->
      validInterval (intervalIn w action) = true ->
      rearmed actionId tabId newCount w w').
Proof.
  intros Hready Hexec newCount minutes w'.
  pose proof (try_success _ _ _ _ _ _ _ Hready Hexec) as Htry.
  pose proof (dispatchReady_id _ _ _ _ _ _ Hready) as Hid.
  pose proof (dispatchReady_stored _ _ _ _ _ _ Hready) as Hstored.
  set (w1 := patched actionId tabId (successPatch instance (clock w)) w) in *.
  fold newCount in Htry.
  unfold w', run, executeAndRescheduleOnTab, tryCatch. rewrite Htry. clear w' Htry.
  unfold checkLimits.
  split; [| split].
  - intros Hrep. rewrite Hrep.
    rewrite (bind_ok _ _ _ _ _ (stopActionOnTab_eq actionId tabId w1)).
    apply (completedWith_patched _ _ _ (successPatch instance (clock w))).
    apply checkLimits_stop.
  - intros Hrep Htime. rewrite Hrep. unfold Date_now. rewrite bind_gets.
    change (clock w1) with (clock w). rewrite Htime.
    rewrite (bind_ok _ _ _ _ _ (stopActionOnTab_eq actionId tabId w1)).
    apply (completedWith_patched _ _ _ (successPatch instance (clock w))).
    apply checkLimits_stop.
  - intros Hrep Htime Hvalid. rewrite Hrep. unfold Date_now. rewrite bind_gets.
    change (clock w1) with (clock w). rewrite Htime.
    set (w2 := if Settings.notifications (storedSettings w)
                  && ((newCount =? 1) || (Z.rem newCount 50 =? 0))
               then setShown (progressNotification action newCount tab :: shown w1) w1
               else w1).
    match goal with |- context [bind ?m ?k w1] =>
      assert (H2 : m w1 = (Ok tt, w2)) end.
    { unfold w2. destruct (Settings.notifications (storedSettings w) && _); reflexivity. }
    rewrite (bind_ok _ _ _ _ _ H2).
    assert (Hw2 : storedActions w2 = storedActions w1
                  /\ randomSource w2 = randomSource w
                  /\ nextTimerId w2 = nextTimerId w).
    { unfold w2. destruct (Settings.notifications (storedSettings w) && _);
        repeat split; reflexivity. }
    destruct Hw2 as (Hs2 & Hr2 & Hn2).
    assert (Hvalid2 : validInterval (intervalIn w2 action) = true).
    { unfold intervalIn, nextRandom in *. rewrite Hr2. exact Hvalid. }
    rewrite (scheduleActionOnTab_ok _ tabId _ Hvalid2). cbn [fst snd].
    clearbody w2. split.
    + eexists. rewrite <- Hid. unfold scheduled. cbn [activeTimers pendingTimeouts].
      rewrite lookup_insert_eq. split; [reflexivity |].
      cbn [TimerInfo.timerId]. split; [exact Hn2 |].
      rewrite <- Hn2. apply lookup_insert_eq.
    + assert (H1 : storedInstance actionId tabId w2
                   = Some (applyPatch (successPatch instance (clock w)) instance)).
      { rewrite (storedInstance_ext _ _ w1 w2 Hs2).
        apply storedInstance_patched, Hstored. }
      exists (applyPatch
                (InstancePatch.mk None None (Some (clock w2 + intervalIn w2 action)))
                (applyPatch (successPatch instance (clock w)) instance)).
      split; [| split].
      * rewrite <- (storedInstance_patched actionId tabId _ w2 _ H1).
        apply storedInstance_ext. unfold scheduled, patched.
        cbn [storedActions setStoredActions]. rewrite Hid. reflexivity.
      * cbn. apply Hready.
      * reflexivity.
Qed.

End Limits.

Section Examples.

Lemma unitSample_half : unitSample (1 # 2).
Proof. split; unfold Qle, Qlt; simpl; lia. Qed.

End Examples.

Section Initialization.

(** C4 (amended): when [initializeTimers] runs with the one-shot flag
    unset and global scheduling disabled, it sets the badge count to 0
    and returns without arming a timer; the timer registry and the
    pending timers are left as they were. *)
Theorem initializeTimers_disabled (w : World) :
  isInitialized w = false ->
  Settings.globalEnabled (storedSettings w) = false ->
  initializeTimers w = (Ok tt, setBadge 0 (setIsInitialized true w))
  /\ badge (run initializeTimers w) = 0
  /\ activeTimers (run initializeTimers w) = activeTimers w
  /\ pendingTimeouts (run initializeTimers w) = pendingTimeouts w
  /\ nextTimerId (run initializeTimers w) = nextTimerId w.
Proof.
  intros Hinit Hglobal.
  assert (H : initializeTimers w = (Ok tt, setBadge 0 (setIsInitialized true w))).
  { unfold initializeTimers. rewrite bind_gets, Hinit, bind_modify.
    unfold tryCatch. rewrite bind_getActions, bind_getSettings.
    cbn [storedSettings setIsInitialized]. rewrite Hglobal. reflexivity. }
  unfold run. rewrite H. repeat split.
Qed.

(** C4, witness: [pausedArmedWorld]. *)
Lemma initializeTimers_disabled_witness :
  isInitialized pausedArmedWorld = false
  /\ Settings.globalEnabled (storedSettings pausedArmedWorld) = false
  /\ badge (run initializeTimers pausedArmedWorld) = 0.
Proof.
  split; [reflexivity |]. split; [reflexivity |].
  exact (proj1 (proj2 (initializeTimers_disabled pausedArmedWorld eq_refl eq_refl))).
Defined.

(** C4, counterexample: in [pausedArmedWorld] global scheduling is
    disabled and the timer of [(a1, 42)] is armed; after
    [initializeTimers] it is still registered and still pending. *)
Lemma disabled_initialization_keeps_timers :
  isInitialized pausedArmedWorld = false
  /\ Settings.globalEnabled (storedSettings pausedArmedWorld) = false
  /\ activeTimers pausedArmedWorld !! "a1-42" = Some armedEntry
  /\ activeTimers (run initializeTimers pausedArmedWorld) !! "a1-42" = Some armedEntry
  /\ pendingTimeouts (run initializeTimers pausedArmedWorld) !! 1 = Some ("a1", 42)
  /\ activeTimers (run initializeTimers pausedArmedWorld) <> ∅.
Proof.
  repeat (split; [vm_compute; reflexivity |]).
  intros H.
  assert (H' : activeTimers (run initializeTimers pausedArmedWorld) !! "a1-42" = None)
    by (rewrite H; apply lookup_empty).
  vm_compute in H'. discriminate.
Qed.

End Initialization.

Section HoareRules.
Context {A B : Type}.

Lemma hoare_conseq (P P' : World -> Prop) (m : M A) (Q Q' : Res A -> World -> Prop) :
  hoare P' m Q' ->
  (forall w, P w -> P' w) ->
  (forall r w, Q' r w -> Q r w) ->
  hoare P m Q.
Proof. intros H HP HQ w Hw. apply HQ, H, HP, Hw. Qed.

Lemma hoare_ret (P : World -> Prop) (a : A) (Q : Res A -> World -> Prop) :
  (forall w, P w -> Q (Ok a) w) -> hoare P (ret a) Q.
Proof. intros H w Hw. apply H, Hw. Qed.

Lemma hoare_throw (P : World -> Prop) (e : string) (Q : Res A -> World -> Prop) :
  (forall w, P w -> Q (Throw e) w) -> hoare P (throw e) Q.
Proof. intros H w Hw. apply H, Hw. Qed.

Lemma hoare_gets (P : World -> Prop) (f : World -> A) (Q : Res A -> World -> Prop) :
  (forall w, P w -> Q (Ok (f w)) w) -> hoare P (gets f) Q.
Proof. intros H w Hw. apply H, Hw. Qed.

Lemma hoare_bind (P : World -> Prop) (m : M A) (R : Res A -> World -> Prop)
    (k : A -> M B) (Q : Res B -> World -> Prop) :
  hoare P m R ->
  (forall a, hoare (R (Ok a)) (k a) Q) ->
  (forall e w, R (Throw e) w -> Q (Throw e) w) ->
  hoare P (bind m k) Q.
Proof.
  intros Hm Hk He w Hw. specialize (Hm w Hw). unfold bind.
  destruct (m w) as [[a | e] w1]; simpl in *.
  - apply Hk, Hm.
  - apply He, Hm.
Qed.

End HoareRules.

Section HoareRules2.
Context {A : Type}.

Lemma hoare_modify (P : World -> Prop) (f : World -> World)
    (Q : Res unit -> World -> Prop) :
  (forall w, P w -> Q (Ok tt) (f w)) -> hoare P (modify f) Q.
Proof. intros H w Hw. apply H, Hw. Qed.

Lemma hoare_tryCatch (P : World -> Prop) (m : M A) (R : Res A -> World -> Prop)
    (handler : string -> M A) (Q : Res A -> World -> Prop) :
  hoare P m R ->
  (forall a w, R (Ok a) w -> Q (Ok a) w) ->
  (forall e, hoare (R (Throw e)) (handler e) Q) ->
  hoare P (tryCatch m handler) Q.
Proof.
  intros Hm Hok Hh w Hw. specialize (Hm w Hw). unfold tryCatch.
  destruct (m w) as [[a | e] w1]; simpl in *.
  - apply Hok, Hm.
  - apply Hh, Hm.
Qed.

Lemma hoare_eq (P : World -> Prop) (m : M A) (Q : Res A -> World -> Prop) :
  (forall w, P w -> exists r w', m w = (r, w') /\ Q r w') -> hoare P m Q.
Proof.
  intros H w Hw. destruct (H w Hw) as (r & w' & Heq & HQ). rewrite Heq. exact HQ.
Qed.

Lemma hoare_foldM {B : Type} (I : World -> Prop) (f : A -> B -> M A) (l : list B) :
  (forall acc x, In x l -> hoare I (f acc x) (fun _ w => I w)) ->
  forall acc, hoare I (foldM f acc l) (fun _ w => I w).
Proof.
  induction l as [| x l IH]; intros Hf acc; simpl.
  - apply hoare_ret. auto.
  - apply (hoare_bind I _ (fun _ w => I w)).
    + apply Hf. left. reflexivity.
    + intros a. apply IH. intros acc' y Hy. apply Hf. right. exact Hy.
    + auto.
Qed.

End HoareRules2.

Lemma hoare_intro {A : Type} (P : World -> Prop) (m : M A) (Q : Res A -> World -> Prop) :
  (forall w r w', P w -> m w = (r, w') -> Q r w') -> hoare P m Q.
Proof. intros H w Hw. apply (H w); [exact Hw | apply surjective_pairing]. Qed.

Lemma hoare_elim {A : Type} (P : World -> Prop) (m : M A) (Q : Res A -> World -> Prop) :
  hoare P m Q -> forall w r w', P w -> m w = (r, w') -> Q r w'.
Proof. intros H w r w' Hw Hm. specialize (H w Hw). rewrite Hm in H. exact H. Qed.

Section EnabledInstances.

Lemma updateFound_In actionId f (l : list Action.t) action a0 :
  findAction actionId l = Some action ->
  In a0 l -> In a0 (updateFound actionId f l) \/ a0 = action.
Proof.
  unfold findAction. induction l as [| a l IH]; simpl; [tauto |].
  destruct (String.eqb (Action.id a) actionId) eqn:E.
  - intros [= <-] [-> | Hin]; [right; reflexivity | left; right; exact Hin].
  - intros Hf [-> | Hin]; [left; left; reflexivity |].
    destruct (IH Hf Hin); [left; right; assumption | right; assumption].
Qed.

Lemma updateFound_In_new actionId f (l : list Action.t) action :
  findAction actionId l = Some action -> In (f action) (updateFound actionId f l).
Proof.
  unfold findAction. induction l as [| a l IH]; simpl; [discriminate |].
  destruct (String.eqb (Action.id a) actionId) eqn:E.
  - intros [= <-]. left. reflexivity.
  - intros Hf. right. apply IH, Hf.
Qed.

Lemma enabledIn_updated stored actionId f action timerKey' :
  findAction actionId (validActions stored) = Some action ->
  Forall (fun a => isValid a = true) (updateFound actionId f (validActions stored)) ->
  Action.id (f action) = Action.id action ->
  (forall tabId i,
     lookupInstance action tabId = Some i -> Instance.enabled i = true ->
     timerKey' = timerKey actionId tabId ->
     exists i', lookupInstance (f action) tabId = Some i' /\ Instance.enabled i' = true) ->
  enabledIn stored timerKey' ->
  enabledIn (updateFound actionId f (validActions stored)) timerKey'.
Proof.
  intros Hf Hvalid Hid Hkeep (a0 & t0 & i0 & Hin & Hl & He & Hk).
  unfold enabledIn. rewrite (validActions_fixed _ Hvalid).
  destruct (updateFound_In actionId f _ _ _ Hf Hin) as [Hin' | ->].
  - exists a0, t0, i0. auto.
  - destruct (findAction_Some _ _ _ Hf) as [_ Hida].
    destruct (Hkeep t0 i0 Hl He) as (i' & Hl' & He'); [congruence |].
    exists (f action), t0, i'. split; [apply updateFound_In_new, Hf |].
    split; [exact Hl' |]. split; [exact He' |]. congruence.
Qed.

Lemma enabledIn_patched actionId tabId updates stored timerKey' :
  InstancePatch.enabled updates = None ->
  enabledIn stored timerKey' ->
  enabledIn (patchedInstance actionId tabId updates stored) timerKey'.
Proof.
  intros Hkeep H. unfold patchedInstance.
  destruct (findAction actionId (validActions stored)) as [action |] eqn:Hf; [| exact H].
  destruct (Action.instances action) as [instances |] eqn:Hi; [| exact H].
  destruct (instances !! tabId) as [instance |] eqn:Hl; [| exact H].
  apply (enabledIn_updated stored actionId _ action); auto.
  - eapply patchedInstance_valid; eauto.
  - intros t0 i0 Hl0 He0 _. unfold lookupInstance, setInstances in *.
    cbn [Action.instances]. rewrite Hi in Hl0.
    destruct (decide (t0 = tabId)) as [-> | Hne].
    + rewrite lookup_insert_eq. eexists. split; [reflexivity |].
      rewrite Hl in Hl0. injection Hl0 as <-.
      unfold applyPatch. cbn [Instance.enabled]. rewrite Hkeep. exact He0.
    + rewrite lookup_insert_ne by congruence. eauto.
Qed.

Lemma enabledIn_removed actionId tabId stored timerKey' :
  enabledIn stored timerKey' ->
  timerKey' <> timerKey actionId tabId ->
  enabledIn (removedInstance actionId tabId stored) timerKey'.
Proof.
  intros H Hne. unfold removedInstance.
  destruct (findAction actionId (validActions stored)) as [action |] eqn:Hf; [| exact H].
  destruct (Action.instances action) as [instances |] eqn:Hi; [| exact H].
  apply (enabledIn_updated stored actionId _ action); auto.
  - eapply removedInstance_valid; eauto.
  - intros t0 i0 Hl0 He0 Hk. unfold lookupInstance, setInstances in *.
    cbn [Action.instances]. rewrite Hi in Hl0.
    rewrite lookup_delete_ne by congruence. eauto.
Qed.

Lemma enabledIn_added actionId tabId tabTitle now stored action timerKey' :
  findAction actionId (validActions stored) = Some action ->
  atInstanceLimit action tabId = false ->
  enabledIn stored timerKey' \/ timerKey' = timerKey actionId tabId ->
  enabledIn (addedInstance actionId tabId tabTitle now stored) timerKey'.
Proof.
  intros Hf Hlim H. unfold addedInstance. rewrite Hf.
  pose proof (addedInstance_valid actionId tabId stored action
                (createdInstance tabId tabTitle now) Hf Hlim) as Hvalid.
  destruct H as [H | ->].
  - apply (enabledIn_updated stored actionId _ action); auto.
    intros t0 i0 Hl0 He0 _. unfold lookupInstance, setInstances in *.
    cbn [Action.instances].
    destruct (decide (t0 = tabId)) as [-> | Hne].
    + rewrite lookup_insert_eq. eexists. split; reflexivity.
    + rewrite lookup_insert_ne by congruence.
      destruct (Action.instances action); [eauto | discriminate].
  - unfold enabledIn. rewrite (validActions_fixed _ Hvalid).
    destruct (findAction_Some _ _ _ Hf) as [_ Hida].
    eexists _, tabId, _. split; [apply updateFound_In_new, Hf |].
    unfold lookupInstance, setInstances. cbn [Action.instances Action.id].
    rewrite lookup_insert_eq. split; [reflexivity |]. split; [reflexivity |].
    rewrite Hida. reflexivity.
Qed.

End EnabledInstances.

Section Invariant.

Lemma armedAreEnabled_ext w w' :
  storedActions w' = storedActions w -> activeTimers w' = activeTimers w ->
  armedAreEnabled w -> armedAreEnabled w'.
Proof. intros Hs Ht H k ti. rewrite Hs, Ht. apply H. Qed.

Lemma readyFor_ext timerKey' w w' :
  storedActions w' = storedActions w -> activeTimers w' = activeTimers w ->
  readyFor timerKey' w -> readyFor timerKey' w'.
Proof.
  intros Hs Ht [H1 H2]. split; [eapply armedAreEnabled_ext; eauto |].
  rewrite Hs. exact H2.
Qed.

Lemma armedAreEnabled_deleted timerKey' w :
  armedAreEnabled w -> armedAreEnabled (setActiveTimers (delete timerKey' (activeTimers w)) w).
Proof.
  intros H k ti. cbn [activeTimers storedActions setActiveTimers].
  intros Hk. apply lookup_delete_Some in Hk. destruct Hk as [_ Hk]. eapply H, Hk.
Qed.

Lemma armedAreEnabled_cleared w (pending : gmap Z (string * Z)) :
  armedAreEnabled (setActiveTimers ∅ (setPendingTimeouts pending w)).
Proof. intros k ti. cbn [activeTimers setActiveTimers]. rewrite lookup_empty. discriminate. Qed.

Lemma armedAreEnabled_stopped actionId tabId w : armedAreEnabled w -> armedAreEnabled (stopped actionId tabId w).
Proof.
  intros H k ti. unfold stopped. cbn [activeTimers storedActions].
  intros Hk. apply lookup_delete_Some in Hk. destruct Hk as [Hne Hk].
  apply enabledIn_removed; [eapply H, Hk | congruence].
Qed.

Lemma readyFor_scheduled action tabId w :
  readyFor (timerKey (Action.id action) tabId) w ->
  readyFor (timerKey (Action.id action) tabId) (scheduled action tabId w).
Proof.
  intros [H He]. split.
  - intros k ti. unfold scheduled. cbn [activeTimers storedActions].
    destruct (decide (k = timerKey (Action.id action) tabId)) as [-> | Hne].
    + intros _. apply enabledIn_patched; [reflexivity | exact He].
    + rewrite lookup_insert_ne by congruence. intros Hk.
      apply enabledIn_patched; [reflexivity |]. eapply H, Hk.
  - unfold scheduled. cbn [storedActions]. apply enabledIn_patched; [reflexivity | exact He].
Qed.

Lemma readyFor_patched timerKey' actionId tabId updates w :
  InstancePatch.enabled updates = None ->
  readyFor timerKey' w -> readyFor timerKey' (patched actionId tabId updates w).
Proof.
  intros Hkeep [H He]. split.
  - intros k ti. unfold patched. cbn [activeTimers storedActions setStoredActions].
    intros Hk. apply enabledIn_patched; [exact Hkeep |]. eapply H, Hk.
  - unfold patched. cbn [storedActions setStoredActions].
    apply enabledIn_patched; [exact Hkeep | exact He].
Qed.

Lemma scheduleActionOnTab_spec action tabId :
  hoare (readyFor (timerKey (Action.id action) tabId))
    (scheduleActionOnTab action tabId)
    (fun _ w => readyFor (timerKey (Action.id action) tabId) w).
Proof.
  intros w Hw. destruct (validInterval (intervalIn w action)) eqn:Hv.
  - rewrite (scheduleActionOnTab_ok _ _ _ Hv). apply readyFor_scheduled, Hw.
  - rewrite (scheduleActionOnTab_throw _ _ _ Hv).
    eapply readyFor_ext; [| | exact Hw]; reflexivity.
Qed.

Lemma stopActionOnTab_spec actionId tabId :
  hoare armedAreEnabled (stopActionOnTab actionId tabId) (fun r w => r = Ok tt /\ armedAreEnabled w).
Proof.
  intros w Hw. rewrite stopActionOnTab_eq. split; [reflexivity |].
  apply armedAreEnabled_stopped, Hw.
Qed.

Lemma deleteTimer_refreshBadge_spec timerKey' :
  hoare armedAreEnabled (bind (deleteTimer timerKey') (fun _ => refreshBadge)) (fun r w => r = Ok tt /\ armedAreEnabled w).
Proof.
  intros w Hw. unfold deleteTimer. rewrite bind_modify, refreshBadge_eq.
  split; [reflexivity |].
  eapply armedAreEnabled_ext; [| | apply (armedAreEnabled_deleted timerKey' w Hw)];
    reflexivity.
Qed.

Lemma executeAction_pure injection action tab w :
  exists r, executeAction injection action tab w = (r, w).
Proof.
  unfold executeAction. destruct (negb (truthy (Tab.id tab))); [eexists; reflexivity |].
  destruct (isRestrictedUrl _); [eexists; reflexivity |].
  destruct injection; eexists; reflexivity.
Qed.

Lemma checkLimits_spec actionId tabId action instance settings tab newCount :
  Action.id action = actionId ->
  hoare (readyFor (timerKey actionId tabId))
    (checkLimits actionId tabId action instance settings tab newCount)
    (fun r w => match r with
                | Ok _ => armedAreEnabled w
                | Throw _ => readyFor (timerKey actionId tabId) w
                end).
Proof.
  intros Hid w [Hw He]. unfold checkLimits.
  assert (Hstop : forall notice,
            (let r := bind (stopActionOnTab actionId tabId)
                        (fun _ => modify (fun w0 => setShown (notice :: shown w0) w0)) w in
             match fst r with
             | Ok _ => armedAreEnabled (snd r)
             | Throw _ => readyFor (timerKey actionId tabId) (snd r)
             end)).
  { intros notice. cbv zeta.
    rewrite (bind_ok _ _ _ _ _ (stopActionOnTab_eq actionId tabId w)). cbn [fst snd modify].
    eapply armedAreEnabled_ext; [| | apply (armedAreEnabled_stopped actionId tabId w Hw)];
      reflexivity. }
  destruct (repeatLimitReached action newCount); [apply Hstop |].
  unfold Date_now. rewrite bind_gets.
  destruct (timeLimitReached action instance (clock w)); [apply Hstop |].
  set (w2 := if Settings.notifications settings
                && ((newCount =? 1) || (Z.rem newCount 50 =? 0))
             then setShown (progressNotification action newCount tab :: shown w) w
             else w).
  match goal with |- context [bind ?m ?k w] => assert (H2 : m w = (Ok tt, w2)) end.
  { unfold w2. destruct (Settings.notifications settings && _); reflexivity. }
  rewrite (bind_ok _ _ _ _ _ H2).
  assert (Hw2 : readyFor (timerKey (Action.id action) tabId) w2).
  { rewrite Hid. unfold w2. destruct (Settings.notifications settings && _).
    - eapply readyFor_ext; [| | split; eassumption]; reflexivity.
    - split; assumption. }
  pose proof (scheduleActionOnTab_spec action tabId w2 Hw2) as Hs.
  rewrite Hid in Hs.
  destruct (scheduleActionOnTab action tabId w2) as [[[] | e] w3]; cbn [fst snd] in *.
  - apply Hs.
  - exact Hs.
Qed.

End Invariant.

Section InvariantCycle.

Lemma readyFor_found actionId tabId w action instance :
  armedAreEnabled w ->
  findAction actionId (validActions (storedActions w)) = Some action ->
  lookupInstance action tabId = Some instance ->
  Instance.enabled instance = true ->
  readyFor (timerKey actionId tabId) w.
Proof.
  intros Hw Hf Hl He. split; [exact Hw |].
  destruct (findAction_Some _ _ _ Hf) as [Hin Hid].
  exists action, tabId, instance. rewrite Hid. auto.
Qed.

Lemma executeAndRescheduleOnTab_try_spec injection actionId tabId :
  hoare armedAreEnabled (executeAndRescheduleOnTab_try injection actionId tabId)
    (fun r w => match r with
                | Ok _ => armedAreEnabled w
                | Throw _ => readyFor (timerKey actionId tabId) w
                end).
Proof.
  apply hoare_intro. intros w r w' Hw. unfold executeAndRescheduleOnTab_try.
  assert (Hdel : bind (deleteTimer (timerKey actionId tabId)) (fun _ => refreshBadge) w
                 = (r, w') ->
                 match r with
                 | Ok _ => armedAreEnabled w'
                 | Throw _ => readyFor (timerKey actionId tabId) w'
                 end).
  { intros Hm.
    destruct (hoare_elim _ _ _ (deleteTimer_refreshBadge_spec (timerKey actionId tabId))
                _ _ _ Hw Hm) as [-> H].
    exact H. }
  rewrite bind_getActions.
  destruct (findAction actionId (validActions (storedActions w))) as [action |] eqn:Hf;
    [| exact Hdel].
  destruct (lookupInstance action tabId) as [instance |] eqn:Hl; [| exact Hdel].
  destruct (Instance.enabled instance) eqn:He; [| exact Hdel].
  clear Hdel. cbn [negb]. rewrite bind_getSettings.
  destruct (Settings.globalEnabled (storedSettings w)); cbn [negb].
  2:{ intros [= <- <-]. apply (armedAreEnabled_deleted _ w Hw). }
  unfold chrome_tabs_get. rewrite bind_gets.
  destruct (openTabs w !! tabId) as [tab |].
  2:{ intros Hm.
      destruct (hoare_elim _ _ _ (stopActionOnTab_spec actionId tabId) _ _ _ Hw Hm)
        as [-> H].
      exact H. }
  pose proof (readyFor_found _ _ _ _ _ Hw Hf Hl He) as Hready.
  destruct (findAction_Some _ _ _ Hf) as [_ Hid].
  assert (Hsched : forall w0, readyFor (timerKey actionId tabId) w0 ->
            scheduleActionOnTab action tabId w0 = (r, w') ->
            match r with
            | Ok _ => armedAreEnabled w'
            | Throw _ => readyFor (timerKey actionId tabId) w'
            end).
  { intros w0 H0 Hm. rewrite <- Hid in H0.
    pose proof (hoare_elim _ _ _ (scheduleActionOnTab_spec action tabId) _ _ _ H0 Hm) as Hs.
    rewrite Hid in Hs. destruct r; [apply Hs | exact Hs]. }
  destruct (nonEmpty (Action.urlFilter action) && _); [apply Hsched, Hready |].
  rewrite bind_gets.
  unfold bind at 1. unfold tryCatch. unfold bind at 1.
  destruct (executeAction_pure injection action tab w) as [[[] | message] ->].
  - cbn [ret]. unfold Date_now. rewrite bind_gets.
    erewrite bind_ignore by apply updateActionInstance_eq.
    apply (hoare_elim _ _ _ (checkLimits_spec actionId tabId action instance
                               (storedSettings w) tab _ Hid)).
    apply readyFor_patched; [reflexivity | exact Hready].
  - destruct (MAX_RECOVERY_ATTEMPTS <=? _).
    + rewrite (bind_ok _ _ _ _ _ (stopActionOnTab_eq actionId tabId w)).
      rewrite (bind_ok _ _ _ _ _ (addLog_eq _ _)). cbn [ret]. intros [= <- <-].
      eapply armedAreEnabled_ext; [| | apply (armedAreEnabled_stopped actionId tabId w Hw)];
        reflexivity.
    + rewrite bind_modify. cbn [ret]. apply Hsched.
      eapply readyFor_ext; [| | exact Hready]; reflexivity.
Qed.

Lemma executeAndRescheduleOnTab_catch_spec actionId tabId error :
  hoare (readyFor (timerKey actionId tabId))
    (executeAndRescheduleOnTab_catch actionId tabId error)
    (fun _ w => armedAreEnabled w).
Proof.
  apply hoare_intro. intros w r w' Hw. unfold executeAndRescheduleOnTab_catch.
  rewrite bind_gets, bind_modify.
  set (w1 := setErrorRecoveryAttempts _ w).
  assert (Hw1 : readyFor (timerKey actionId tabId) w1)
    by (eapply readyFor_ext; [| | exact Hw]; reflexivity).
  clearbody w1.
  assert (Hfinal : forall w2, armedAreEnabled w2 ->
            bind (deleteTimer (timerKey actionId tabId))
              (fun _ => stopActionOnTab actionId tabId) w2 = (r, w') ->
            armedAreEnabled w').
  { intros w2 H2. unfold deleteTimer. rewrite bind_modify. intros Hm.
    apply (hoare_elim _ _ _ (stopActionOnTab_spec actionId tabId) _ _ _
             (armedAreEnabled_deleted _ w2 H2) Hm). }
  destruct (default 0 (errorRecoveryAttempts _ !! _) + 1 <? MAX_RECOVERY_ATTEMPTS).
  2:{ rewrite bind_ret. apply Hfinal, Hw1. }
  unfold bind at 1. unfold tryCatch. rewrite bind_getActions.
  destruct (findAction actionId (validActions (storedActions w1))) as [action |] eqn:Hf.
  2:{ cbn [ret]. apply Hfinal, Hw1. }
  destruct (findAction_Some _ _ _ Hf) as [_ Hid].
  rewrite <- Hid in Hw1.
  pose proof (scheduleActionOnTab_spec action tabId w1 Hw1) as Hs.
  unfold bind at 1.
  destruct (scheduleActionOnTab action tabId w1) as [[[] | e] w2]; cbn [fst snd ret] in *.
  - intros [= <- <-]. apply Hs.
  - apply Hfinal, Hs.
Qed.

Lemma executeAndRescheduleOnTab_spec injection actionId tabId :
  hoare armedAreEnabled (executeAndRescheduleOnTab injection actionId tabId) (fun _ w => armedAreEnabled w).
Proof.
  unfold executeAndRescheduleOnTab.
  eapply hoare_tryCatch.
  - apply executeAndRescheduleOnTab_try_spec.
  - intros a w H. exact H.
  - intros e. apply executeAndRescheduleOnTab_catch_spec.
Qed.

Lemma fireTimer_spec injection timerId :
  hoare armedAreEnabled (fireTimer injection timerId) (fun _ w => armedAreEnabled w).
Proof.
  apply hoare_intro. intros w r w' Hw. unfold fireTimer. rewrite bind_gets.
  destruct (pendingTimeouts w !! timerId) as [[actionId tabId] |];
    [| intros [= <- <-]; exact Hw].
  unfold clearTimeout. rewrite bind_modify.
  apply (hoare_elim armedAreEnabled _ (fun _ w => armedAreEnabled w)).
  - apply (hoare_tryCatch armedAreEnabled _ (fun _ w => armedAreEnabled w)).
    + apply executeAndRescheduleOnTab_spec.
    + auto.
    + intros e. apply hoare_ret. auto.
  - eapply armedAreEnabled_ext; [| | exact Hw]; reflexivity.
Qed.

End InvariantCycle.

Section InvariantOrchestrator.

Lemma scheduleActionOnTab_keeps action tabId w (k : string) :
  enabledIn (storedActions w) k ->
  enabledIn (storedActions (snd (scheduleActionOnTab action tabId w))) k.
Proof.
  intros H. destruct (validInterval (intervalIn w action)) eqn:Hv.
  - rewrite (scheduleActionOnTab_ok _ _ _ Hv). apply enabledIn_patched; [reflexivity | exact H].
  - rewrite (scheduleActionOnTab_throw _ _ _ Hv). exact H.
Qed.

Lemma scheduleIfEnabled_spec (S : string -> Prop) action activeCount entry :
  (Instance.enabled (snd entry) = true -> S (timerKey (Action.id action) (fst entry))) ->
  hoare (keeping S) (scheduleIfEnabled action activeCount entry) (fun _ w => keeping S w).
Proof.
  intros HS. apply hoare_intro. intros w r w' [Hw Hk]. unfold scheduleIfEnabled.
  destruct (Instance.enabled (snd entry)); [| intros [= <- <-]; split; assumption].
  specialize (HS eq_refl).
  assert (Hready : readyFor (timerKey (Action.id action) (fst entry)) w)
    by (split; [exact Hw | apply Hk, HS]).
  pose proof (scheduleActionOnTab_spec action (fst entry) w Hready) as [Hs _].
  pose proof (fun k H => scheduleActionOnTab_keeps action (fst entry) w k (Hk k H)) as Hk'.
  unfold tryCatch, bind.
  destruct (scheduleActionOnTab action (fst entry) w) as [[[] | e] w1];
    cbn [fst snd ret] in *; intros [= <- <-]; split; assumption.
Qed.

Lemma scheduleInstancesOf_spec (S : string -> Prop) activeCount action :
  (forall tabId instance,
     lookupInstance action tabId = Some instance -> Instance.enabled instance = true ->
     S (timerKey (Action.id action) tabId)) ->
  hoare (keeping S) (scheduleInstancesOf activeCount action) (fun _ w => keeping S w).
Proof.
  intros HS. unfold scheduleInstancesOf.
  destruct (Action.instances action) as [instances |] eqn:Hi.
  - apply (hoare_foldM (keeping S)). intros acc [tabId instance] Hin.
    apply scheduleIfEnabled_spec. cbn [fst snd]. intros He.
    apply (HS tabId instance); [| exact He].
    unfold lookupInstance. rewrite Hi.
    apply elem_of_map_to_list, list_elem_of_In, Hin.
  - apply hoare_ret. auto.
Qed.

Lemma initializeTimers_enabled_spec :
  hoare armedAreEnabled
    (bind getActions (fun actions =>
     bind getSettings (fun settings =>
       if negb (Settings.globalEnabled settings) then updateBadge 0
       else
         bind clearAllTimers (fun _ =>
         bind (foldM scheduleInstancesOf 0 actions) (fun activeCount =>
           updateBadge activeCount)))))
    (fun _ w => armedAreEnabled w).
Proof.
  apply hoare_intro. intros w r w' Hw.
  rewrite bind_getActions, bind_getSettings.
  destruct (Settings.globalEnabled (storedSettings w)); cbn [negb].
  2:{ intros [= <- <-]. eapply armedAreEnabled_ext; [| | exact Hw]; reflexivity. }
  unfold clearAllTimers. rewrite bind_modify.
  set (w1 := setActiveTimers ∅ _).
  assert (Hw1 : keeping (enabledIn (storedActions w)) w1).
  { split; [apply armedAreEnabled_cleared | intros k Hk; exact Hk]. }
  assert (Hactions : forall a, In a (validActions (storedActions w)) ->
            forall tabId instance,
              lookupInstance a tabId = Some instance -> Instance.enabled instance = true ->
              enabledIn (storedActions w) (timerKey (Action.id a) tabId)).
  { intros a Ha tabId instance Hl He. exists a, tabId, instance. auto. }
  clearbody w1.
  apply (hoare_elim (keeping (enabledIn (storedActions w))) _
           (fun _ w0 => armedAreEnabled w0)); [| exact Hw1].
  apply (hoare_bind _ _ (fun _ w0 => keeping (enabledIn (storedActions w)) w0)).
  - apply (hoare_foldM (keeping (enabledIn (storedActions w)))). intros acc a Ha.
    apply scheduleInstancesOf_spec, Hactions, Ha.
  - intros n w2 [H2 _]. eapply armedAreEnabled_ext; [| | exact H2]; reflexivity.
  - intros e w2 [H2 _]. exact H2.
Qed.

Lemma initializeTimers_spec :
  hoare armedAreEnabled initializeTimers (fun _ w => armedAreEnabled w).
Proof.
  apply hoare_intro. intros w r w' Hw. unfold initializeTimers. rewrite bind_gets.
  destruct (isInitialized w); [intros [= <- <-]; exact Hw |].
  rewrite bind_modify.
  apply (hoare_elim armedAreEnabled _ (fun _ w => armedAreEnabled w)).
  - apply (hoare_tryCatch armedAreEnabled _ (fun _ w => armedAreEnabled w)).
    + apply initializeTimers_enabled_spec.
    + auto.
    + intros e. apply hoare_intro. intros w0 r0 w0' Hw0. rewrite bind_modify.
      intros [= <- <-]. eapply armedAreEnabled_ext; [| | exact Hw0]; reflexivity.
  - eapply armedAreEnabled_ext; [| | exact Hw]; reflexivity.
Qed.

Lemma refreshTimers_spec :
  hoare armedAreEnabled refreshTimers (fun _ w => armedAreEnabled w).
Proof.
  apply hoare_intro. intros w r w' Hw. unfold refreshTimers. rewrite bind_modify.
  apply (hoare_elim _ _ _ initializeTimers_spec).
  eapply armedAreEnabled_ext; [| | exact Hw]; reflexivity.
Qed.

Lemma addActionInstance_total actionId tabId tabTitle w :
  (exists action r,
     findAction actionId (validActions (storedActions w)) = Some action
     /\ atInstanceLimit action tabId = false
     /\ addActionInstance actionId tabId tabTitle w
        = (Ok r, setStoredActions
                   (addedInstance actionId tabId tabTitle (clock w) (storedActions w)) w))
  \/ exists e, addActionInstance actionId tabId tabTitle w = (Throw e, w).
Proof.
  destruct (String.eqb_spec actionId "") as [Hempty | Hne].
  { right. unfold addActionInstance. rewrite Hempty. eexists. reflexivity. }
  destruct (Z.leb_spec tabId 0) as [Hneg | Hpos].
  { right. unfold addActionInstance.
    destruct (String.eqb_spec actionId ""); [contradiction |].
    destruct (Z.leb_spec tabId 0); [| lia]. eexists. reflexivity. }
  destruct (findAction actionId (validActions (storedActions w))) as [action |] eqn:Hf.
  - destruct (atInstanceLimit action tabId) eqn:Hlim.
    + right. unfold addActionInstance.
      destruct (String.eqb_spec actionId ""); [contradiction |].
      destruct (Z.leb_spec tabId 0); [lia |].
      eapply retry_throw. rewrite bind_getActions, Hf.
      fold (atInstanceLimit action tabId). rewrite Hlim. reflexivity.
    + left. destruct (addActionInstance_ok actionId tabId tabTitle w action Hne Hpos Hf Hlim)
        as [r Hr].
      exists action, r. auto.
  - right. unfold addActionInstance.
    destruct (String.eqb_spec actionId ""); [contradiction |].
    destruct (Z.leb_spec tabId 0); [lia |].
    eapply retry_throw. rewrite bind_getActions, Hf. reflexivity.
Qed.

Lemma startActionOnTab_spec actionId tabId tabTitle :
  hoare armedAreEnabled (startActionOnTab actionId tabId tabTitle)
    (fun _ w => armedAreEnabled w).
Proof.
  apply hoare_intro. intros w r w' Hw. unfold startActionOnTab, tryCatch.
  rewrite bind_getActions.
  destruct (findAction actionId (validActions (storedActions w))) as [action |] eqn:Hf;
    [| intros [= <- <-]; exact Hw].
  rewrite bind_getSettings.
  set (w1 := if Settings.globalEnabled (storedSettings w) then w
             else setIsInitialized false
                    (setStoredSettings
                       (mergeSettings (storedSettings w) (SettingsPatch.mk (Some true) None None))
                       w)).
  match goal with |- context [bind ?m ?k w] => assert (H1 : m w = (Ok tt, w1)) end.
  { unfold w1. destruct (Settings.globalEnabled (storedSettings w)); reflexivity. }
  rewrite (bind_ok _ _ _ _ _ H1).
  assert (Hs1 : storedActions w1 = storedActions w /\ activeTimers w1 = activeTimers w).
  { unfold w1. destruct (Settings.globalEnabled (storedSettings w)); split; reflexivity. }
  destruct Hs1 as [Hs1 Ht1].
  assert (Hw1 : armedAreEnabled w1) by (eapply armedAreEnabled_ext; eauto).
  rewrite <- Hs1 in Hf. clearbody w1. clear w Hw H1 Hs1 Ht1.
  match goal with |- context [bind ?m ?k w1] =>
    assert (H2 : exists title, m w1 = (Ok title, w1)) end.
  { destruct (nonEmpty tabTitle); [eexists; reflexivity |].
    unfold chrome_tabs_get. rewrite bind_gets. eexists; reflexivity. }
  destruct H2 as [title H2]. rewrite (bind_ok _ _ _ _ _ H2).
  destruct (addActionInstance_total actionId tabId title w1)
    as [(action' & r0 & Hf' & Hlim & Hadd) | [e Hadd]].
  2:{ rewrite (bind_throw _ _ _ _ _ Hadd). intros [= <- <-]. exact Hw1. }
  rewrite (bind_ok _ _ _ _ _ Hadd).
  set (w2 := setStoredActions _ w1).
  destruct (findAction_Some _ _ _ Hf) as [_ Hid].
  assert (Hw2 : readyFor (timerKey (Action.id action) tabId) w2).
  { rewrite Hid. split.
    - intros k ti Hk. unfold w2. cbn [storedActions setStoredActions].
      eapply enabledIn_added; eauto.
    - unfold w2. cbn [storedActions setStoredActions].
      eapply enabledIn_added; eauto. }
  clearbody w2.
  pose proof (scheduleActionOnTab_spec action tabId w2 Hw2) as [Hs _].
  unfold bind at 1.
  destruct (scheduleActionOnTab action tabId w2) as [[[] | e] w3]; cbn [fst snd] in *.
  - rewrite (bind_ok _ _ _ _ _ (refreshBadge_eq w3)). cbn [ret]. intros [= <- <-].
    eapply armedAreEnabled_ext; [| | exact Hs]; reflexivity.
  - intros [= <- <-]. exact Hs.
Qed.

Lemma toggleGlobal_spec :
  hoare armedAreEnabled toggleGlobal (fun _ w => armedAreEnabled w).
Proof.
  apply hoare_intro. intros w r w' Hw. unfold toggleGlobal. rewrite bind_getSettings.
  rewrite (bind_ok _ _ _ _ _ (saveSettings_globalEnabled _ w)).
  set (w1 := setStoredSettings _ w).
  assert (Hw1 : armedAreEnabled w1)
    by (eapply armedAreEnabled_ext; [| | exact Hw]; reflexivity).
  clearbody w1.
  apply (hoare_elim armedAreEnabled _ (fun _ w => armedAreEnabled w)); [| exact Hw1].
  apply (hoare_bind armedAreEnabled _ (fun _ w => armedAreEnabled w)).
  - destruct (negb (Settings.globalEnabled (storedSettings w))).
    + apply hoare_intro. intros w2 r2 w2' Hw2. rewrite bind_modify.
      apply (hoare_elim _ _ _ initializeTimers_spec).
      eapply armedAreEnabled_ext; [| | exact Hw2]; reflexivity.
    + apply hoare_intro. intros w2 r2 w2' Hw2. unfold clearAllTimers.
      rewrite bind_modify. intros [= <- <-].
      eapply armedAreEnabled_ext; [| | apply armedAreEnabled_cleared]; reflexivity.
  - intros u. apply hoare_ret. auto.
  - auto.
Qed.

Lemma step_preserves w w' : step w w' -> armedAreEnabled w -> armedAreEnabled w'.
Proof.
  intros Hstep Hw. destruct Hstep.
  - apply initializeTimers_spec, Hw.
  - apply refreshTimers_spec, Hw.
  - apply startActionOnTab_spec, Hw.
  - apply stopActionOnTab_spec, Hw.
  - apply toggleGlobal_spec, Hw.
  - apply fireTimer_spec, Hw.
  - eapply armedAreEnabled_ext; [| | exact Hw]; reflexivity.
Qed.

Lemma reachable_armedAreEnabled w : reachable w -> armedAreEnabled w.
Proof.
  induction 1 as [w Hempty | w w' _ IH Hstep].
  - intros k ti. rewrite Hempty, lookup_empty. discriminate.
  - exact (step_preserves _ _ Hstep IH).
Qed.

Lemma elem_of_enabledKeys w (k : string) :
  k ∈ enabledKeys w <-> enabledIn (storedActions w) k.
Proof.
  unfold enabledKeys, enabledIn. rewrite elem_of_list_to_set, list_elem_of_In, in_flat_map.
  split.
  - intros (a & Ha & Hk). apply list_elem_of_In, list_elem_of_fmap in Hk.
    destruct Hk as (t & -> & Ht). unfold enabledTabs in Ht.
    destruct (Action.instances a) as [instances |] eqn:Hi;
      [| apply elem_of_nil in Ht; contradiction].
    apply list_elem_of_fmap in Ht. destruct Ht as ([t' i] & -> & Hti).
    apply list_elem_of_In, List.filter_In in Hti. destruct Hti as [Hti He].
    apply list_elem_of_In, elem_of_map_to_list in Hti.
    exists a, t', i. unfold lookupInstance. rewrite Hi. auto.
  - intros (a & t & i & Ha & Hl & He & ->). exists a. split; [exact Ha |].
    apply list_elem_of_In, list_elem_of_fmap. exists t. split; [reflexivity |].
    unfold enabledTabs, lookupInstance in *.
    destruct (Action.instances a) as [instances |]; [| discriminate].
    apply list_elem_of_fmap. exists (t, i). split; [reflexivity |].
    apply list_elem_of_In, List.filter_In. split; [| exact He].
    apply list_elem_of_In, elem_of_map_to_list, Hl.
Qed.

Lemma armedAreEnabled_subset w : armedAreEnabled w <-> armedKeys w ⊆ enabledKeys w.
Proof.
  split.
  - intros H k Hk. apply elem_of_enabledKeys.
    unfold armedKeys in Hk. apply elem_of_dom in Hk. destruct Hk as [ti Hk].
    exact (H k ti Hk).
  - intros H k ti Hk. apply elem_of_enabledKeys, H. unfold armedKeys.
    apply elem_of_dom. exists ti. exact Hk.
Qed.

(** C7 (amended): the operations [initializeTimers], [REFRESH_TIMERS],
    [startActionOnTab], [stopActionOnTab], [toggleGlobal] and the firing
    of a timer, each run to completion on its own, keep the armed keys
    among the enabled keys: started in a world where every key with an
    entry in the timer registry is the key of an instance with
    [enabled = true], each of them ends in such a world. Equality of the
    two sets is not kept, and the inclusion is not an invariant of the
    whole program: a storage write from outside the service worker, or
    an operation that overlaps another one, can break it. *)
Theorem armed_subset_enabled (w w' : World) :
  armedKeys w ⊆ enabledKeys w -> step w w' -> armedKeys w' ⊆ enabledKeys w'.
Proof.
  intros Hw Hstep. apply armedAreEnabled_subset.
  apply (step_preserves w w' Hstep). apply armedAreEnabled_subset, Hw.
Qed.

(** C7, witness: starting ["a1"] on tab 42 in a world without timers. *)
Lemma armed_subset_enabled_witness :
  (armedKeys idleWorld ⊆ enabledKeys idleWorld)
  /\ step idleWorld (run (startActionOnTab "a1" 42 None) idleWorld)
  /\ (armedKeys (run (startActionOnTab "a1" 42 None) idleWorld)
      ⊆ enabledKeys (run (startActionOnTab "a1" 42 None) idleWorld))
  /\ (timerKey "a1" 42 ∈ armedKeys (run (startActionOnTab "a1" 42 None) idleWorld)).
Proof.
  assert (H1 : armedKeys idleWorld ⊆ enabledKeys idleWorld) by decide_closed.
  assert (H2 : step idleWorld (run (startActionOnTab "a1" 42 None) idleWorld))
    by apply step_startActionOnTab.
  split; [exact H1 |]. split; [exact H2 |].
  split; [exact (armed_subset_enabled _ _ H1 H2) | decide_closed].
Defined.

(** The inclusion does not survive a storage write from outside: after
    an import that removes the instance of [(a1, 42)] and disables
    scheduling, the ['REFRESH_TIMERS'] message the popup sends returns at
    the guard of [initializeTimers], and the timer of the pair stays
    armed without an enabled instance. *)
Lemma outside_write_breaks_inclusion :
  (armedKeys armedWorld ⊆ enabledKeys armedWorld)
  /\ (timerKey "a1" 42 ∈ armedKeys (run refreshTimers importedWorld))
  /\ (timerKey "a1" 42 ∉ enabledKeys (run refreshTimers importedWorld))
  /\ ~ (armedKeys (run refreshTimers importedWorld)
        ⊆ enabledKeys (run refreshTimers importedWorld)).
Proof.
  assert (H1 : timerKey "a1" 42 ∈ armedKeys (run refreshTimers importedWorld))
    by decide_closed.
  assert (H2 : timerKey "a1" 42 ∉ enabledKeys (run refreshTimers importedWorld))
    by decide_closed.
  split; [decide_closed |]. split; [exact H1 |]. split; [exact H2 |].
  intros H. exact (H2 (H _ H1)).
Qed.

End InvariantOrchestrator.

Section Scenarios.

(** C2: two failed dispatches, a successful one, then a failed one, for
    [(a1, 42)]. The success stores the new execution count and leaves the
    recovery counter at 2; the failure that follows is counted as the
    third, and the pair is aborted. *)
Theorem success_keeps_recovery_counter :
  let failed2 := twiceFailedWorld in
  let succeeded := run (fireTimer None 3) failed2 in
  let failed3 := run (fireTimer (Some "boom") 4) succeeded in
  errorRecoveryAttempts failed2 !! timerKey "a1" 42 = Some 2
  /\ Instance.executionCount <$> storedInstance "a1" 42 failed2 = Some 0
  /\ Instance.executionCount <$> storedInstance "a1" 42 succeeded = Some 1
  /\ errorRecoveryAttempts succeeded !! timerKey "a1" 42 = Some 2
  /\ storedInstance "a1" 42 failed3 = None
  /\ activeTimers failed3 = ∅
  /\ LogEntry.error <$> storedLogs failed3
     = [Some "Max recovery attempts reached: Script injection failed: boom"].
Proof. cbv zeta. conj_compute. Qed.

(** C3, counterexample: a cycle on a tab that shows
    [chrome://settings/] raises the stored execution count from 0 to 1,
    and for an action with [repeatLimit = 1] it stops the instance with
    the completion notification of the repeat limit. *)
Lemma restricted_tab_is_counted :
  dispatchReady "a1" 42 restrictedWorld (actionIn restrictedWorld)
    (instanceIn restrictedWorld)
    (Tab.mk 42 (Some "chrome://settings/") (Some "Settings"))
  /\ isRestrictedUrl "chrome://settings/" = true
  /\ Instance.executionCount <$> storedInstance "a1" 42 restrictedWorld = Some 0
  /\ Instance.executionCount
       <$> storedInstance "a1" 42
             (run (executeAndRescheduleOnTab (Some "unused") "a1" 42) restrictedWorld)
     = Some 1
  /\ storedInstance "a1" 42
       (run (executeAndRescheduleOnTab (Some "unused") "a1" 42) restrictedOnceWorld)
     = None
  /\ shown (run (executeAndRescheduleOnTab (Some "unused") "a1" 42) restrictedOnceWorld)
     = [completionNotice "Press A" "1 executions on tab"].
Proof.
  conj_compute.
Qed.

(** C3, witness: [restrictedWorld]. *)
Lemma restricted_tab_counts_as_success_witness :
  dispatchReady "a1" 42 restrictedWorld (actionIn restrictedWorld)
    (instanceIn restrictedWorld)
    (Tab.mk 42 (Some "chrome://settings/") (Some "Settings"))
  /\ truthy 42 = true
  /\ isRestrictedUrl "chrome://settings/" = true
  /\ executeAndRescheduleOnTab (Some "unused") "a1" 42 restrictedWorld
     = executeAndRescheduleOnTab None "a1" 42 restrictedWorld.
Proof.
  assert (H : dispatchReady "a1" 42 restrictedWorld (actionIn restrictedWorld)
                (instanceIn restrictedWorld)
                (Tab.mk 42 (Some "chrome://settings/") (Some "Settings")))
    by conj_compute.
  split; [exact H |]. split; [reflexivity |]. split; [reflexivity |].
  exact (proj1 (proj2 (restricted_tab_counts_as_success (Some "unused") "a1" 42
                         restrictedWorld _ _ _ H eq_refl eq_refl))).
Defined.

(** C5, witness: the third failed injection in a row, in the world two
    failed firings leave behind. *)
Lemma third_failure_aborts_witness :
  dispatchReady "a1" 42 twiceFailedWorld (actionIn twiceFailedWorld)
    (instanceIn twiceFailedWorld) (webTab 42)
  /\ executeAction (Some "boom") (actionIn twiceFailedWorld) (webTab 42) twiceFailedWorld
     = (Throw "Script injection failed: boom", twiceFailedWorld)
  /\ errorRecoveryAttempts twiceFailedWorld !! timerKey "a1" 42 = Some 2
  /\ (1 <= Settings.maxLogs (storedSettings twiceFailedWorld))%nat
  /\ storedInstance "a1" 42
       (run (executeAndRescheduleOnTab (Some "boom") "a1" 42) twiceFailedWorld)
     = None.
Proof.
  assert (H1 : dispatchReady "a1" 42 twiceFailedWorld (actionIn twiceFailedWorld)
                 (instanceIn twiceFailedWorld) (webTab 42))
    by conj_compute.
  assert (H2 : executeAction (Some "boom") (actionIn twiceFailedWorld) (webTab 42)
                 twiceFailedWorld
               = (Throw "Script injection failed: boom", twiceFailedWorld))
    by reflexivity.
  assert (H3 : errorRecoveryAttempts twiceFailedWorld !! timerKey "a1" 42 = Some 2)
    by (vm_compute; reflexivity).
  assert (H4 : (1 <= Settings.maxLogs (storedSettings twiceFailedWorld))%nat)
    by (vm_compute; lia).
  split; [exact H1 |]. split; [exact H2 |]. split; [exact H3 |]. split; [exact H4 |].
  exact (proj1 (proj2 (third_failure_aborts (Some "boom") _ "a1" 42 twiceFailedWorld _ _ _
                         H1 H2 H3 H4))).
Defined.

(** C6, counterexample: the action draws its delay from 50..150 ms and
    [Math.random()] returns 0.01 twice. The dispatch succeeds and no
    limit is set, yet the interval of 51 ms is refused, so is the one of
    the recovery attempt, and the instance is removed without a timer. *)
Lemma unlimited_success_not_rescheduled :
  dispatchReady "a1" 42 jitterWorld (actionIn jitterWorld) (instanceIn jitterWorld)
    (webTab 42)
  /\ executeAction None (actionIn jitterWorld) (webTab 42) jitterWorld = (Ok tt, jitterWorld)
  /\ Action.repeatLimit (actionIn jitterWorld) = None
  /\ Action.timeLimit (actionIn jitterWorld) = None
  /\ is_Some (activeTimers jitterWorld !! timerKey "a1" 42)
  /\ storedInstance "a1" 42 (run (executeAndRescheduleOnTab None "a1" 42) jitterWorld) = None
  /\ activeTimers (run (executeAndRescheduleOnTab None "a1" 42) jitterWorld)
       !! timerKey "a1" 42 = None
  /\ nextTimerId (run (executeAndRescheduleOnTab None "a1" 42) jitterWorld)
     = nextTimerId jitterWorld.
Proof.
  unfold dispatchReady.
  repeat match goal with |- _ /\ _ => split end;
    try (vm_compute; reflexivity).
  vm_compute. eexists. reflexivity.
Qed.

(** C6, witness: the action with [repeatLimit = 1]. *)
Lemma limits_after_success_witness :
  dispatchReady "a1" 42 restrictedOnceWorld (actionIn restrictedOnceWorld)
    (instanceIn restrictedOnceWorld)
    (Tab.mk 42 (Some "chrome://settings/") (Some "Settings"))
  /\ executeAction None (actionIn restrictedOnceWorld)
       (Tab.mk 42 (Some "chrome://settings/") (Some "Settings")) restrictedOnceWorld
     = (Ok tt, restrictedOnceWorld)
  /\ repeatLimitReached (actionIn restrictedOnceWorld)
       (Instance.executionCount (instanceIn restrictedOnceWorld) + 1) = true
  /\ completedWith
       (completionNotice (Action.name (actionIn restrictedOnceWorld))
          (pretty (Instance.executionCount (instanceIn restrictedOnceWorld) + 1)
           +:+ " executions on tab"))
       "a1" 42 restrictedOnceWorld
       (run (executeAndRescheduleOnTab None "a1" 42) restrictedOnceWorld).
Proof.
  assert (H1 : dispatchReady "a1" 42 restrictedOnceWorld (actionIn restrictedOnceWorld)
                 (instanceIn restrictedOnceWorld)
                 (Tab.mk 42 (Some "chrome://settings/") (Some "Settings")))
    by conj_compute.
  assert (H2 : executeAction None (actionIn restrictedOnceWorld)
                 (Tab.mk 42 (Some "chrome://settings/") (Some "Settings"))
                 restrictedOnceWorld
               = (Ok tt, restrictedOnceWorld)) by reflexivity.
  assert (H3 : repeatLimitReached (actionIn restrictedOnceWorld)
                 (Instance.executionCount (instanceIn restrictedOnceWorld) + 1) = true)
    by (vm_compute; reflexivity).
  repeat (split; [assumption |]).
  exact (proj1 (limits_after_success None "a1" 42 restrictedOnceWorld _ _ _ H1 H2) H3).
Defined.

(** C10, witness: the action holds five instances; the one on tab 3 has
    run seven times. *)
Lemma startActionOnTab_recreates_witness :
  findAction "a1" (validActions (storedActions fullWorld)) = Some fullAction
  /\ lookupInstance fullAction 3 = Some (instanceAt 1000 7)
  /\ size (default ∅ (Action.instances fullAction)) = MAX_INSTANCES_PER_ACTION
  /\ 0 < 3
  /\ fst (startActionOnTab "a1" 3 None fullWorld) = Ok Started.
Proof.
  assert (H1 : findAction "a1" (validActions (storedActions fullWorld)) = Some fullAction)
    by (vm_compute; reflexivity).
  assert (H2 : lookupInstance fullAction 3 = Some (instanceAt 1000 7))
    by (vm_compute; reflexivity).
  split; [exact H1 |]. split; [exact H2 |]. split; [vm_compute; reflexivity |].
  split; [lia |].
  apply (proj2 (startActionOnTab_recreates "a1" 3 None fullWorld _ _ H1 H2 eq_refl)).
  vm_compute. reflexivity.
Defined.

(** C7, counterexample: after a start on tab 42 and a global toggle, the
    instance is still enabled and no timer is armed. *)
Lemma paused_instances_stay_enabled :
  reachable pausedWorld
  /\ (timerKey "a1" 42 ∈ enabledKeys pausedWorld)
  /\ (timerKey "a1" 42 ∉ armedKeys pausedWorld)
  /\ armedKeys pausedWorld <> enabledKeys pausedWorld.
Proof.
  assert (H1 : timerKey "a1" 42 ∈ enabledKeys pausedWorld) by decide_closed.
  assert (H2 : timerKey "a1" 42 ∉ armedKeys pausedWorld) by decide_closed.
  split; [| split; [exact H1 | split; [exact H2 |]]].
  - unfold pausedWorld.
    apply reachable_step with (w := run (startActionOnTab "a1" 42 None) idleWorld);
      [| apply step_toggleGlobal].
    apply reachable_step with (w := idleWorld); [| apply step_startActionOnTab].
    apply reachable_start. reflexivity.
  - intros Heq. rewrite Heq in H2. contradiction.
Qed.

End Scenarios.

(** * Further properties of the storage and the orchestrator *)

Section StoredActions.

Lemma retry_throw_message {A : Type} (operationId : string) (operation : M A) w e :
  operation w = (Throw e, w) ->
  executeWithRetry operationId operation w = (Throw (retryError operationId), w).
Proof.
  intros H. unfold executeWithRetry, MAX_RETRY_ATTEMPTS. simpl.
  unfold tryCatch, throw. rewrite !H. reflexivity.
Qed.

Lemma firstInvalid_None (l : list Action.t) :
  firstInvalid l = None -> Forall (fun a => isValid a = true) l.
Proof.
  induction l as [| a l IH]; simpl; [constructor |].
  destruct (validateAction a) eqn:E; [discriminate |].
  intros H. constructor; [unfold isValid; rewrite E; reflexivity | apply IH, H].
Qed.

(** X1: [saveActions] followed by [getActions] is a round trip. When
    every action of the array passes [validateAction], the array is
    stored and [getActions] returns exactly it; otherwise [saveActions]
    throws the first validation error and stores nothing. *)
Theorem saveActions_then_getActions (actions : list Action.t) (w : World) :
  match firstInvalid actions with
  | None =>
      saveActions actions w = (Ok tt, setStoredActions actions w)
      /\ getActions (setStoredActions actions w) = (Ok actions, setStoredActions actions w)
  | Some e => saveActions actions w = (Throw e, w)
  end.
Proof.
  destruct (firstInvalid actions) as [e |] eqn:E.
  - unfold saveActions. rewrite E. reflexivity.
  - pose proof (firstInvalid_None _ E) as Hall. split.
    + apply saveActions_eq, Hall.
    + rewrite getActions_eq. cbn [storedActions setStoredActions].
      rewrite (validActions_fixed _ Hall). reflexivity.
Qed.

Lemma hasId_findAction actionId (l : list Action.t) :
  hasId actionId l = false <-> findAction actionId l = None.
Proof.
  unfold hasId, findAction. induction l as [| a l IH]; simpl; [tauto |].
  destruct (String.eqb (Action.id a) actionId); simpl; [split; discriminate | exact IH].
Qed.

Lemma findAction_app actionId (l l' : list Action.t) :
  findAction actionId (l ++ l')
  = match findAction actionId l with
    | Some a => Some a
    | None => findAction actionId l'
    end.
Proof.
  unfold findAction. induction l as [| a l IH]; simpl; [reflexivity |].
  destruct (String.eqb (Action.id a) actionId); [reflexivity | exact IH].
Qed.

Lemma findAction_None_not_in actionId (l : list Action.t) :
  findAction actionId l = None -> ~ In actionId (Action.id <$> l).
Proof.
  unfold findAction. induction l as [| a l IH]; simpl; [tauto |].
  destruct (String.eqb_spec (Action.id a) actionId); [discriminate |].
  intros H [Heq | Hin]; [contradiction | exact (IH H Hin)].
Qed.

(** X2: [addAction] of a valid action whose id is not in use appends it
    to what [getActions] returns and stores the result: [getActions] then
    returns that array, the new action is found under its id, every other
    id finds what it found before, and the ids stay pairwise distinct if
    they were. *)
Theorem addAction_stores (action : Action.t) (w : World) :
  validateAction action = None ->
  findAction (Action.id action) (validActions (storedActions w)) = None ->
  let stored := (validActions (storedActions w) ++ [action])%list in
  addAction action w = (Ok stored, setStoredActions stored w)
  /\ getActions (run (addAction action) w) = (Ok stored, run (addAction action) w)
  /\ findAction (Action.id action) stored = Some action
  /\ (forall actionId,
        actionId <> Action.id action ->
        findAction actionId stored = findAction actionId (validActions (storedActions w)))
  /\ (uniqueIds (validActions (storedActions w)) -> uniqueIds stored).
Proof.
  intros Hvalid Hfresh stored.
  assert (Hall : Forall (fun a => isValid a = true) stored).
  { apply Forall_app. split; [apply validActions_Forall |].
    constructor; [unfold isValid; rewrite Hvalid; reflexivity | constructor]. }
  assert (Hrun : addAction action w = (Ok stored, setStoredActions stored w)).
  { unfold addAction. rewrite Hvalid. apply retry_ok.
    rewrite bind_getActions.
    rewrite (proj2 (hasId_findAction _ _) Hfresh).
    rewrite (bind_ok _ _ _ _ _ (saveActions_eq _ w Hall)). reflexivity. }
  split; [exact Hrun |]. split.
  { unfold run. rewrite Hrun. cbn [snd]. rewrite getActions_eq.
    cbn [storedActions setStoredActions]. rewrite (validActions_fixed _ Hall). reflexivity. }
  split.
  { unfold stored. rewrite findAction_app, Hfresh. unfold findAction. simpl.
    rewrite String.eqb_refl. reflexivity. }
  split.
  { intros actionId Hne. unfold stored. rewrite findAction_app.
    destruct (findAction actionId (validActions (storedActions w))); [reflexivity |].
    unfold findAction. simpl.
    destruct (String.eqb_spec (Action.id action) actionId); [congruence | reflexivity]. }
  intros Hu. unfold uniqueIds, stored in *. rewrite fmap_app. simpl.
  apply NoDup_app. split; [exact Hu |]. split.
  - intros x Hx Hx'. apply list_elem_of_singleton in Hx'. subst x.
    apply (findAction_None_not_in _ _ Hfresh). apply list_elem_of_In, Hx.
  - apply NoDup_singleton.
Qed.

Lemma addAction_stores_witness :
  validateAction (plainAction "a2") = None
  /\ findAction "a2" (validActions (storedActions oneActionWorld)) = None
  /\ findAction "a2" (validActions (storedActions (run (addAction (plainAction "a2"))
                                                    oneActionWorld)))
     = Some (plainAction "a2").
Proof.
  assert (H1 : validateAction (plainAction "a2") = None) by reflexivity.
  assert (H2 : findAction (Action.id (plainAction "a2"))
                 (validActions (storedActions oneActionWorld)) = None) by reflexivity.
  split; [exact H1 |]. split; [exact H2 |].
  pose proof (addAction_stores (plainAction "a2") oneActionWorld H1 H2) as (Hrun & _ & Hf & _).
  unfold run. rewrite Hrun. cbn [snd storedActions setStoredActions].
  rewrite validActions_fixed; [exact Hf |].
  apply Forall_app. split; [apply validActions_Forall |].
  constructor; [reflexivity | constructor].
Defined.

(** X3: [addAction] of a valid action whose id is already in use
    stores nothing. The duplicate error is raised inside
    [executeWithRetry], so the caller receives the storage error of the
    exhausted retries. *)
Theorem addAction_rejects_duplicate (action other : Action.t) (w : World) :
  validateAction action = None ->
  findAction (Action.id action) (validActions (storedActions w)) = Some other ->
  addAction action w = (Throw (retryError "addAction"), w).
Proof.
  intros Hvalid Hdup. unfold addAction. rewrite Hvalid.
  apply (retry_throw_message _ _ _
           ("Action with id " +:+ Action.id action +:+ " already exists")).
  rewrite bind_getActions.
  destruct (hasId (Action.id action) (validActions (storedActions w))) eqn:E;
    [reflexivity |].
  apply hasId_findAction in E. congruence.
Qed.

Lemma addAction_rejects_duplicate_witness :
  validateAction (plainAction "a1") = None
  /\ findAction "a1" (validActions (storedActions oneActionWorld))
     = Some (actionIn oneActionWorld)
  /\ addAction (plainAction "a1") oneActionWorld
     = (Throw "Operation addAction failed after 3 attempts", oneActionWorld).
Proof.
  assert (H1 : validateAction (plainAction "a1") = None) by reflexivity.
  assert (H2 : findAction (Action.id (plainAction "a1"))
                 (validActions (storedActions oneActionWorld))
               = Some (actionIn oneActionWorld)) by reflexivity.
  split; [exact H1 |]. split; [exact H2 |].
  exact (addAction_rejects_duplicate (plainAction "a1") _ oneActionWorld H1 H2).
Defined.

End StoredActions.

Section StoredInstancesLimit.

Lemma findAction_filter_other actionId actionId' (l : list Action.t) :
  actionId' <> actionId ->
  findAction actionId'
    (List.filter (fun a => negb (String.eqb (Action.id a) actionId)) l)
  = findAction actionId' l.
Proof.
  intros Hne. unfold findAction. induction l as [| a l IH]; [reflexivity |].
  simpl. destruct (String.eqb_spec (Action.id a) actionId) as [Heq | Hneq]; simpl.
  - destruct (String.eqb_spec (Action.id a) actionId'); [congruence | exact IH].
  - destruct (String.eqb (Action.id a) actionId'); [reflexivity | exact IH].
Qed.

Lemma findAction_filter_same actionId (l : list Action.t) :
  findAction actionId
    (List.filter (fun a => negb (String.eqb (Action.id a) actionId)) l) = None.
Proof.
  unfold findAction. induction l as [| a l IH]; [reflexivity |].
  simpl. destruct (String.eqb (Action.id a) actionId) eqn:E; simpl; [exact IH |].
  rewrite E. exact IH.
Qed.

(** X4: [deleteAction] with a non-empty id removes every action with
    that id from what [getActions] returns and leaves the lookup of every
    other id unchanged; it touches neither the timer registry nor the
    pending timers. *)
Theorem deleteAction_removes (actionId : string) (w : World) :
  actionId <> "" ->
  let filtered :=
    List.filter (fun a => negb (String.eqb (Action.id a) actionId))
      (validActions (storedActions w)) in
  deleteAction actionId w = (Ok filtered, setStoredActions filtered w)
  /\ findAction actionId (validActions filtered) = None
  /\ (forall other,
        other <> actionId ->
        findAction other (validActions filtered)
        = findAction other (validActions (storedActions w)))
  /\ activeTimers (run (deleteAction actionId) w) = activeTimers w
  /\ pendingTimeouts (run (deleteAction actionId) w) = pendingTimeouts w.
Proof.
  intros Hne filtered.
  assert (Hall : Forall (fun a => isValid a = true) filtered).
  { apply List.Forall_forall. intros a Ha. apply List.filter_In in Ha.
    destruct Ha as [Ha _]. apply List.filter_In in Ha. tauto. }
  assert (Hrun : deleteAction actionId w = (Ok filtered, setStoredActions filtered w)).
  { unfold deleteAction. destruct (String.eqb_spec actionId ""); [contradiction |].
    apply retry_ok. rewrite bind_getActions.
    rewrite (bind_ok _ _ _ _ _ (saveActions_eq _ w Hall)). reflexivity. }
  split; [exact Hrun |]. rewrite (validActions_fixed _ Hall).
  split; [apply findAction_filter_same |].
  split; [intros other Ho; apply findAction_filter_other, Ho |].
  unfold run. rewrite Hrun. split; reflexivity.
Qed.

Lemma deleteAction_removes_witness :
  "a1" <> ""
  /\ findAction "a1" (validActions (storedActions armedWorld)) <> None
  /\ findAction "a1" (validActions (storedActions (run (deleteAction "a1") armedWorld))) = None
  /\ activeTimers (run (deleteAction "a1") armedWorld) = activeTimers armedWorld.
Proof.
  assert (H : "a1" <> "") by discriminate.
  split; [exact H |]. split; [vm_compute; discriminate |].
  pose proof (deleteAction_removes "a1" armedWorld H) as (Hrun & Hnone & _ & Ht & _).
  split; [| exact Ht].
  unfold run. rewrite Hrun. exact Hnone.
Defined.

(** X5: an action that already has [MAX_INSTANCES_PER_ACTION]
    instances accepts no further tab: [addActionInstance] throws and
    stores nothing, and [startActionOnTab] answers with the error code
    [START_ERROR], leaving the stored actions, the timer registry and the
    pending timers as they were. *)
Theorem addActionInstance_refuses_sixth_tab (actionId : string) (tabId : Z)
    (tabTitle : string) (startTitle : option string) (w : World)
    (action : Action.t) (instances : gmap Z Instance.t) :
  findAction actionId (validActions (storedActions w)) = Some action ->
  Action.instances action = Some instances ->
  (MAX_INSTANCES_PER_ACTION <= size instances)%nat ->
  instances !! tabId = None ->
  0 < tabId ->
  addActionInstance actionId tabId tabTitle w
  = (Throw (retryError "addActionInstance"), w)
  /\ fst (startActionOnTab actionId tabId startTitle w)
     = Ok (StartError (retryError "addActionInstance") "START_ERROR")
  /\ storedActions (run (startActionOnTab actionId tabId startTitle) w) = storedActions w
  /\ activeTimers (run (startActionOnTab actionId tabId startTitle) w) = activeTimers w
  /\ pendingTimeouts (run (startActionOnTab actionId tabId startTitle) w)
     = pendingTimeouts w.
Proof.
  intros Hf Hi Hsize Hnone Hpos.
  pose proof (findAction_Some _ _ _ Hf) as [_ Hid].
  pose proof (isValid_id _ (found_valid _ _ _ Hf)) as Hne. rewrite Hid in Hne.
  assert (Hlim : atInstanceLimit action tabId = true).
  { unfold atInstanceLimit. rewrite Hi.
    change (default ∅ (Some instances)) with instances. rewrite Hnone.
    apply andb_true_iff. split; [apply Nat.leb_le, Hsize |].
    apply negb_true_iff, bool_decide_eq_false. intros [x Hx]. discriminate. }
  assert (Hadd : forall title w0,
            storedActions w0 = storedActions w ->
            addActionInstance actionId tabId title w0
            = (Throw (retryError "addActionInstance"), w0)).
  { intros title w0 Hs0. unfold addActionInstance.
    destruct (String.eqb_spec actionId ""); [contradiction |].
    destruct (Z.leb_spec tabId 0); [lia |].
    apply (retry_throw_message _ _ _
             ("Max " +:+ pretty MAX_INSTANCES_PER_ACTION +:+ " tabs per action")).
    rewrite bind_getActions, Hs0, Hf.
    fold (atInstanceLimit action tabId). rewrite Hlim. reflexivity. }
  split; [apply Hadd; reflexivity |].
  unfold run, startActionOnTab, tryCatch.
  rewrite bind_getActions, Hf, bind_getSettings.
  set (w1 := if Settings.globalEnabled (storedSettings w) then w
             else setIsInitialized false
                    (setStoredSettings
                       (mergeSettings (storedSettings w) (SettingsPatch.mk (Some true) None None))
                       w)).
  match goal with |- context [bind ?m ?k w] =>
    assert (H1 : m w = (Ok tt, w1)) end.
  { unfold w1. destruct (Settings.globalEnabled (storedSettings w)); reflexivity. }
  rewrite (bind_ok _ _ _ _ _ H1).
  assert (Hs1 : storedActions w1 = storedActions w
                /\ activeTimers w1 = activeTimers w
                /\ pendingTimeouts w1 = pendingTimeouts w).
  { unfold w1. destruct (Settings.globalEnabled (storedSettings w)); repeat split. }
  destruct Hs1 as (Hs1 & Ht1 & Hp1).
  match goal with |- context [bind ?m ?k w1] =>
    assert (H2 : exists title, m w1 = (Ok title, w1)) end.
  { destruct (nonEmpty startTitle); [eexists; reflexivity |].
    unfold chrome_tabs_get. rewrite bind_gets. eexists; reflexivity. }
  destruct H2 as [title H2]. rewrite (bind_ok _ _ _ _ _ H2).
  rewrite (bind_throw _ _ _ _ _ (Hadd title w1 Hs1)). cbn [ret fst snd].
  auto.
Qed.

Lemma addActionInstance_refuses_sixth_tab_witness :
  findAction "a1" (validActions (storedActions fullWorld)) = Some fullAction
  /\ Action.instances fullAction
     = Some (default ∅ (Action.instances fullAction))
  /\ (MAX_INSTANCES_PER_ACTION <= size (default ∅ (Action.instances fullAction)))%nat
  /\ default ∅ (Action.instances fullAction) !! 6 = None
  /\ 0 < 6
  /\ fst (startActionOnTab "a1" 6 None fullWorld)
     = Ok (StartError (retryError "addActionInstance") "START_ERROR").
Proof.
  assert (H1 : findAction "a1" (validActions (storedActions fullWorld)) = Some fullAction)
    by (vm_compute; reflexivity).
  assert (H2 : Action.instances fullAction
               = Some (default ∅ (Action.instances fullAction))) by reflexivity.
  assert (H3 : (MAX_INSTANCES_PER_ACTION
                <= size (default ∅ (Action.instances fullAction)))%nat)
    by (vm_compute; lia).
  assert (H4 : default ∅ (Action.instances fullAction) !! 6 = None)
    by (vm_compute; reflexivity).
  split; [exact H1 |]. split; [exact H2 |]. split; [exact H3 |].
  split; [exact H4 |]. split; [lia |].
  exact (proj1 (proj2 (addActionInstance_refuses_sixth_tab "a1" 6 "" None fullWorld _ _
                         H1 H2 H3 H4 eq_refl))).
Defined.

End StoredInstancesLimit.

Section InstancesSettingsLogs.

Lemma updateFound_compose actionId f g (l : list Action.t) :
  (forall a, Action.id (f a) = Action.id a) ->
  updateFound actionId g (updateFound actionId f l)
  = updateFound actionId (fun a => g (f a)) l.
Proof.
  intros Hid. induction l as [| a l IH]; [reflexivity |].
  simpl. destruct (String.eqb (Action.id a) actionId) eqn:E; simpl.
  - rewrite Hid, E. reflexivity.
  - rewrite E, IH. reflexivity.
Qed.

Lemma updateFound_fixed actionId f (l : list Action.t) action :
  findAction actionId l = Some action -> f action = action ->
  updateFound actionId f l = l.
Proof.
  unfold findAction. induction l as [| a l IH]; [reflexivity |].
  simpl. destruct (String.eqb (Action.id a) actionId).
  - intros [= ->] Hf. rewrite Hf. reflexivity.
  - intros H Hf. rewrite (IH H Hf). reflexivity.
Qed.

Lemma setInstances_same (a : Action.t) : setInstances (Action.instances a) a = a.
Proof. destruct a. reflexivity. Qed.

(** X6: adding an instance on a tab that had none and removing it again
    is a round trip: after [addActionInstance] the stored instance is the
    freshly created one, after [removeActionInstance] it is gone and the
    stored actions are those [getActions] returned at the start. *)
Theorem add_then_remove_instance (actionId : string) (tabId : Z) (tabTitle : string)
    (w : World) (action : Action.t) (instances : gmap Z Instance.t) :
  findAction actionId (validActions (storedActions w)) = Some action ->
  Action.instances action = Some instances ->
  instances !! tabId = None ->
  (size instances < MAX_INSTANCES_PER_ACTION)%nat ->
  0 < tabId ->
  let added := run (addActionInstance actionId tabId tabTitle) w in
  let removed := run (removeActionInstance actionId tabId) added in
  storedInstance actionId tabId added = Some (createdInstance tabId tabTitle (clock w))
  /\ storedInstance actionId tabId removed = None
  /\ storedActions removed = validActions (storedActions w).
Proof.
  intros Hf Hi Hnone Hsize Hpos added removed.
  pose proof (findAction_Some _ _ _ Hf) as [_ Hid].
  pose proof (isValid_id _ (found_valid _ _ _ Hf)) as Hne. rewrite Hid in Hne.
  assert (Hlim : atInstanceLimit action tabId = false).
  { unfold atInstanceLimit. rewrite Hi.
    change (default ∅ (Some instances)) with instances.
    apply andb_false_iff. left. apply Nat.leb_gt, Hsize. }
  destruct (addActionInstance_ok actionId tabId tabTitle w action Hne Hpos Hf Hlim)
    as [r Hadd].
  set (created := createdInstance tabId tabTitle (clock w)).
  set (f := setInstances (Some (<[tabId := created]> instances))).
  assert (Hstored : storedActions added
                    = updateFound actionId f (validActions (storedActions w))).
  { unfold added, run. rewrite Hadd. cbn [snd storedActions setStoredActions].
    unfold addedInstance. rewrite Hf, Hi. reflexivity. }
  assert (Hvalid : Forall (fun a => isValid a = true)
                     (updateFound actionId f (validActions (storedActions w)))).
  { pose proof (addedInstance_valid actionId tabId (storedActions w) action created
                  Hf Hlim) as H.
    rewrite Hi in H. exact H. }
  assert (Hadded : storedInstance actionId tabId added = Some created).
  { rewrite (storedInstance_updated actionId tabId f (storedActions w) added
               Hstored Hvalid (fun _ => eq_refl)).
    rewrite Hf. unfold lookupInstance, f, setInstances. cbn [Action.instances].
    apply lookup_insert_eq. }
  split; [exact Hadded |].
  destruct (removeActionInstance_eq actionId tabId added) as [r' Hrem].
  assert (Hremoved : removed
                     = setStoredActions (removedInstance actionId tabId (storedActions added))
                         added).
  { unfold removed, run. rewrite Hrem. reflexivity. }
  assert (Hs : storedActions removed = validActions (storedActions w)).
  { rewrite Hremoved. cbn [storedActions setStoredActions].
    unfold removedInstance. rewrite Hstored, (validActions_fixed _ Hvalid).
    rewrite findAction_updateFound_same by reflexivity. rewrite Hf.
    cbn [fmap option_fmap option_map]. unfold f at 1. cbn [Action.instances setInstances].
    rewrite updateFound_compose by reflexivity.
    apply (updateFound_fixed _ _ _ action Hf).
    unfold f, setInstances. cbn [Action.instances Action.id Action.name Action.type
      Action.key Action.interval Action.timeUnit Action.randomize Action.randomizeMin
      Action.randomizeMax Action.urlFilter Action.repeatLimit Action.timeLimit].
    rewrite delete_insert_id by exact Hnone.
    rewrite <- Hi. destruct action. reflexivity. }
  split; [| exact Hs].
  unfold storedInstance. rewrite Hs, (validActions_fixed _ (validActions_Forall _)), Hf.
  unfold lookupInstance. rewrite Hi. exact Hnone.
Qed.

Lemma add_then_remove_instance_witness :
  findAction "a1" (validActions (storedActions oneActionWorld))
  = Some (actionIn oneActionWorld)
  /\ Action.instances (actionIn oneActionWorld)
     = Some (default ∅ (Action.instances (actionIn oneActionWorld)))
  /\ default ∅ (Action.instances (actionIn oneActionWorld)) !! 7 = None
  /\ (size (default ∅ (Action.instances (actionIn oneActionWorld)))
      < MAX_INSTANCES_PER_ACTION)%nat
  /\ 0 < 7
  /\ storedActions
       (run (removeActionInstance "a1" 7) (run (addActionInstance "a1" 7 "Seven") oneActionWorld))
     = validActions (storedActions oneActionWorld).
Proof.
  assert (H1 : findAction "a1" (validActions (storedActions oneActionWorld))
               = Some (actionIn oneActionWorld)) by (vm_compute; reflexivity).
  assert (H2 : Action.instances (actionIn oneActionWorld)
               = Some (default ∅ (Action.instances (actionIn oneActionWorld))))
    by (vm_compute; reflexivity).
  assert (H3 : default ∅ (Action.instances (actionIn oneActionWorld)) !! 7 = None)
    by (vm_compute; reflexivity).
  assert (H4 : (size (default ∅ (Action.instances (actionIn oneActionWorld)))
                < MAX_INSTANCES_PER_ACTION)%nat) by (vm_compute; lia).
  split; [exact H1 |]. split; [exact H2 |]. split; [exact H3 |]. split; [exact H4 |].
  split; [lia |].
  exact (proj2 (proj2 (add_then_remove_instance "a1" 7 "Seven" oneActionWorld _ _
                         H1 H2 H3 H4 eq_refl))).
Defined.

Lemma storedInstance_patched_other actionId tabId actionId' tabId' updates w :
  (actionId', tabId') <> (actionId, tabId) ->
  storedInstance actionId' tabId' (patched actionId tabId updates w)
  = storedInstance actionId' tabId' w.
Proof.
  intros Hne. unfold storedInstance, patched, patchedInstance.
  cbn [storedActions setStoredActions].
  destruct (findAction actionId (validActions (storedActions w))) as [action |] eqn:Hf;
    [| reflexivity].
  destruct (Action.instances action) as [instances |] eqn:Hi; [| reflexivity].
  destruct (instances !! tabId) as [instance |] eqn:Hl; [| reflexivity].
  rewrite (validActions_fixed _
             (patchedInstance_valid _ tabId _ _ _ (applyPatch updates instance)
                Hf Hi (mk_is_Some _ _ Hl))).
  destruct (decide (actionId' = actionId)) as [-> | Hna].
  - rewrite findAction_updateFound_same by reflexivity. rewrite Hf.
    cbn [fmap option_fmap option_map]. unfold lookupInstance, setInstances.
    cbn [Action.instances]. rewrite Hi. apply lookup_insert_ne. congruence.
  - rewrite findAction_updateFound_other by (reflexivity || congruence). reflexivity.
Qed.

(** X7: [updateActionInstance] never creates an instance. For a missing
    action or instance it returns [null] and changes nothing; for an
    existing instance it stores the old instance overwritten by the
    fields the update names (any of the six), and leaves the instance of
    every other pair as it was. *)
Theorem updateActionInstance_only_patches (actionId : string) (tabId : Z)
    (updates : InstancePatch.t) (w : World) :
  let w' := run (updateActionInstance actionId tabId updates) w in
  match storedInstance actionId tabId w with
  | None => updateActionInstance actionId tabId updates w = (Ok None, w)
  | Some instance =>
      fst (updateActionInstance actionId tabId updates w) <> Ok None
      /\ storedInstance actionId tabId w' = Some (applyPatch updates instance)
      /\ (forall actionId' tabId',
            (actionId', tabId') <> (actionId, tabId) ->
            storedInstance actionId' tabId' w' = storedInstance actionId' tabId' w)
  end.
Proof.
  intros w'. unfold w'. clear w'.
  destruct (storedInstance actionId tabId w) as [instance |] eqn:Hs.
  - destruct (storedInstance_Some _ _ _ _ Hs) as (action & instances & Hf & Hi & Hl).
    assert (Hrun : exists a,
              updateActionInstance actionId tabId updates w
              = (Ok (Some a), patched actionId tabId updates w)).
    { eexists. unfold updateActionInstance. apply retry_ok.
      rewrite bind_getActions, Hf, Hi, Hl.
      rewrite (bind_ok _ _ _ _ _
                 (saveActions_eq _ w
                    (patchedInstance_valid _ tabId _ _ _ _ Hf Hi (mk_is_Some _ _ Hl)))).
      unfold patched, patchedInstance. rewrite Hf, Hi, Hl. reflexivity. }
    destruct Hrun as [a Hrun]. unfold run. rewrite Hrun. cbn [fst snd].
    split; [discriminate |]. split; [apply storedInstance_patched, Hs |].
    intros actionId' tabId' Hne. apply storedInstance_patched_other, Hne.
  - unfold updateActionInstance. apply retry_ok. rewrite bind_getActions.
    unfold storedInstance, lookupInstance in Hs.
    destruct (findAction actionId (validActions (storedActions w))) as [action |];
      [| reflexivity].
    destruct (Action.instances action) as [instances |]; [| reflexivity].
    rewrite Hs. reflexivity.
Qed.

(** X8: [saveSettings] stores the merged settings when the partial
    settings pass [validateSettings], and otherwise throws the validation
    error and stores nothing; either way a stored [maxLogs] within
    [[10, 10000]] stays within it. *)
Theorem saveSettings_validates (settings : SettingsPatch.t) (w : World) :
  match validateSettings settings with
  | Some e => saveSettings settings w = (Throw e, w)
  | None =>
      saveSettings settings w
      = (Ok (mergeSettings (storedSettings w) settings),
         setStoredSettings (mergeSettings (storedSettings w) settings) w)
  end
  /\ (maxLogsInRange (storedSettings w) ->
      maxLogsInRange (storedSettings (run (saveSettings settings) w))).
Proof.
  unfold run, saveSettings.
  destruct (validateSettings settings) as [e |] eqn:E.
  - split; [reflexivity | auto].
  - split; [reflexivity |]. cbn [snd]. intros Hrange.
    change (maxLogsInRange (mergeSettings (storedSettings w) settings)).
    unfold maxLogsInRange, mergeSettings, validateSettings in *.
    cbn [Settings.maxLogs].
    destruct (SettingsPatch.maxLogs settings) as [n |]; [| exact Hrange].
    replace (default (Settings.maxLogs (storedSettings w)) (Some n)) with n by reflexivity.
    destruct ((Z.of_nat n <? 10) || (10000 <? Z.of_nat n)) eqn:Hc; [discriminate |].
    apply orb_false_iff in Hc. destruct Hc as [H1 H2].
    apply Z.ltb_ge in H1, H2. lia.
Qed.

(** X9: [addLog] puts the new entry first and keeps at most [maxLogs]
    entries: the stored log is the first [maxLogs] entries of the new
    entry followed by the old log, and it is what the call returns. *)
Theorem addLog_bounded (logEntry : Z -> LogEntry.t) (w : World) :
  let logs := storedLogs (run (addLog logEntry) w) in
  fst (addLog logEntry w) = Ok logs
  /\ (length logs <= Settings.maxLogs (storedSettings w))%nat
  /\ logs = firstn (Settings.maxLogs (storedSettings w)) (logEntry (clock w) :: storedLogs w).
Proof.
  cbv zeta. unfold run. rewrite addLog_eq. cbn [fst snd storedLogs setStoredLogs].
  unfold addedLog.
  destruct (Nat.ltb_spec (Settings.maxLogs (storedSettings w))
              (length (logEntry (clock w) :: storedLogs w))) as [Hlt | Hge].
  - split; [reflexivity |]. split; [| reflexivity].
    rewrite length_firstn. lia.
  - split; [reflexivity |]. split; [exact Hge |].
    rewrite firstn_all2 by exact Hge. reflexivity.
Qed.

End InstancesSettingsLogs.

Section CycleExits.

(** X10: when a timer fires for a pair that has no action, no instance
    or a disabled instance, the cycle only deletes the registry entry of
    the pair and refreshes the badge: nothing is dispatched, no timer is
    armed, and the stored actions, logs and recovery counters stay as
    they were. *)
Theorem cycle_without_enabled_instance (injection : option string)
    (actionId : string) (tabId : Z) (w : World) :
  Instance.enabled <$> storedInstance actionId tabId w <> Some true ->
  executeAndRescheduleOnTab injection actionId tabId w
  = (Ok tt,
     setBadge (badgeCount (storedSettings w) (storedActions w))
       (setActiveTimers (delete (timerKey actionId tabId) (activeTimers w)) w)).
Proof.
  intros Hno. unfold executeAndRescheduleOnTab, tryCatch, executeAndRescheduleOnTab_try.
  assert (Hdel : bind (deleteTimer (timerKey actionId tabId)) (fun _ => refreshBadge) w
                 = (Ok tt,
                    setBadge (badgeCount (storedSettings w) (storedActions w))
                      (setActiveTimers (delete (timerKey actionId tabId) (activeTimers w)) w))).
  { unfold deleteTimer. rewrite bind_modify, refreshBadge_eq. reflexivity. }
  rewrite bind_getActions. unfold storedInstance in Hno.
  destruct (findAction actionId (validActions (storedActions w))) as [action |];
    [| rewrite Hdel; reflexivity].
  destruct (lookupInstance action tabId) as [instance |]; [| rewrite Hdel; reflexivity].
  destruct (Instance.enabled instance) eqn:He;
    [exfalso; apply Hno; simpl; rewrite He; reflexivity |].
  cbn [negb]. rewrite Hdel. reflexivity.
Qed.

Lemma cycle_without_enabled_instance_witness :
  Instance.enabled <$> storedInstance "a1" 42 (run (deleteAction "a1") armedWorld)
  <> Some true
  /\ activeTimers (run (deleteAction "a1") armedWorld) !! timerKey "a1" 42 = Some armedEntry
  /\ activeTimers
       (run (executeAndRescheduleOnTab None "a1" 42) (run (deleteAction "a1") armedWorld))
       !! timerKey "a1" 42 = None.
Proof.
  assert (H : Instance.enabled <$> storedInstance "a1" 42 (run (deleteAction "a1") armedWorld)
              <> Some true) by (vm_compute; discriminate).
  split; [exact H |]. split; [vm_compute; reflexivity |].
  unfold run at 1.
  rewrite (cycle_without_enabled_instance None "a1" 42 _ H).
  cbn [snd activeTimers setBadge setActiveTimers]. apply lookup_delete_eq.
Defined.

(** X11: when a timer fires for an enabled instance while scheduling is
    globally disabled, the cycle only deletes the registry entry of the
    pair: the badge is not refreshed, nothing is dispatched and the
    instance stays stored. *)
Theorem cycle_when_globally_disabled (injection : option string)
    (actionId : string) (tabId : Z) (w : World) :
  Instance.enabled <$> storedInstance actionId tabId w = Some true ->
  Settings.globalEnabled (storedSettings w) = false ->
  executeAndRescheduleOnTab injection actionId tabId w
  = (Ok tt, setActiveTimers (delete (timerKey actionId tabId) (activeTimers w)) w).
Proof.
  intros Hen Hg. unfold executeAndRescheduleOnTab, tryCatch, executeAndRescheduleOnTab_try.
  rewrite bind_getActions. unfold storedInstance in Hen.
  destruct (findAction actionId (validActions (storedActions w))) as [action |];
    [| discriminate].
  destruct (lookupInstance action tabId) as [instance |]; [| discriminate].
  injection Hen as Hen. rewrite Hen. cbn [negb].
  rewrite bind_getSettings, Hg. reflexivity.
Qed.

Lemma cycle_when_globally_disabled_witness :
  Instance.enabled <$> storedInstance "a1" 42 pausedArmedWorld = Some true
  /\ Settings.globalEnabled (storedSettings pausedArmedWorld) = false
  /\ storedActions (run (executeAndRescheduleOnTab None "a1" 42) pausedArmedWorld)
     = storedActions pausedArmedWorld.
Proof.
  assert (H : Instance.enabled <$> storedInstance "a1" 42 pausedArmedWorld = Some true)
    by (vm_compute; reflexivity).
  split; [exact H |]. split; [reflexivity |].
  unfold run. rewrite (cycle_when_globally_disabled None "a1" 42 _ H eq_refl).
  reflexivity.
Defined.

(** X12: when a timer fires for an enabled instance whose tab no longer
    exists, the cycle stops the instance: the instance, the registry entry
    and the recovery counter of the pair are removed, no log entry is
    written and no timer is armed. *)
Theorem cycle_when_tab_is_gone (injection : option string)
    (actionId : string) (tabId : Z) (w : World) :
  Instance.enabled <$> storedInstance actionId tabId w = Some true ->
  Settings.globalEnabled (storedSettings w) = true ->
  openTabs w !! tabId = None ->
  executeAndRescheduleOnTab injection actionId tabId w = (Ok tt, stopped actionId tabId w)
  /\ storedInstance actionId tabId (stopped actionId tabId w) = None
  /\ storedLogs (stopped actionId tabId w) = storedLogs w
  /\ errorRecoveryAttempts (stopped actionId tabId w) !! timerKey actionId tabId = None
  /\ activeTimers (stopped actionId tabId w) !! timerKey actionId tabId = None
  /\ nextTimerId (stopped actionId tabId w) = nextTimerId w.
Proof.
  intros Hen Hg Htab. split.
  - unfold executeAndRescheduleOnTab, tryCatch, executeAndRescheduleOnTab_try.
    rewrite bind_getActions. unfold storedInstance in Hen.
    destruct (findAction actionId (validActions (storedActions w))) as [action |];
      [| discriminate].
    destruct (lookupInstance action tabId) as [instance |]; [| discriminate].
    injection Hen as Hen. rewrite Hen. cbn [negb].
    rewrite bind_getSettings, Hg. cbn [negb].
    unfold chrome_tabs_get. rewrite bind_gets, Htab, stopActionOnTab_eq. reflexivity.
  - split; [apply storedInstance_stopped |]. split; [reflexivity |].
    split; [apply lookup_delete_eq |]. split; [apply lookup_delete_eq | reflexivity].
Qed.

Lemma cycle_when_tab_is_gone_witness :
  Instance.enabled <$> storedInstance "a1" 42 (setOpenTabs ∅ armedWorld) = Some true
  /\ Settings.globalEnabled (storedSettings (setOpenTabs ∅ armedWorld)) = true
  /\ openTabs (setOpenTabs ∅ armedWorld) !! 42 = None
  /\ executeAndRescheduleOnTab None "a1" 42 (setOpenTabs ∅ armedWorld)
     = (Ok tt, stopped "a1" 42 (setOpenTabs ∅ armedWorld)).
Proof.
  assert (H : Instance.enabled <$> storedInstance "a1" 42 (setOpenTabs ∅ armedWorld)
              = Some true) by (vm_compute; reflexivity).
  split; [exact H |]. split; [reflexivity |]. split; [reflexivity |].
  exact (proj1 (cycle_when_tab_is_gone None "a1" 42 _ H eq_refl eq_refl)).
Defined.

End CycleExits.

Section CycleRetries.

Lemma storedInstance_scheduled actionId tabId action w i :
  Action.id action = actionId ->
  storedInstance actionId tabId w = Some i ->
  storedInstance actionId tabId (scheduled action tabId w)
  = Some (applyPatch
            (InstancePatch.mk None None (Some (clock w + intervalIn w action))) i).
Proof.
  intros Hid Hs.
  rewrite <- (storedInstance_patched actionId tabId
                (InstancePatch.mk None None (Some (clock w + intervalIn w action))) w i Hs).
  apply storedInstance_ext. unfold scheduled, patched.
  cbn [storedActions setStoredActions]. rewrite Hid. reflexivity.
Qed.

(** X13: when the tab's URL does not match the action's URL filter, the
    cycle dispatches nothing and re-arms the timer (the interval being
    accepted): the execution count and [lastExecuted] of the instance are
    unchanged, [nextExecution] is the new deadline, and the recovery
    counters, logs and notifications stay as they were. *)
Theorem cycle_when_url_filter_rejects (injection : option string)
    (actionId : string) (tabId : Z) (w : World)
    (action : Action.t) (instance : Instance.t) (tab : Tab.t) :
  findAction actionId (validActions (storedActions w)) = Some action ->
  lookupInstance action tabId = Some instance ->
  Instance.enabled instance = true ->
  Settings.globalEnabled (storedSettings w) = true ->
  openTabs w !! tabId = Some tab ->
  nonEmpty (Action.urlFilter action) = true ->
  matchesUrlFilter (default "" (Tab.url tab)) (default "" (Action.urlFilter action)) = false ->
  validInterval (intervalIn w action) = true ->
  let w' := run (executeAndRescheduleOnTab injection actionId tabId) w in
  executeAndRescheduleOnTab injection actionId tabId w = (Ok tt, scheduled action tabId w)
  /\ (exists i,
        storedInstance actionId tabId w' = Some i
        /\ Instance.executionCount i = Instance.executionCount instance
        /\ Instance.lastExecuted i = Instance.lastExecuted instance
        /\ Instance.nextExecution i = Some (clock w + intervalIn w action))
  /\ errorRecoveryAttempts w' = errorRecoveryAttempts w
  /\ storedLogs w' = storedLogs w
  /\ shown w' = shown w.
Proof.
  intros Hf Hl He Hg Ht Hne Hm Hv w'.
  assert (Hrun : executeAndRescheduleOnTab injection actionId tabId w
                 = (Ok tt, scheduled action tabId w)).
  { unfold executeAndRescheduleOnTab, tryCatch, executeAndRescheduleOnTab_try.
    rewrite bind_getActions, Hf, Hl, He. cbn [negb].
    rewrite bind_getSettings, Hg. cbn [negb].
    unfold chrome_tabs_get. rewrite bind_gets, Ht, Hne, Hm. cbn [negb andb].
    rewrite (scheduleActionOnTab_ok _ _ _ Hv). reflexivity. }
  unfold w', run. rewrite Hrun. cbn [snd]. split; [reflexivity |].
  split; [| repeat split].
  eexists. split.
  - apply storedInstance_scheduled; [apply (findAction_Some _ _ _ Hf) |].
    unfold storedInstance. rewrite Hf. exact Hl.
  - repeat split.
Qed.

Lemma cycle_when_url_filter_rejects_witness :
  findAction "a1" (validActions (storedActions filteredWorld)) = Some (actionIn filteredWorld)
  /\ lookupInstance (actionIn filteredWorld) 42 = Some (instanceIn filteredWorld)
  /\ Instance.enabled (instanceIn filteredWorld) = true
  /\ Settings.globalEnabled (storedSettings filteredWorld) = true
  /\ openTabs filteredWorld !! 42 = Some (webTab 42)
  /\ nonEmpty (Action.urlFilter (actionIn filteredWorld)) = true
  /\ matchesUrlFilter "https://example.com/"
       (default "" (Action.urlFilter (actionIn filteredWorld))) = false
  /\ validInterval (intervalIn filteredWorld (actionIn filteredWorld)) = true
  /\ executeAndRescheduleOnTab None "a1" 42 filteredWorld
     = (Ok tt, scheduled (actionIn filteredWorld) 42 filteredWorld).
Proof.
  assert (H1 : findAction "a1" (validActions (storedActions filteredWorld))
               = Some (actionIn filteredWorld)) by (vm_compute; reflexivity).
  assert (H2 : lookupInstance (actionIn filteredWorld) 42 = Some (instanceIn filteredWorld))
    by (vm_compute; reflexivity).
  assert (H3 : Instance.enabled (instanceIn filteredWorld) = true)
    by (vm_compute; reflexivity).
  assert (H5 : openTabs filteredWorld !! 42 = Some (webTab 42)) by (vm_compute; reflexivity).
  assert (H6 : nonEmpty (Action.urlFilter (actionIn filteredWorld)) = true)
    by (vm_compute; reflexivity).
  assert (H7 : matchesUrlFilter "https://example.com/"
                 (default "" (Action.urlFilter (actionIn filteredWorld))) = false)
    by (vm_compute; reflexivity).
  assert (H8 : validInterval (intervalIn filteredWorld (actionIn filteredWorld)) = true)
    by (vm_compute; reflexivity).
  split; [exact H1 |]. split; [exact H2 |]. split; [exact H3 |]. split; [reflexivity |].
  split; [exact H5 |]. split; [exact H6 |]. split; [exact H7 |]. split; [exact H8 |].
  exact (proj1 (cycle_when_url_filter_rejects None "a1" 42 filteredWorld _ _ _
                  H1 H2 H3 eq_refl H5 H6 H7 H8)).
Defined.

(** X14: a failed dispatch below the recovery limit is retried: the
    stored recovery counter of the pair becomes the old one plus one, the
    instance stays enabled with its execution count unchanged, a new timer
    is armed for the pair (the interval being accepted) and no log entry
    is written. *)
Theorem failure_below_limit_retries (injection : option string) (failure : string)
    (actionId : string) (tabId : Z) (w : World)
    (action : Action.t) (instance : Instance.t) (tab : Tab.t) :
  dispatchReady actionId tabId w action instance tab ->
  executeAction injection action tab w = (Throw failure, w) ->
  default 0 (errorRecoveryAttempts w !! timerKey actionId tabId) + 1
  < MAX_RECOVERY_ATTEMPTS ->
  validInterval (intervalIn w action) = true ->
  let attempts := default 0 (errorRecoveryAttempts w !! timerKey actionId tabId) + 1 in
  let w' := run (executeAndRescheduleOnTab injection actionId tabId) w in
  fst (executeAndRescheduleOnTab injection actionId tabId w) = Ok tt
  /\ errorRecoveryAttempts w' !! timerKey actionId tabId = Some attempts
  /\ (exists i,
        storedInstance actionId tabId w' = Some i
        /\ Instance.enabled i = true
        /\ Instance.executionCount i = Instance.executionCount instance)
  /\ (exists entry,
        activeTimers w' !! timerKey actionId tabId = Some entry
        /\ TimerInfo.timerId entry = nextTimerId w
        /\ TimerInfo.intervalMs entry = intervalIn w action
        /\ pendingTimeouts w' !! nextTimerId w = Some (actionId, tabId))
  /\ storedLogs w' = storedLogs w.
Proof.
  intros Hready Hexec Hbelow Hv attempts w'.
  pose proof (dispatchReady_id _ _ _ _ _ _ Hready) as Hid.
  pose proof (dispatchReady_stored _ _ _ _ _ _ Hready) as Hstored.
  set (w1 := setErrorRecoveryAttempts
               (<[timerKey actionId tabId := attempts]> (errorRecoveryAttempts w)) w).
  assert (Hv1 : validInterval (intervalIn w1 action) = true) by exact Hv.
  assert (Hrun : executeAndRescheduleOnTab injection actionId tabId w
                 = (Ok tt, scheduled action tabId w1)).
  { unfold executeAndRescheduleOnTab, tryCatch.
    rewrite (try_dispatch _ _ _ _ _ _ _ Hready).
    unfold bind at 1. unfold tryCatch. unfold bind at 1. rewrite Hexec.
    assert (Hmax : (MAX_RECOVERY_ATTEMPTS
                    <=? default 0 (errorRecoveryAttempts w !! timerKey actionId tabId) + 1)
                   = false) by (apply Z.leb_gt, Hbelow).
    rewrite Hmax, bind_modify. cbn [ret].
    fold attempts. fold w1. rewrite (scheduleActionOnTab_ok _ _ _ Hv1). reflexivity. }
  unfold w', run. rewrite Hrun. cbn [fst snd].
  split; [reflexivity |]. split.
  { unfold scheduled, w1. cbn [errorRecoveryAttempts setErrorRecoveryAttempts].
    apply lookup_insert_eq. }
  split.
  { eexists. split.
    - apply storedInstance_scheduled; [exact Hid |].
      rewrite (storedInstance_ext actionId tabId w w1 eq_refl). exact Hstored.
    - split; [apply Hready | reflexivity]. }
  split; [| reflexivity].
  eexists. rewrite <- Hid. unfold scheduled. cbn [activeTimers pendingTimeouts].
  rewrite lookup_insert_eq. split; [reflexivity |]. split; [reflexivity |].
  split; [reflexivity |]. apply lookup_insert_eq.
Qed.

Lemma failure_below_limit_retries_witness :
  dispatchReady "a1" 42 armedWorld (actionIn armedWorld) (instanceIn armedWorld) (webTab 42)
  /\ executeAction (Some "boom") (actionIn armedWorld) (webTab 42) armedWorld
     = (Throw "Script injection failed: boom", armedWorld)
  /\ default 0 (errorRecoveryAttempts armedWorld !! timerKey "a1" 42) + 1
     < MAX_RECOVERY_ATTEMPTS
  /\ validInterval (intervalIn armedWorld (actionIn armedWorld)) = true
  /\ errorRecoveryAttempts (run (executeAndRescheduleOnTab (Some "boom") "a1" 42) armedWorld)
       !! timerKey "a1" 42
     = Some (default 0 (errorRecoveryAttempts armedWorld !! timerKey "a1" 42) + 1).
Proof.
  assert (H1 : dispatchReady "a1" 42 armedWorld (actionIn armedWorld)
                 (instanceIn armedWorld) (webTab 42)) by conj_compute.
  assert (H2 : executeAction (Some "boom") (actionIn armedWorld) (webTab 42) armedWorld
               = (Throw "Script injection failed: boom", armedWorld)) by reflexivity.
  assert (H3 : default 0 (errorRecoveryAttempts armedWorld !! timerKey "a1" 42) + 1
               < MAX_RECOVERY_ATTEMPTS) by (vm_compute; reflexivity).
  assert (H4 : validInterval (intervalIn armedWorld (actionIn armedWorld)) = true)
    by (vm_compute; reflexivity).
  split; [exact H1 |]. split; [exact H2 |]. split; [exact H3 |]. split; [exact H4 |].
  exact (proj1 (proj2 (failure_below_limit_retries (Some "boom") _ "a1" 42 armedWorld
                         _ _ _ H1 H2 H3 H4))).
Defined.

End CycleRetries.

Section Scheduling.

Lemma calculateInterval_plain (random : Q) (action : Action.t) :
  drawsRandom action = false -> calculateInterval random action = clampedBase action.
Proof.
  unfold drawsRandom, randomRange, calculateInterval, clampedBase.
  destruct (Action.randomize action
            && (truthy (Action.randomizeMin action) || truthy (Action.randomizeMax action)));
    [| reflexivity].
  assert (Hmax : (if Action.randomizeMax action <? Action.randomizeMin action
                  then Action.randomizeMin action else Action.randomizeMax action)
                 = Z.max (Action.randomizeMin action) (Action.randomizeMax action)).
  { destruct (Z.ltb_spec (Action.randomizeMax action) (Action.randomizeMin action)); lia. }
  rewrite Hmax.
  destruct (0 <? toMs (Action.timeUnit action)
                   (Z.max (Action.randomizeMin action) (Action.randomizeMax action)));
    [discriminate | reflexivity].
Qed.

Lemma validInterval_clampedBase (action : Action.t) :
  validInterval (clampedBase action) = true.
Proof.
  pose proof (clampedBase_bounds action) as [H1 H2].
  unfold validInterval. apply negb_true_iff, orb_false_iff.
  split; apply Z.ltb_ge; assumption.
Qed.

(** X15: [scheduleActionOnTab] with a computed interval outside
    [[100, 86 400 000]] ms throws [Invalid interval: <n>ms] before it
    touches the timers: the registry, the pending timers (a timer already
    armed for the pair included), the timer ids and the stored actions
    are unchanged. *)
Theorem scheduleActionOnTab_rejects (action : Action.t) (tabId : Z) (w : World) :
  validInterval (intervalIn w action) = false ->
  let w' := run (scheduleActionOnTab action tabId) w in
  fst (scheduleActionOnTab action tabId w)
  = Throw ("Invalid interval: " +:+ pretty (intervalIn w action) +:+ "ms")
  /\ activeTimers w' = activeTimers w
  /\ pendingTimeouts w' = pendingTimeouts w
  /\ nextTimerId w' = nextTimerId w
  /\ storedActions w' = storedActions w.
Proof.
  intros Hv w'. unfold w', run. rewrite (scheduleActionOnTab_throw _ _ _ Hv).
  repeat split.
Qed.

Lemma scheduleActionOnTab_rejects_witness :
  validInterval (intervalIn jitterWorld jitterAction) = false
  /\ fst (scheduleActionOnTab jitterAction 42 jitterWorld)
     = Throw "Invalid interval: 51ms".
Proof.
  assert (H : validInterval (intervalIn jitterWorld jitterAction) = false)
    by (vm_compute; reflexivity).
  split; [exact H |].
  exact (proj1 (scheduleActionOnTab_rejects jitterAction 42 jitterWorld H)).
Defined.

(** X16: for an action that does not take the randomized branch,
    [scheduleActionOnTab] always succeeds, draws no random number and arms
    the pair with the clamped base interval: the registry entry holds the
    new timer id, the delay and [nextExecution = now + delay], the timer
    is pending, and the stored instance, if there is one, gets the same
    [nextExecution]. *)
Theorem scheduleActionOnTab_without_randomization (action : Action.t) (tabId : Z)
    (w : World) :
  drawsRandom action = false ->
  let delay := clampedBase action in
  let w' := run (scheduleActionOnTab action tabId) w in
  fst (scheduleActionOnTab action tabId w) = Ok tt
  /\ MIN_INTERVAL_MS <= delay <= MAX_INTERVAL_MS
  /\ activeTimers w' !! timerKey (Action.id action) tabId
     = Some (TimerInfo.mk (nextTimerId w) (clock w + delay) delay (Action.id action) tabId)
  /\ pendingTimeouts w' !! nextTimerId w = Some (Action.id action, tabId)
  /\ randomSource w' = randomSource w
  /\ (forall i,
        storedInstance (Action.id action) tabId w = Some i ->
        Instance.nextExecution <$> storedInstance (Action.id action) tabId w'
        = Some (Some (clock w + delay))).
Proof.
  intros Hd delay w'.
  assert (Hi : intervalIn w action = delay) by (apply calculateInterval_plain, Hd).
  assert (Hv : validInterval (intervalIn w action) = true)
    by (rewrite Hi; apply validInterval_clampedBase).
  unfold w', run. rewrite (scheduleActionOnTab_ok _ _ _ Hv). cbn [fst snd].
  split; [reflexivity |]. split; [apply clampedBase_bounds |].
  split.
  { unfold scheduled. cbn [activeTimers]. rewrite lookup_insert_eq, Hi. reflexivity. }
  split; [unfold scheduled; cbn [pendingTimeouts]; apply lookup_insert_eq |].
  split.
  { unfold scheduled, remainingRandom. cbn [randomSource]. rewrite Hd. reflexivity. }
  intros i Hs. rewrite (storedInstance_scheduled _ _ _ _ _ eq_refl Hs).
  cbn. rewrite Hi. reflexivity.
Qed.

Lemma scheduleActionOnTab_without_randomization_witness :
  drawsRandom (plainAction "a1") = false
  /\ fst (scheduleActionOnTab (plainAction "a1") 42 oneActionWorld) = Ok tt.
Proof.
  split; [reflexivity |].
  exact (proj1 (scheduleActionOnTab_without_randomization (plainAction "a1") 42
                  oneActionWorld eq_refl)).
Defined.

End Scheduling.

Section ClearAll.

Lemma clearedAll_lookup timers pending timerId callback :
  clearedAll timers pending !! timerId = Some callback ->
  pending !! timerId = Some callback
  /\ forall k ti,
       timers !! k = Some ti -> truthy (TimerInfo.timerId ti) = true ->
       TimerInfo.timerId ti <> timerId.
Proof.
  unfold clearedAll. revert timerId callback.
  apply (map_fold_weak_ind
           (fun r (m : gmap string TimerInfo.t) =>
              forall timerId callback, r !! timerId = Some callback ->
                pending !! timerId = Some callback
                /\ forall k ti, m !! k = Some ti -> truthy (TimerInfo.timerId ti) = true ->
                     TimerInfo.timerId ti <> timerId)).
  - intros timerId callback H. split; [exact H |].
    intros k ti Hk. rewrite lookup_empty in Hk. discriminate.
  - intros k ti m r Hnone IH timerId callback Hr.
    destruct (truthy (TimerInfo.timerId ti)) eqn:Ht.
    + apply lookup_delete_Some in Hr. destruct Hr as [Hne Hr].
      destruct (IH _ _ Hr) as [Hp Hm]. split; [exact Hp |].
      intros k' ti' Hk' Ht'. destruct (decide (k' = k)) as [-> | Hkk].
      * rewrite lookup_insert_eq in Hk'. injection Hk' as <-. exact Hne.
      * rewrite lookup_insert_ne in Hk' by congruence. eapply Hm; eauto.
    + destruct (IH _ _ Hr) as [Hp Hm]. split; [exact Hp |].
      intros k' ti' Hk' Ht'. destruct (decide (k' = k)) as [-> | Hkk].
      * rewrite lookup_insert_eq in Hk'. injection Hk' as <-. congruence.
      * rewrite lookup_insert_ne in Hk' by congruence. eapply Hm; eauto.
Qed.

Lemma clearedAll_empty w :
  callbacksRegistered w -> timerIdsAllocated w ->
  clearedAll (activeTimers w) (pendingTimeouts w) = ∅.
Proof.
  intros Hreg (_ & _ & Hids). apply map_empty. intros timerId.
  destruct (clearedAll _ _ !! timerId) as [callback |] eqn:Hc; [| reflexivity].
  exfalso. destruct (clearedAll_lookup _ _ _ _ Hc) as [Hp Hne].
  specialize (Hreg _ _ Hp). cbn beta in Hreg.
  destruct (activeTimers w !! timerKey (fst callback) (snd callback)) as [ti |] eqn:Hk;
    [| discriminate].
  injection Hreg as Hid. apply (Hne _ _ Hk); [| exact Hid].
  specialize (Hids _ _ Hk). cbn beta in Hids. unfold truthy.
  apply negb_true_iff, Z.eqb_neq. lia.
Qed.

Lemma clearAllTimers_eq w :
  clearAllTimers w
  = (Ok tt, setActiveTimers ∅
              (setPendingTimeouts (clearedAll (activeTimers w) (pendingTimeouts w)) w)).
Proof. reflexivity. Qed.

(** X17: [toggleGlobal] on an enabled extension answers [false], stores
    [globalEnabled = false], empties the timer registry and sets the badge
    to 0; when the pending timers are those of the registry, none is left
    pending. The stored actions (instances stay enabled) and the recovery
    counters are unchanged. *)
Theorem toggleGlobal_disables (w : World) :
  Settings.globalEnabled (storedSettings w) = true ->
  callbacksRegistered w ->
  timerIdsAllocated w ->
  let w' := run toggleGlobal w in
  fst (toggleGlobal w) = Ok false
  /\ Settings.globalEnabled (storedSettings w') = false
  /\ activeTimers w' = ∅
  /\ pendingTimeouts w' = ∅
  /\ badge w' = 0
  /\ storedActions w' = storedActions w
  /\ errorRecoveryAttempts w' = errorRecoveryAttempts w.
Proof.
  intros Hg Hreg Hids w'.
  assert (Hrun : toggleGlobal w
                 = (Ok false,
                    setBadge 0
                      (setActiveTimers ∅
                         (setPendingTimeouts
                            (clearedAll (activeTimers w) (pendingTimeouts w))
                            (setStoredSettings
                               (mergeSettings (storedSettings w)
                                  (SettingsPatch.mk (Some false) None None)) w))))).
  { unfold toggleGlobal. rewrite bind_getSettings, Hg. cbn [negb].
    rewrite (bind_ok _ _ _ _ _ (saveSettings_globalEnabled false w)).
    reflexivity. }
  unfold w', run. rewrite Hrun. cbn [fst snd].
  split; [reflexivity |]. split; [reflexivity |]. split; [reflexivity |].
  split; [| repeat split].
  cbn [pendingTimeouts setBadge setActiveTimers setPendingTimeouts].
  apply clearedAll_empty; assumption.
Qed.

Lemma toggleGlobal_disables_witness :
  Settings.globalEnabled (storedSettings armedWorld) = true
  /\ callbacksRegistered armedWorld
  /\ timerIdsAllocated armedWorld
  /\ pendingTimeouts (run toggleGlobal armedWorld) = ∅.
Proof.
  assert (H2 : callbacksRegistered armedWorld) by (unfold callbacksRegistered; decide_closed).
  assert (H3 : timerIdsAllocated armedWorld).
  { unfold timerIdsAllocated. split; [vm_compute; reflexivity |]. split; decide_closed. }
  split; [reflexivity |]. split; [exact H2 |]. split; [exact H3 |].
  exact (proj1 (proj2 (proj2 (proj2 (toggleGlobal_disables armedWorld eq_refl H2 H3))))).
Defined.

End ClearAll.

Section InitializeAll.

Lemma validInterval_plain action w :
  drawsRandom action = false -> validInterval (intervalIn w action) = true.
Proof.
  intros Hd. unfold intervalIn. rewrite (calculateInterval_plain _ _ Hd).
  apply validInterval_clampedBase.
Qed.

Lemma foldM_scheduleIfEnabled action (entries : list (Z * Instance.t)) :
  drawsRandom action = false ->
  forall activeCount w,
    foldM (scheduleIfEnabled action) activeCount entries w
    = (Ok (activeCount
           + Z.of_nat (length (List.filter (fun entry => Instance.enabled (snd entry)) entries))),
       armedAll
         ((fun tabId => (action, tabId))
            <$> (fst <$> List.filter (fun entry => Instance.enabled (snd entry)) entries))
         w).
Proof.
  intros Hd. induction entries as [| [tabId instance] entries IH]; intros activeCount w.
  - simpl. unfold ret. rewrite Z.add_0_r. reflexivity.
  - cbn [foldM List.filter snd]. unfold scheduleIfEnabled at 1. cbn [snd fst].
    destruct (Instance.enabled instance).
    + unfold bind at 1. unfold tryCatch.
      rewrite (bind_ok _ _ _ _ _ (scheduleActionOnTab_ok action tabId w
                                    (validInterval_plain action w Hd))).
      cbn [ret]. rewrite IH. cbn [length fmap list_fmap armedAll fold_left fst snd].
      f_equal. f_equal. lia.
    + rewrite bind_ret. apply IH.
Qed.

Lemma armedAll_app pairs pairs' w :
  armedAll (pairs ++ pairs') w = armedAll pairs' (armedAll pairs w).
Proof. apply fold_left_app. Qed.

Lemma scheduleInstancesOf_eq action activeCount w :
  drawsRandom action = false ->
  scheduleInstancesOf activeCount action w
  = (Ok (activeCount + Z.of_nat (length (enabledTabs action))),
     armedAll ((fun tabId => (action, tabId)) <$> enabledTabs action) w).
Proof.
  intros Hd. unfold scheduleInstancesOf, enabledTabs.
  destruct (Action.instances action) as [instances |].
  - rewrite (foldM_scheduleIfEnabled action _ Hd). rewrite length_fmap. reflexivity.
  - unfold ret. cbn. rewrite Z.add_0_r. reflexivity.
Qed.

Lemma foldM_scheduleInstancesOf (actions : list Action.t) :
  (forall a, In a actions -> drawsRandom a = false) ->
  forall activeCount w,
    foldM scheduleInstancesOf activeCount actions w
    = (Ok (activeCount + Z.of_nat (length (enabledPairs actions))),
       armedAll (enabledPairs actions) w).
Proof.
  induction actions as [| a actions IH]; intros Hd activeCount w.
  - simpl. unfold ret. rewrite Z.add_0_r. reflexivity.
  - cbn [foldM].
    rewrite (bind_ok _ _ _ _ _ (scheduleInstancesOf_eq a activeCount w
                                  (Hd a (or_introl eq_refl)))).
    rewrite IH by (intros a' Ha'; apply Hd; right; exact Ha').
    unfold enabledPairs. cbn [flat_map]. rewrite armedAll_app, length_app, length_fmap.
    f_equal. f_equal. lia.
Qed.

Lemma countEnabled_enabledTabs action :
  countEnabled action = Z.of_nat (length (enabledTabs action)).
Proof.
  unfold countEnabled, enabledTabs. destruct (Action.instances action) as [instances |];
    [| reflexivity].
  rewrite length_fmap. f_equal.
  induction (map_to_list instances) as [| [t i] l IH]; [reflexivity |].
  cbn [fmap list_fmap List.filter snd]. destruct (Instance.enabled i); cbn [length];
    [f_equal |]; exact IH.
Qed.

Lemma fold_countEnabled (actions : list Action.t) (n : Z) :
  fold_left (fun n a => n + countEnabled a) actions n
  = n + Z.of_nat (length (enabledPairs actions)).
Proof.
  revert n. induction actions as [| a actions IH]; intros n.
  - simpl. lia.
  - cbn [fold_left]. rewrite IH, countEnabled_enabledTabs.
    unfold enabledPairs. cbn [flat_map]. rewrite length_app, length_fmap. lia.
Qed.

Lemma enabledPairs_keys (actions : list Action.t) :
  (fun p => timerKey (Action.id (fst p)) (snd p)) <$> enabledPairs actions
  = flat_map (fun a => timerKey (Action.id a) <$> enabledTabs a) actions.
Proof.
  induction actions as [| a actions IH]; [reflexivity |].
  unfold enabledPairs in *. cbn [flat_map]. rewrite fmap_app, IH. f_equal.
  rewrite <- list_fmap_compose. reflexivity.
Qed.

Lemma timersPending_scheduled action tabId w :
  timersPending w -> timersPending (scheduled action tabId w).
Proof.
  intros [Hpos Hw]. split; [unfold scheduled; cbn [nextTimerId]; lia |].
  intros k ti. unfold scheduled. cbn [activeTimers pendingTimeouts nextTimerId].
  set (key := timerKey (Action.id action) tabId).
  destruct (decide (k = key)) as [-> | Hne].
  - rewrite lookup_insert_eq. intros [= <-]. cbn [TimerInfo.timerId TimerInfo.actionId
      TimerInfo.tabId]. split; [lia |]. split; [reflexivity |]. apply lookup_insert_eq.
  - rewrite lookup_insert_ne by congruence. intros Hk.
    destruct (Hw _ _ Hk) as (Hid & Hkey & Hp).
    split; [lia |]. split; [exact Hkey |].
    rewrite lookup_insert_ne by lia.
    unfold clearedPending. destruct (activeTimers w !! key) as [old |] eqn:Hold;
      [| exact Hp].
    destruct (truthy (TimerInfo.timerId old)); [| exact Hp].
    rewrite lookup_delete_ne; [exact Hp |].
    intros Heq. destruct (Hw _ _ Hold) as (_ & Hkey' & Hp').
    rewrite Heq, Hp in Hp'. injection Hp' as H1 H2.
    apply Hne. rewrite Hkey, Hkey', H1, H2. reflexivity.
Qed.

Lemma armedAll_timersPending pairs w : timersPending w -> timersPending (armedAll pairs w).
Proof.
  revert w. induction pairs as [| p pairs IH]; intros w Hw; [exact Hw |].
  apply IH, timersPending_scheduled, Hw.
Qed.

Lemma armedAll_armedKeys pairs w :
  armedKeys (armedAll pairs w)
  = armedKeys w ∪ list_to_set ((fun p => timerKey (Action.id (fst p)) (snd p)) <$> pairs).
Proof.
  unfold armedKeys. revert w. induction pairs as [| p pairs IH]; intros w.
  - cbn. rewrite (right_id_L ∅ (∪)). reflexivity.
  - cbn [armedAll fold_left] in *. rewrite IH. unfold scheduled at 1. cbn [activeTimers].
    rewrite dom_insert_L. cbn [fmap list_fmap list_to_set].
    rewrite (comm_L (∪) {[ _ ]} (dom (activeTimers w))), <- (assoc_L (∪)). reflexivity.
Qed.

Lemma armedAll_frame pairs w :
  isInitialized (armedAll pairs w) = isInitialized w
  /\ storedSettings (armedAll pairs w) = storedSettings w
  /\ badge (armedAll pairs w) = badge w
  /\ storedLogs (armedAll pairs w) = storedLogs w
  /\ errorRecoveryAttempts (armedAll pairs w) = errorRecoveryAttempts w.
Proof.
  revert w. induction pairs as [| p pairs IH]; intros w; [repeat split |].
  cbn [armedAll fold_left]. destruct (IH (scheduled (fst p) (snd p) w)) as (H1 & H2 & H3 & H4 & H5).
  unfold armedAll in *. rewrite H1, H2, H3, H4, H5. repeat split.
Qed.

End InitializeAll.

Section InitializeEnabled.

Lemma updateFound_In_inv actionId f (l : list Action.t) a0 :
  In a0 (updateFound actionId f l) ->
  In a0 l \/ exists action, findAction actionId l = Some action /\ a0 = f action.
Proof.
  unfold findAction. induction l as [| a l IH]; simpl; [tauto |].
  destruct (String.eqb (Action.id a) actionId) eqn:E.
  - intros [<- | Hin]; [right; eexists; split; reflexivity | left; right; exact Hin].
  - intros [-> | Hin]; [left; left; reflexivity |].
    destruct (IH Hin) as [H | H]; [left; right; exact H | right; exact H].
Qed.

Lemma enabledIn_patched_inv actionId tabId updates stored timerKey' :
  InstancePatch.enabled updates = None ->
  enabledIn (patchedInstance actionId tabId updates stored) timerKey' ->
  enabledIn stored timerKey'.
Proof.
  intros Hkeep. unfold patchedInstance.
  destruct (findAction actionId (validActions stored)) as [action |] eqn:Hf; [| auto].
  destruct (Action.instances action) as [instances |] eqn:Hi; [| auto].
  destruct (instances !! tabId) as [instance |] eqn:Hl; [| auto].
  intros (a0 & t0 & i0 & Hin & Hl0 & He0 & Hk).
  rewrite validActions_fixed in Hin
    by (eapply patchedInstance_valid; eauto).
  destruct (updateFound_In_inv _ _ _ _ Hin) as [Hin' | (action' & Hf' & ->)].
  - exists a0, t0, i0. auto.
  - rewrite Hf in Hf'. injection Hf' as <-.
    destruct (findAction_Some _ _ _ Hf) as [Hina _].
    unfold lookupInstance, setInstances in Hl0. cbn [Action.instances] in Hl0.
    destruct (decide (t0 = tabId)) as [-> | Hne].
    + rewrite lookup_insert_eq in Hl0. injection Hl0 as <-.
      unfold applyPatch in He0. cbn [Instance.enabled] in He0. rewrite Hkeep in He0.
      exists action, tabId, instance. unfold lookupInstance. rewrite Hi.
      split; [exact Hina |]. split; [exact Hl |]. split; [exact He0 | exact Hk].
    + rewrite lookup_insert_ne in Hl0 by congruence.
      exists action, t0, i0. unfold lookupInstance. rewrite Hi.
      split; [exact Hina |]. split; [exact Hl0 |]. split; [exact He0 | exact Hk].
Qed.

Lemma armedAll_enabledKeys pairs w : enabledKeys (armedAll pairs w) = enabledKeys w.
Proof.
  revert w. induction pairs as [| p pairs IH]; intros w; [reflexivity |].
  cbn [armedAll fold_left]. fold (armedAll pairs (scheduled (fst p) (snd p) w)).
  rewrite IH. apply set_eq. intros k. rewrite !elem_of_enabledKeys.
  unfold scheduled. cbn [storedActions]. split.
  - apply enabledIn_patched_inv; reflexivity.
  - apply enabledIn_patched; reflexivity.
Qed.

(** X18: on its enabled path, with no stored action taking the
    randomized branch, [initializeTimers] arms exactly the enabled
    instances: afterwards the armed keys are the keys of the enabled
    instances, every registry entry has its timer pending under its own
    key, the one-shot flag is set, and the badge shows the number of
    enabled instances. *)
Theorem initializeTimers_arms_enabled_instances (w : World) :
  isInitialized w = false ->
  Settings.globalEnabled (storedSettings w) = true ->
  0 < nextTimerId w ->
  (forall a, In a (validActions (storedActions w)) -> drawsRandom a = false) ->
  let w' := run initializeTimers w in
  fst (initializeTimers w) = Ok tt
  /\ isInitialized w' = true
  /\ armedKeys w' = enabledKeys w'
  /\ timersPending w'
  /\ badge w' = badgeCount (storedSettings w) (storedActions w).
Proof.
  intros Hinit Hg Hpos Hplain w'.
  set (w1 := setActiveTimers ∅
               (setPendingTimeouts (clearedAll (activeTimers w) (pendingTimeouts w))
                  (setIsInitialized true w))).
  set (pairs := enabledPairs (validActions (storedActions w))).
  assert (Hrun : initializeTimers w
                 = (Ok tt, setBadge (0 + Z.of_nat (length pairs)) (armedAll pairs w1))).
  { unfold initializeTimers. rewrite bind_gets, Hinit, bind_modify. unfold tryCatch.
    rewrite bind_getActions, bind_getSettings.
    cbn [storedSettings setIsInitialized]. rewrite Hg. cbn [negb].
    rewrite (bind_ok _ _ _ _ _ (clearAllTimers_eq _)).
    cbn [storedActions activeTimers pendingTimeouts setIsInitialized].
    fold w1. rewrite (bind_ok _ _ _ _ _ (foldM_scheduleInstancesOf _ Hplain 0 w1)).
    reflexivity. }
  unfold w', run. rewrite Hrun. cbn [fst snd].
  destruct (armedAll_frame pairs w1) as (Hi & Hs & _).
  split; [reflexivity |].
  split; [exact Hi |].
  split.
  { change (armedKeys (armedAll pairs w1) = enabledKeys (armedAll pairs w1)).
    rewrite armedAll_armedKeys, armedAll_enabledKeys. unfold pairs.
    rewrite enabledPairs_keys. unfold armedKeys, w1. cbn [activeTimers setActiveTimers].
    rewrite dom_empty_L, (left_id_L ∅ (∪)). reflexivity. }
  split.
  { change (timersPending (armedAll pairs w1)). apply armedAll_timersPending.
    split; [exact Hpos |]. intros k ti Hk. unfold w1 in Hk.
    cbn [activeTimers setActiveTimers] in Hk. rewrite lookup_empty in Hk. discriminate. }
  cbn [badge setBadge]. unfold badgeCount. rewrite Hg. cbn [negb].
  rewrite fold_countEnabled. reflexivity.
Qed.

Lemma initializeTimers_arms_enabled_instances_witness :
  isInitialized mixedWorld = false
  /\ Settings.globalEnabled (storedSettings mixedWorld) = true
  /\ 0 < nextTimerId mixedWorld
  /\ (forall a, In a (validActions (storedActions mixedWorld)) -> drawsRandom a = false)
  /\ armedKeys (run initializeTimers mixedWorld) = enabledKeys (run initializeTimers mixedWorld)
  /\ badge (run initializeTimers mixedWorld) = 2.
Proof.
  assert (H3 : 0 < nextTimerId mixedWorld) by reflexivity.
  assert (H4 : forall a, In a (validActions (storedActions mixedWorld)) ->
                         drawsRandom a = false).
  { intros a Ha. vm_compute in Ha. destruct Ha as [<- | [<- | []]]; reflexivity. }
  split; [reflexivity |]. split; [reflexivity |]. split; [exact H3 |]. split; [exact H4 |].
  pose proof (initializeTimers_arms_enabled_instances mixedWorld eq_refl eq_refl H3 H4)
    as (_ & _ & Hk & _ & Hb).
  split; [exact Hk |]. rewrite Hb. vm_compute. reflexivity.
Defined.

Lemma foldM_total {A B : Type} (I : World -> Prop) (f : A -> B -> M A) (l : list B) :
  (forall acc x w, I w -> exists acc' w', f acc x w = (Ok acc', w') /\ I w') ->
  forall acc w, I w -> exists acc' w', foldM f acc l w = (Ok acc', w') /\ I w'.
Proof.
  intros Hf. induction l as [| x l IH]; intros acc w Hw.
  - exists acc, w. split; [reflexivity | exact Hw].
  - destruct (Hf acc x w Hw) as (acc1 & w1 & H1 & Hw1).
    cbn [foldM]. rewrite (bind_ok _ _ _ _ _ H1). apply IH, Hw1.
Qed.

Lemma scheduleIfEnabled_initialized action activeCount entry w :
  isInitialized w = true ->
  exists n w', scheduleIfEnabled action activeCount entry w = (Ok n, w')
               /\ isInitialized w' = true.
Proof.
  intros Hw. unfold scheduleIfEnabled.
  destruct (Instance.enabled (snd entry)); [| exists activeCount, w; auto].
  unfold tryCatch. destruct (validInterval (intervalIn w action)) eqn:Hv.
  - rewrite (bind_ok _ _ _ _ _ (scheduleActionOnTab_ok _ (fst entry) _ Hv)).
    eexists _, _. split; [reflexivity | exact Hw].
  - rewrite (bind_throw _ _ _ _ _ (scheduleActionOnTab_throw _ (fst entry) _ Hv)).
    eexists _, _. split; [reflexivity | exact Hw].
Qed.

(** X19: with the storage reads succeeding, [initializeTimers] returns
    normally (a timer that cannot be scheduled is skipped) and leaves the
    one-shot flag set, so a second call right after it returns at the
    guard and changes nothing. *)
Theorem initializeTimers_runs_once (w : World) :
  let w' := run initializeTimers w in
  fst (initializeTimers w) = Ok tt
  /\ isInitialized w' = true
  /\ initializeTimers w' = (Ok tt, w').
Proof.
  intros w'.
  assert (H : fst (initializeTimers w) = Ok tt /\ isInitialized w' = true).
  { unfold w', run, initializeTimers. rewrite bind_gets.
    destruct (isInitialized w) eqn:Hinit; [split; [reflexivity | exact Hinit] |].
    rewrite bind_modify. unfold tryCatch.
    rewrite bind_getActions, bind_getSettings.
    destruct (negb (Settings.globalEnabled _)); [split; reflexivity |].
    rewrite (bind_ok _ _ _ _ _ (clearAllTimers_eq _)).
    set (w0 := setActiveTimers _ _).
    destruct (foldM_total (fun w => isInitialized w = true) scheduleInstancesOf
                (validActions (storedActions w)) ) with (acc := 0) (w := w0)
      as (n & w2 & Hfold & Hw2).
    - intros acc a w3 Hw3. unfold scheduleInstancesOf.
      destruct (Action.instances a) as [instances |]; [| exists acc, w3; auto].
      apply foldM_total; [| exact Hw3].
      intros acc' entry w4 Hw4. apply scheduleIfEnabled_initialized, Hw4.
    - reflexivity.
    - rewrite (bind_ok _ _ _ _ _ Hfold). split; [reflexivity | exact Hw2]. }
  destruct H as [H1 H2]. split; [exact H1 |]. split; [exact H2 |].
  unfold initializeTimers. rewrite bind_gets, H2. reflexivity.
Qed.

End InitializeEnabled.

Section StopFrame.

Lemma storedInstance_removed actionId tabId actionId' tabId' stored w :
  storedActions w = removedInstance actionId' tabId' stored ->
  storedInstance actionId tabId w
  = if decide (actionId = actionId' /\ tabId = tabId') then None
    else match findAction actionId (validActions stored) with
         | Some action => lookupInstance action tabId
         | None => None
         end.
Proof.
  intros Hs. unfold storedInstance. rewrite Hs. unfold removedInstance.
  destruct (findAction actionId' (validActions stored)) as [action' |] eqn:Hf'.
  2:{ destruct (decide _) as [[-> ->] |]; [rewrite Hf' |]; reflexivity. }
  destruct (Action.instances action') as [instances |] eqn:Hi.
  2:{ destruct (decide _) as [[-> ->] |]; [| reflexivity].
      rewrite Hf'. unfold lookupInstance. rewrite Hi. reflexivity. }
  rewrite (validActions_fixed _ (removedInstance_valid _ tabId' _ _ _ Hf' Hi)).
  destruct (decide (actionId = actionId')) as [-> | Hne].
  - rewrite findAction_updateFound_same by reflexivity. rewrite Hf'. cbn [fmap option_fmap option_map].
    unfold lookupInstance, setInstances. cbn [Action.instances]. rewrite Hi.
    destruct (decide (tabId = tabId')) as [-> | Hnet].
    + rewrite lookup_delete_eq. destruct (decide _) as [_ | Hn]; [reflexivity |].
      exfalso. apply Hn. split; reflexivity.
    + rewrite lookup_delete_ne by congruence.
      destruct (decide _) as [[_ Heq] |]; [contradiction | reflexivity].
  - rewrite findAction_updateFound_other by (reflexivity || congruence).
    destruct (decide _) as [[Heq _] |]; [contradiction | reflexivity].
Qed.

Lemma storedInstance_stopped_other actionId tabId actionId' tabId' w :
  (actionId, tabId) <> (actionId', tabId') ->
  storedInstance actionId tabId (stopped actionId' tabId' w) = storedInstance actionId tabId w.
Proof.
  intros Hne.
  rewrite (storedInstance_removed actionId tabId actionId' tabId' (storedActions w))
    by reflexivity.
  destruct (decide _) as [[-> ->] |]; [contradiction | reflexivity].
Qed.

(** X20: [stopActionOnTab] affects its own pair only: the stored
    instance of every other pair, the registry entry and the recovery
    counter under every other key, every pending timer other than the one
    registered for the pair, the settings, the logs and the notifications
    are unchanged. *)
Theorem stopActionOnTab_frame (actionId : string) (tabId : Z) (w : World) :
  let w' := run (stopActionOnTab actionId tabId) w in
  (forall actionId' tabId',
     (actionId', tabId') <> (actionId, tabId) ->
     storedInstance actionId' tabId' w' = storedInstance actionId' tabId' w)
  /\ (forall k,
        k <> timerKey actionId tabId ->
        activeTimers w' !! k = activeTimers w !! k
        /\ errorRecoveryAttempts w' !! k = errorRecoveryAttempts w !! k)
  /\ (forall timerId,
        TimerInfo.timerId <$> (activeTimers w !! timerKey actionId tabId) <> Some timerId ->
        pendingTimeouts w' !! timerId = pendingTimeouts w !! timerId)
  /\ storedSettings w' = storedSettings w
  /\ storedLogs w' = storedLogs w
  /\ shown w' = shown w.
Proof.
  intros w'. unfold w', run. rewrite stopActionOnTab_eq. cbn [snd].
  split; [intros a' t' Hne; apply storedInstance_stopped_other, Hne |].
  split.
  { intros k Hne. unfold stopped. cbn [activeTimers errorRecoveryAttempts].
    rewrite !lookup_delete_ne by congruence. split; reflexivity. }
  split; [| repeat split].
  intros timerId Hne. unfold stopped, clearedPending. cbn [pendingTimeouts].
  destruct (activeTimers w !! timerKey actionId tabId) as [ti |]; [| reflexivity].
  destruct (truthy (TimerInfo.timerId ti)); [| reflexivity].
  apply lookup_delete_ne. intros Heq. apply Hne. cbn. rewrite Heq. reflexivity.
Qed.

End StopFrame.

Section UrlFilter.

Lemma prefix_empty (s : string) : String.prefix "" s = true.
Proof. destruct s; reflexivity. Qed.

Lemma includes_empty (s : string) : includes s "" = true.
Proof. destruct s; reflexivity. Qed.

(** X23: a URL filter with a blank pattern (an empty or
    whitespace-only piece between or after commas) matches every URL,
    because every string includes the empty string. *)
Theorem matchesUrlFilter_blank_pattern (url filter piece : string) :
  In piece (splitComma EmptyString filter) ->
  trim piece = "" ->
  matchesUrlFilter url filter = true.
Proof.
  intros Hin Hblank. unfold matchesUrlFilter.
  destruct (String.eqb filter "" || String.eqb url ""); [reflexivity |].
  apply existsb_exists. exists "". split.
  - apply in_map_iff. exists piece. rewrite Hblank. split; [reflexivity | exact Hin].
  - cbn [String.prefix]. apply includes_empty.
Qed.

Lemma matchesUrlFilter_blank_pattern_witness :
  In " " (splitComma EmptyString "github.com, ")
  /\ trim " " = ""
  /\ matchesUrlFilter "https://example.com/" "github.com, " = true.
Proof.
  assert (H1 : In " " (splitComma EmptyString "github.com, "))
    by (right; left; reflexivity).
  split; [exact H1 |]. split; [reflexivity |].
  exact (matchesUrlFilter_blank_pattern "https://example.com/" "github.com, " " " H1 eq_refl).
Defined.

End UrlFilter.

Section ValidActions.

(** X24: [getActions] changes nothing and returns the stored actions
    that pass [validateAction], in stored order: each has a non-empty id
    and name, type [key] or [mouse], an interval of at least 1 and at most
    [MAX_INSTANCES_PER_ACTION] instances. *)
Theorem getActions_returns_valid_actions (w : World) :
  exists actions,
    getActions w = (Ok actions, w)
    /\ actions = List.filter isValid (storedActions w)
    /\ forall a,
         In a actions ->
         In a (storedActions w)
         /\ Action.id a <> ""
         /\ Action.name a <> ""
         /\ (Action.type a = "key" \/ Action.type a = "mouse")
         /\ 1 <= Action.interval a
         /\ (size (default ∅ (Action.instances a)) <= MAX_INSTANCES_PER_ACTION)%nat.
Proof.
  exists (validActions (storedActions w)).
  split; [apply getActions_eq |]. split; [reflexivity |].
  intros a Ha. apply List.filter_In in Ha. destruct Ha as [Hin Hvalid].
  split; [exact Hin |]. unfold isValid, validateAction in Hvalid.
  destruct (String.eqb_spec (Action.id a) ""); [discriminate |].
  destruct (String.eqb_spec (Action.name a) ""); [discriminate |].
  destruct (String.eqb_spec (Action.type a) "key") as [Hk | Hk];
    destruct (String.eqb_spec (Action.type a) "mouse") as [Hm | Hm];
    cbn [orb negb] in Hvalid; try discriminate;
    (destruct (Z.ltb_spec (Action.interval a) 1); [discriminate |]);
    (split; [assumption |]); (split; [assumption |]);
    (split; [auto |]); (split; [lia |]);
    (destruct (Action.instances a) as [instances |]; cbn [default];
       [destruct (Nat.ltb_spec MAX_INSTANCES_PER_ACTION (size instances));
          [discriminate | unfold id; lia]
       | rewrite map_size_empty; unfold MAX_INSTANCES_PER_ACTION; lia]).
Qed.

End ValidActions.

Section StartWhileDisabled.



End StartWhileDisabled.

Section SuccessCycle.



(** X27: once [stopActionOnTab] has run, the timer that was registered
    for the pair is no longer pending, and its firing does nothing. *)
Theorem stopped_timer_never_fires (injection : option string) (actionId : string)
    (tabId : Z) (w : World) (timerInfo : TimerInfo.t) :
  activeTimers w !! timerKey actionId tabId = Some timerInfo ->
  truthy (TimerInfo.timerId timerInfo) = true ->
  let w' := run (stopActionOnTab actionId tabId) w in
  pendingTimeouts w' !! TimerInfo.timerId timerInfo = None
  /\ fireTimer injection (TimerInfo.timerId timerInfo) w' = (Ok tt, w').
Proof.
  intros Hk Ht w'.
  assert (Hp : pendingTimeouts w' !! TimerInfo.timerId timerInfo = None).
  { unfold w', run. rewrite stopActionOnTab_eq. unfold stopped, clearedPending.
    cbn [snd pendingTimeouts]. rewrite Hk, Ht. apply lookup_delete_eq. }
  split; [exact Hp | apply fireTimer_absent, Hp].
Qed.

Lemma stopped_timer_never_fires_witness :
  activeTimers armedWorld !! timerKey "a1" 42 = Some armedEntry
  /\ truthy (TimerInfo.timerId armedEntry) = true
  /\ fireTimer None 1 (run (stopActionOnTab "a1" 42) armedWorld)
     = (Ok tt, run (stopActionOnTab "a1" 42) armedWorld).
Proof.
  assert (H1 : activeTimers armedWorld !! timerKey "a1" 42 = Some armedEntry)
    by (vm_compute; reflexivity).
  split; [exact H1 |]. split; [reflexivity |].
  exact (proj2 (stopped_timer_never_fires None "a1" 42 armedWorld armedEntry H1 eq_refl)).
Defined.

End SuccessCycle.
